(** * dbvacancy: the persistence and query layer of [DBManager]

    A shallow embedding of [src/dbvacancy/dbmanager.py], of the schema that
    [initialize_db] creates in [src/dbvacancy/main.py], and of the argument
    preparation of [load_data].

    The methods of [DBManager] are SQL statements sent through one
    connection.  A table is the list of its rows in storage order; an SQL
    value that can be NULL is an [option]; INT and BIGINT are integers with
    a range check that raises.  NUMERIC is the rational number that a value
    stands for: PostgreSQL rounds a quotient at a scale that it derives from
    the operands, which is not modelled, so the theorems on the queries do
    not depend on the digits of a quotient that is not exact; a rate that
    is not a number (NaN, Infinity) is outside the model.  TEXT is the string of the
    bytes of its UTF-8 encoding; LOWER is that of a database whose locale
    folds the letters A to Z only, and what is stated about the titles that
    a keyword matches is stated for ASCII text.  ORDER BY leaves the order
    among rows of equal keys open; the model keeps such rows in storage
    order, and the statements about ordered results are up to that order.
    Every statement either succeeds or raises one of the errors of
    [pg_error]; a statement that raises changes nothing.  The arguments of
    the methods have the types that their annotations declare, except where
    the source itself passes [None] (a description, a rate).  What a
    connection does after a statement has failed is not modelled: every
    method is run on a connection in working order. *)

From Stdlib Require Import List ZArith QArith String Ascii Bool Lia.
From Stdlib Require Import Permutation Sorted Lqa DecimalString.
Import ListNotations.

Local Open Scope Z_scope.

(** ** Errors and results *)

(** The SQLSTATE classes the statements of this program can end in. *)
Inductive pg_error : Type :=
| NotNullViolation
| UniqueViolation
| ForeignKeyViolation
| NumericValueOutOfRange
| InvalidDatetimeFormat
| InvalidEscapeSequence
| DivisionByZero.

Inductive result (A : Type) : Type :=
| Ok (a : A)
| Raise (e : pg_error).

Arguments Ok {A} a.
Arguments Raise {A} e.

Definition bind {A B : Type} (r : result A) (k : A -> result B) : result B :=
  match r with
  | Ok a => k a
  | Raise e => Raise e
  end.

Declare Scope result_scope.
Delimit Scope result_scope with result.
Notation "x <- r ;; k" := (bind r (fun x => k))
  (at level 61, r at next level, right associativity) : result_scope.

(** Evaluates [f] on every row, first row first; the first error wins. *)
Fixpoint map_result {A B : Type} (f : A -> result B) (l : list A)
  : result (list B) :=
  match l with
  | [] => Ok []
  | a :: l' =>
      (b <- f a ;; bs <- map_result f l' ;; Ok (b :: bs))%result
  end.

(** Keeps the rows on which [f] is true; [f] may raise. *)
Fixpoint filter_result {A : Type} (f : A -> result bool) (l : list A)
  : result (list A) :=
  match l with
  | [] => Ok []
  | a :: l' =>
      (b <- f a ;; rest <- filter_result f l' ;;
       Ok (if b then a :: rest else rest))%result
  end.

(** ** Column types *)

Definition int4_min : Z := - 2 ^ 31.
Definition int4_max : Z := 2 ^ 31 - 1.
Definition int8_min : Z := - 2 ^ 63.
Definition int8_max : Z := 2 ^ 63 - 1.

Definition in_int4 (n : Z) : bool := (int4_min <=? n) && (n <=? int4_max).
Definition in_int8 (n : Z) : bool := (int8_min <=? n) && (n <=? int8_max).

(** Storing a Python integer in an INT column. *)
Definition to_int4 (n : Z) : result Z :=
  if in_int4 n then Ok n else Raise NumericValueOutOfRange.

(** Storing a Python integer in a BIGINT column. *)
Definition to_int8 (n : Z) : result Z :=
  if in_int8 n then Ok n else Raise NumericValueOutOfRange.

Definition to_int4_opt (o : option Z) : result (option Z) :=
  match o with
  | None => Ok None
  | Some n => (m <- to_int4 n ;; Ok (Some m))%result
  end.

(** [INT + INT]: PostgreSQL raises on overflow, it does not wrap. *)
Definition int4_add (a b : Z) : result Z := to_int4 (a + b).

(** [NUMERIC / NUMERIC] on non-null operands: the quotient, which
    PostgreSQL then rounds at the result scale it selects. *)
Definition numeric_div (a b : Q) : result Q :=
  if Qeq_bool b 0 then Raise DivisionByZero else Ok (a / b)%Q.

(** [COALESCE(x, d)]. *)
Definition coalesce {A : Type} (x : option A) (d : A) : A :=
  match x with
  | Some a => a
  | None => d
  end.

(** ** The schema of [initialize_db] *)

(** [employers (id BIGINT PRIMARY KEY, name TEXT NOT NULL,
    alternate_url TEXT NOT NULL)]. *)
Record employer : Type := {
  e_id : Z;
  e_name : string;
  e_alternate_url : string
}.

(** [currencies (code TEXT PRIMARY KEY, name TEXT NOT NULL,
    rate NUMERIC NOT NULL)]. *)
Record currency : Type := {
  c_code : string;
  c_name : string;
  c_rate : Q
}.

(** [vacancies (id BIGINT PRIMARY KEY, name TEXT NOT NULL,
    employer_id BIGINT REFERENCES employers(id) ON DELETE CASCADE,
    salary_from INT, salary_to INT,
    salary_currency TEXT REFERENCES currencies(code), description TEXT,
    alternate_url TEXT NOT NULL UNIQUE, published_at TIMESTAMP NOT NULL)].
    [employer_id] is a nullable column, but [add_vacancy] declares it [int],
    so a stored row always has one; [description] is nullable and
    [load_data] passes [None] for it when the source has no text. *)
Record vacancy : Type := {
  v_id : Z;
  v_name : string;
  v_employer_id : Z;
  v_salary_from : option Z;
  v_salary_to : option Z;
  v_salary_currency : option string;
  v_description : option string;
  v_alternate_url : string;
  v_published_at : Z
}.

Record database : Type := {
  employers : list employer;
  currencies : list currency;
  vacancies : list vacancy
}.

(** The state right after [drop_tables] and [initialize_db]. *)
Definition empty_db : database :=
  {| employers := []; currencies := []; vacancies := [] |}.

Definition has_employer (d : database) (id : Z) : bool :=
  existsb (fun e => e_id e =? id) (employers d).

Definition has_currency (d : database) (code : string) : bool :=
  existsb (fun c => String.eqb (c_code c) code) (currencies d).

Definition has_vacancy (d : database) (id : Z) : bool :=
  existsb (fun v => v_id v =? id) (vacancies d).

Definition has_vacancy_url (d : database) (url : string) : bool :=
  existsb (fun v => String.eqb (v_alternate_url v) url) (vacancies d).

Definition find_employer (d : database) (id : Z) : option employer :=
  find (fun e => e_id e =? id) (employers d).

Definition find_currency (d : database) (code : string) : option currency :=
  find (fun c => String.eqb (c_code c) code) (currencies d).

Definition find_vacancy (d : database) (id : Z) : option vacancy :=
  find (fun v => v_id v =? id) (vacancies d).

(** *** The constraints of the schema, as a check on a state *)

Fixpoint distinct {A : Type} (eqb : A -> A -> bool) (l : list A) : bool :=
  match l with
  | [] => true
  | a :: l' => negb (existsb (eqb a) l') && distinct eqb l'
  end.

Definition vacancy_ok (d : database) (v : vacancy) : bool :=
  in_int8 (v_id v)
  && in_int8 (v_employer_id v)
  && has_employer d (v_employer_id v)
  && match v_salary_from v with Some n => in_int4 n | None => true end
  && match v_salary_to v with Some n => in_int4 n | None => true end
  && match v_salary_currency v with
     | Some code => has_currency d code
     | None => true
     end.

(** Primary keys, the UNIQUE url, both foreign keys and the integer
    ranges. *)
Definition valid_db (d : database) : bool :=
  distinct Z.eqb (map e_id (employers d))
  && forallb (fun e => in_int8 (e_id e)) (employers d)
  && distinct String.eqb (map c_code (currencies d))
  && distinct Z.eqb (map v_id (vacancies d))
  && distinct String.eqb (map v_alternate_url (vacancies d))
  && forallb (vacancy_ok d) (vacancies d).

(** ** The SQL operators the statements use *)

(** [FROM l JOIN r ON on]. *)
Definition inner_join {A B : Type} (on : A -> B -> bool)
  (l : list A) (r : list B) : list (A * B) :=
  flat_map (fun a => map (pair a) (filter (on a) r)) l.

(** [FROM l LEFT JOIN r ON on]: a row of [l] without a partner is kept,
    with NULLs on the right. *)
Definition left_join {A B : Type} (on : A -> B -> bool)
  (l : list A) (r : list B) : list (A * option B) :=
  flat_map (fun a =>
              match filter (on a) r with
              | [] => [(a, None)]
              | bs => map (fun b => (a, Some b)) bs
              end) l.

(** [x = y] where [x] can be NULL, as a join or filter condition: NULL does
    not pass. *)
Definition eq_nullable_string (x : option string) (y : string) : bool :=
  match x with
  | Some s => String.eqb s y
  | None => false
  end.

(** [ORDER BY key] for the order [le] on keys.  Among rows with equal
    keys PostgreSQL promises no order; this insertion sort leaves them in
    storage order, and no statement below depends on it. *)
Fixpoint insert_by {A K : Type} (le : K -> K -> bool) (key : A -> K)
  (a : A) (l : list A) : list A :=
  match l with
  | [] => [a]
  | b :: l' =>
      if le (key a) (key b) then a :: b :: l'
      else b :: insert_by le key a l'
  end.

Fixpoint order_by {A K : Type} (le : K -> K -> bool) (key : A -> K)
  (l : list A) : list A :=
  match l with
  | [] => []
  | a :: l' => insert_by le key a (order_by le key l')
  end.

(** [DESC NULLS LAST] on a nullable integer. *)
Definition desc_nulls_last (x y : option Z) : bool :=
  match x, y with
  | Some a, Some b => b <=? a
  | Some _, None => true
  | None, Some _ => false
  | None, None => true
  end.

(** [DESC] on a count. *)
Definition desc (x y : Z) : bool := y <=? x.

(** The distinct values of a list, each at its first occurrence. *)
Fixpoint dedup (l : list string) : list string :=
  match l with
  | [] => []
  | a :: l' => a :: filter (fun b => negb (String.eqb a b)) (dedup l')
  end.

(** [GROUP BY key]: one group per distinct key, holding the rows that have
    it. *)
Definition group_by {A : Type} (key : A -> string) (l : list A)
  : list (string * list A) :=
  map (fun k => (k, filter (fun a => String.eqb k (key a)) l))
      (dedup (map key l)).

(** [COUNT(x)]: the number of rows on which [x] is not NULL. *)
Definition sql_count {A : Type} (l : list (option A)) : Z :=
  Z.of_nat (List.length (filter (fun x => match x with Some _ => true | None => false end) l)).

Fixpoint non_nulls {A : Type} (l : list (option A)) : list A :=
  match l with
  | [] => []
  | Some a :: l' => a :: non_nulls l'
  | None :: l' => non_nulls l'
  end.

Definition Qsum (l : list Q) : Q := fold_right Qplus 0%Q l.

(** The mean of a non-empty list of numbers. *)
Definition mean (l : list Q) : option Q :=
  match l with
  | [] => None
  | _ => Some (Qsum l / inject_Z (Z.of_nat (List.length l)))%Q
  end.

(** [AVG(x)]: the mean of the non-NULL inputs (a quotient, rounded like
    the others), NULL when there is none. *)
Definition sql_avg (l : list (option Q)) : option Q := mean (non_nulls l).

(** [x > y] on NUMERIC where [x] can be NULL, as a filter: NULL does not
    pass. *)
Definition gt_nullable (x : option Q) (y : Q) : bool :=
  match x with
  | Some a => negb (Qle_bool a y)
  | None => false
  end.

(** [LOWER] on one byte and on a text, in a locale that folds only the
    letters A to Z; the bytes of the other characters stay. *)
Definition lower_char (c : ascii) : ascii :=
  let n := N_of_ascii c in
  if ((65 <=? n) && (n <=? 90))%N then ascii_of_N (n + 32) else c.

Fixpoint lower (s : string) : string :=
  match s with
  | EmptyString => EmptyString
  | String c s' => String (lower_char c) (lower s')
  end.

Definition percent : ascii := "%"%char.
Definition underscore : ascii := "_"%char.
Definition backslash : ascii := "\"%char.

(** A text is the string of the bytes of its UTF-8 encoding, the encoding
    of the database; the bytes [10xxxxxx] continue a character. *)
Definition continuation (c : ascii) : bool :=
  let n := N_of_ascii c in ((128 <=? n) && (n <? 192))%N.

(** What follows a character of which the first byte has been taken. *)
Fixpoint after_char (t : string) : string :=
  match t with
  | EmptyString => EmptyString
  | String c t' => if continuation c then after_char t' else t
  end.

(** [t LIKE p] with the default escape character: [%] stands for any run
    of characters, [_] for any one character, a backslash makes the next
    pattern byte literal, and a pattern that ends in a lone backslash
    raises when the match gets there. *)
Fixpoint like_match (p t : string) {struct p} : result bool :=
  match p with
  | EmptyString =>
      Ok (match t with EmptyString => true | String _ _ => false end)
  | String c p' =>
      if Ascii.eqb c percent then
        (fix any (t : string) : result bool :=
           (b <- like_match p' t ;;
            if b then Ok true
            else match t with
                 | EmptyString => Ok false
                 | String _ t' => any t'
                 end)%result) t
      else if Ascii.eqb c underscore then
        match t with
        | EmptyString => Ok false
        | String _ t' => like_match p' (after_char t')
        end
      else
        match t with
        | EmptyString => Ok false
        | String x t' =>
            if Ascii.eqb c backslash then
              match p' with
              | EmptyString => Raise InvalidEscapeSequence
              | String e p'' =>
                  if Ascii.eqb e x then like_match p'' t' else Ok false
              end
            else if Ascii.eqb c x then like_match p' t' else Ok false
        end
  end.

(** ** The connection *)

(** The statements of [DBManager], one per [cursor.execute]. *)
Inductive statement : Type :=
| InsertVacancy
| InsertEmployer
| InsertCurrency
| SelectCompaniesCount
| SelectAllVacancies
| SelectAvgSalary
| SelectHigherSalary
| SelectKeyword.

(** [self.conn]: the stored data and the statements sent so far. *)
Record connection : Type := {
  conn_db : database;
  conn_sent : list statement
}.

Definition connect (d : database) : connection :=
  {| conn_db := d; conn_sent := [] |}.

(** A method of [DBManager]: it returns or raises, and leaves a
    connection. *)
Definition DB (A : Type) : Type := connection -> result A * connection.

Definition db_ret {A : Type} (a : A) : DB A := fun c => (Ok a, c).

Definition db_bind {A B : Type} (m : DB A) (k : A -> DB B) : DB B :=
  fun c =>
    match m c with
    | (Ok a, c') => k a c'
    | (Raise e, c') => (Raise e, c')
    end.

(** [cursor.execute] of a statement that reads. *)
Definition execute_query {A : Type} (s : statement)
  (q : database -> result A) : DB A :=
  fun c =>
    (q (conn_db c),
     {| conn_db := conn_db c; conn_sent := conn_sent c ++ [s] |}).

(** [cursor.execute] of an INSERT followed by [self.conn.commit()]; when
    the INSERT raises, nothing was written and the commit is not
    reached. *)
Definition execute_insert (s : statement)
  (ins : database -> result database) : DB unit :=
  fun c =>
    match ins (conn_db c) with
    | Ok d' => (Ok tt, {| conn_db := d'; conn_sent := conn_sent c ++ [s] |})
    | Raise e =>
        (Raise e, {| conn_db := conn_db c; conn_sent := conn_sent c ++ [s] |})
    end.

(** ** [class DBManager] *)

Module DBManager.

Section Methods.

(** The input conversion of the TIMESTAMP type: the stored value of a
    text, or nothing when the text is not a timestamp.  It is PostgreSQL's
    and not part of this program. *)
Variable timestamp_in : string -> option Z.

Definition to_timestamp (s : string) : result Z :=
  match timestamp_in s with
  | Some t => Ok t
  | None => Raise InvalidDatetimeFormat
  end.

(** [INSERT INTO vacancies (...) VALUES (...) ON CONFLICT (id) DO NOTHING].
    The values are converted to the column types first: the text of
    [published_at] when the statement is analysed, then the integers in
    the order of their columns.  Then a row with the same id makes the
    statement do nothing; otherwise the row is written, which the UNIQUE
    index on [alternate_url] and then the two foreign keys can refuse. *)
Definition insert_vacancy (vacancy_id : Z) (name : string) (employer_id : Z)
  (salary_from salary_to : option Z) (salary_currency : option string)
  (description : option string) (alternate_url published_at : string)
  (d : database) : result database :=
  (ts <- to_timestamp published_at ;;
   id <- to_int8 vacancy_id ;;
   eid <- to_int8 employer_id ;;
   sf <- to_int4_opt salary_from ;;
   st <- to_int4_opt salary_to ;;
   if has_vacancy d id then Ok d
   else if has_vacancy_url d alternate_url then Raise UniqueViolation
   else if negb (has_employer d eid) then Raise ForeignKeyViolation
   else if match salary_currency with
           | Some code => negb (has_currency d code)
           | None => false
           end then Raise ForeignKeyViolation
   else Ok {| employers := employers d;
              currencies := currencies d;
              vacancies := vacancies d ++
                [{| v_id := id; v_name := name; v_employer_id := eid;
                    v_salary_from := sf; v_salary_to := st;
                    v_salary_currency := salary_currency;
                    v_description := description;
                    v_alternate_url := alternate_url;
                    v_published_at := ts |}] |})%result.

Definition add_vacancy (vacancy_id : Z) (name : string) (employer_id : Z)
  (salary_from salary_to : option Z) (salary_currency : option string)
  (description : option string) (alternate_url published_at : string)
  : DB unit :=
  execute_insert InsertVacancy
    (insert_vacancy vacancy_id name employer_id salary_from salary_to
       salary_currency description alternate_url published_at).

(** [INSERT INTO employers (id, name, alternate_url) VALUES (...)
    ON CONFLICT (id) DO NOTHING]. *)
Definition insert_employer (employer_id : Z) (name alternate_url : string)
  (d : database) : result database :=
  (id <- to_int8 employer_id ;;
   if has_employer d id then Ok d
   else Ok {| employers := employers d ++
                [{| e_id := id; e_name := name;
                    e_alternate_url := alternate_url |}];
              currencies := currencies d;
              vacancies := vacancies d |})%result.

Definition add_employer (employer_id : Z) (name alternate_url : string)
  : DB unit :=
  execute_insert InsertEmployer (insert_employer employer_id name alternate_url).

(** [INSERT INTO currencies (code, name, rate) VALUES (...)
    ON CONFLICT (code) DO NOTHING].  [rate] is [None] when the caller
    passes Python's [None], which is sent as NULL; NOT NULL is checked
    before the conflict on [code] is looked for. *)
Definition insert_currency (code name : string) (rate : option Q)
  (d : database) : result database :=
  match rate with
  | None => Raise NotNullViolation
  | Some r =>
      if has_currency d code then Ok d
      else Ok {| employers := employers d;
                 currencies := currencies d ++
                   [{| c_code := code; c_name := name; c_rate := r |}];
                 vacancies := vacancies d |}
  end.

Definition add_currency (code name : string) (rate : option Q) : DB unit :=
  execute_insert InsertCurrency (insert_currency code name rate).

End Methods.

(** [SELECT e.name, COUNT(v.id) AS vacancies_count FROM employers e
    LEFT JOIN vacancies v ON e.id = v.employer_id GROUP BY e.name
    ORDER BY vacancies_count DESC]. *)
Definition select_companies_count (d : database) : list (string * Z) :=
  let joined :=
    left_join (fun e v => e_id e =? v_employer_id v)
      (employers d) (vacancies d) in
  let groups := group_by (fun r => e_name (fst r)) joined in
  let rows :=
    map (fun g => (fst g,
                   sql_count (map (fun r => option_map v_id (snd r)) (snd g))))
      groups in
  order_by desc snd rows.

Definition get_companies_and_vacancies_count : DB (list (string * Z)) :=
  execute_query SelectCompaniesCount (fun d => Ok (select_companies_count d)).

(** A row of [get_all_vacancies] and of [get_vacancies_with_keyword]. *)
Definition vacancy_row : Type :=
  string * string * option Z * option Z * option string * string.

Definition to_vacancy_row (r : vacancy * employer) : vacancy_row :=
  let (v, e) := r in
  (e_name e, v_name v, v_salary_from v, v_salary_to v, v_salary_currency v,
   v_alternate_url v).

Definition vacancies_with_employers (d : database) : list (vacancy * employer) :=
  inner_join (fun v e => v_employer_id v =? e_id e) (vacancies d) (employers d).

(** [SELECT e.name, v.name, v.salary_from, v.salary_to, v.salary_currency,
    v.alternate_url FROM vacancies v JOIN employers e
    ON v.employer_id = e.id ORDER BY v.salary_from DESC NULLS LAST]. *)
Definition select_all_vacancies (d : database) : list vacancy_row :=
  map to_vacancy_row
    (order_by desc_nulls_last (fun r => v_salary_from (fst r))
       (vacancies_with_employers d)).

Definition get_all_vacancies : DB (list vacancy_row) :=
  execute_query SelectAllVacancies (fun d => Ok (select_all_vacancies d)).

(** [CASE WHEN from and to are not NULL THEN (from + to) / 2.0
    WHEN from is not NULL THEN from WHEN to is not NULL THEN to
    ELSE NULL END]. *)
Definition salary_case (v : vacancy) : result (option Q) :=
  match v_salary_from v, v_salary_to v with
  | Some f, Some t =>
      (s <- int4_add f t ;; x <- numeric_div (inject_Z s) 2 ;; Ok (Some x))%result
  | Some f, None => Ok (Some (inject_Z f))
  | None, Some t => Ok (Some (inject_Z t))
  | None, None => Ok None
  end.

(** [COALESCE(c.rate, 1)] on a row of the LEFT JOIN with currencies. *)
Definition rate_or_1 (c : option currency) : Q :=
  coalesce (option_map c_rate c) 1%Q.

Definition vacancies_with_currencies (d : database)
  : list (vacancy * option currency) :=
  left_join (fun v c => eq_nullable_string (v_salary_currency v) (c_code c))
    (vacancies d) (currencies d).

Definition has_salary (v : vacancy) : bool :=
  match v_salary_from v, v_salary_to v with
  | None, None => false
  | _, _ => true
  end.

(** [CASE ... END / COALESCE(c.rate, 1)], the argument of AVG; the
    division gives NULL on a NULL operand. *)
Definition avg_argument (r : vacancy * option currency) : result (option Q) :=
  (x <- salary_case (fst r) ;;
   match x with
   | None => Ok None
   | Some a => y <- numeric_div a (rate_or_1 (snd r)) ;; Ok (Some y)
   end)%result.

(** [SELECT AVG(CASE ... END / COALESCE(c.rate, 1)) FROM vacancies v
    LEFT JOIN currencies c ON v.salary_currency = c.code
    WHERE v.salary_from IS NOT NULL OR v.salary_to IS NOT NULL]: always one
    row of one column. *)
Definition select_avg_salary (d : database) : result (list (option Q)) :=
  let rows := filter (fun r => has_salary (fst r)) (vacancies_with_currencies d) in
  (xs <- map_result avg_argument rows ;; Ok [sql_avg xs])%result.

(** [result = cursor.fetchone(); return result[0] if result else None]. *)
Definition get_avg_salary : DB (option Q) :=
  db_bind (execute_query SelectAvgSalary select_avg_salary)
    (fun rows =>
       db_ret match hd_error rows with
              | Some result => result
              | None => None
              end).

(** A row of [get_vacancies_with_higher_salary]. *)
Definition salary_row : Type :=
  string * string * Z * Z * option string * string.

Definition to_salary_row (r : vacancy * employer * option currency) : salary_row :=
  let '(v, e, _) := r in
  (e_name e, v_name v, coalesce (v_salary_from v) 0, coalesce (v_salary_to v) 0,
   v_salary_currency v, v_alternate_url v).

(** The CASE of the WHERE clause of [get_vacancies_with_higher_salary],
    which divides in each branch. *)
Definition normalized_case (v : vacancy) (c : option currency)
  : result (option Q) :=
  match v_salary_from v, v_salary_to v with
  | Some f, Some t =>
      (s <- int4_add f t ;; x <- numeric_div (inject_Z s) 2 ;;
       y <- numeric_div x (rate_or_1 c) ;; Ok (Some y))%result
  | Some f, None =>
      (y <- numeric_div (inject_Z f) (rate_or_1 c) ;; Ok (Some y))%result
  | None, Some t =>
      (y <- numeric_div (inject_Z t) (rate_or_1 c) ;; Ok (Some y))%result
  | None, None => Ok None
  end.

(** [CASE ... END > avg_salary], the WHERE clause. *)
Definition higher_condition (avg_salary : Q)
  (r : vacancy * employer * option currency) : result bool :=
  (x <- normalized_case (fst (fst r)) (snd r) ;;
   Ok (gt_nullable x avg_salary))%result.

(** [SELECT e.name, v.name, COALESCE(v.salary_from, 0),
    COALESCE(v.salary_to, 0), v.salary_currency, v.alternate_url
    FROM vacancies v JOIN employers e ON v.employer_id = e.id
    LEFT JOIN currencies c ON v.salary_currency = c.code
    WHERE CASE ... END > avg_salary
    ORDER BY v.salary_from DESC NULLS LAST]. *)
Definition select_higher_salary (avg_salary : Q) (d : database)
  : result (list salary_row) :=
  let joined :=
    left_join (fun r c => eq_nullable_string (v_salary_currency (fst r)) (c_code c))
      (vacancies_with_employers d) (currencies d) in
  (rows <- filter_result (higher_condition avg_salary) joined ;;
   Ok (map to_salary_row
         (order_by desc_nulls_last (fun r => v_salary_from (fst (fst r))) rows)))%result.

Definition get_vacancies_with_higher_salary : DB (list salary_row) :=
  db_bind get_avg_salary
    (fun avg_salary =>
       match avg_salary with
       | None => db_ret []
       | Some a => execute_query SelectHigherSalary (select_higher_salary a)
       end).

(** [SELECT ... FROM vacancies v JOIN employers e ON v.employer_id = e.id
    WHERE LOWER(v.name) LIKE LOWER(pattern)
    ORDER BY v.salary_from DESC NULLS LAST]. *)
Definition select_keyword (pattern : string) (d : database)
  : result (list vacancy_row) :=
  (rows <- filter_result
             (fun r => like_match (lower pattern) (lower (v_name (fst r))))
             (vacancies_with_employers d) ;;
   Ok (map to_vacancy_row
         (order_by desc_nulls_last (fun r => v_salary_from (fst r)) rows)))%result.

(** [keyword = f"%{keyword}%"], then the query. *)
Definition get_vacancies_with_keyword (keyword : string) : DB (list vacancy_row) :=
  let keyword := (String percent keyword ++ String percent EmptyString)%string in
  execute_query SelectKeyword (select_keyword keyword).

End DBManager.

(** ** [load_data]: from a record of the source to a call of [add_vacancy] *)

Module Main.

(** The [salary] object of a vacancy of the source; a field is [None] when
    its key is missing or null. *)
Record raw_salary : Type := {
  rs_from : option Z;
  rs_to : option Z;
  rs_currency : option string
}.

(** A vacancy of the source, with [int(vacancy["id"])],
    [int(vacancy["employer"]["id"])] and
    [vacancy.get("snippet", {}).get("responsibility", "")] already
    taken. *)
Record raw_vacancy : Type := {
  rv_id : Z;
  rv_name : string;
  rv_employer_id : Z;
  rv_salary : option raw_salary;
  rv_responsibility : option string;
  rv_alternate_url : string;
  rv_published_at : string
}.

(** Python's truth value of what [.get] returns: [None], [0] and the empty
    string are false. *)
Definition truthy_int (x : option Z) : bool :=
  match x with
  | Some n => negb (n =? 0)
  | None => false
  end.

Definition truthy_str (x : option string) : bool :=
  match x with
  | Some s => negb (String.eqb s EmptyString)
  | None => false
  end.

Definition truthy_salary (x : option raw_salary) : bool :=
  match x with
  | Some _ => true
  | None => false
  end.

(** [vacancy["salary"][key] if vacancy.get("salary") and
    vacancy["salary"].get(key) else None], for the three keys. *)
Definition salary_from_arg (v : raw_vacancy) : option Z :=
  if truthy_salary (rv_salary v)
     && truthy_int (match rv_salary v with Some s => rs_from s | None => None end)
  then match rv_salary v with Some s => rs_from s | None => None end
  else None.

Definition salary_to_arg (v : raw_vacancy) : option Z :=
  if truthy_salary (rv_salary v)
     && truthy_int (match rv_salary v with Some s => rs_to s | None => None end)
  then match rv_salary v with Some s => rs_to s | None => None end
  else None.

Definition salary_currency_arg (v : raw_vacancy) : option string :=
  if truthy_salary (rv_salary v)
     && truthy_str (match rv_salary v with Some s => rs_currency s | None => None end)
  then match rv_salary v with Some s => rs_currency s | None => None end
  else None.

Section Load.

Variable timestamp_in : string -> option Z.

(** The call [db.add_vacancy(...)] of the loop body. *)
Definition add_raw_vacancy (v : raw_vacancy) : DB unit :=
  DBManager.add_vacancy timestamp_in (rv_id v) (rv_name v) (rv_employer_id v)
    (salary_from_arg v) (salary_to_arg v) (salary_currency_arg v)
    (rv_responsibility v) (rv_alternate_url v) (rv_published_at v).

End Load.

End Main.

(** ** What the specification says, in its own words *)

Module Spec.

(** The representative salary of a vacancy: the midpoint of the two bounds
    when both are present, else the one that is; none without bounds. *)
Definition representative (v : vacancy) : option Q :=
  match v_salary_from v, v_salary_to v with
  | Some f, Some t => Some (inject_Z (f + t) / 2)%Q
  | Some f, None => Some (inject_Z f)
  | None, Some t => Some (inject_Z t)
  | None, None => None
  end.

(** The exchange rate of a vacancy: that of its currency, and 1 when the
    currency is null or has no row in [currencies]. *)
Definition rate_of (d : database) (v : vacancy) : Q :=
  match v_salary_currency v with
  | None => 1%Q
  | Some code =>
      match find_currency d code with
      | Some c => c_rate c
      | None => 1%Q
      end
  end.

(** The representative salary in the reference currency. *)
Definition normalized (d : database) (v : vacancy) : option Q :=
  match representative v with
  | Some x => Some (x / rate_of d v)%Q
  | None => None
  end.

(** The mean of the normalized salaries of the vacancies that have one. *)
Definition average_salary (d : database) : option Q :=
  mean (non_nulls (map (normalized d) (vacancies d))).

(** The vacancy's normalized salary is strictly above [a]. *)
Definition above (d : database) (a : Q) (v : vacancy) : bool :=
  match normalized d v with
  | Some x => negb (Qle_bool x a)
  | None => false
  end.

(** [k] is a prefix of [t]. *)
Fixpoint starts_with (k t : string) : bool :=
  match k, t with
  | EmptyString, _ => true
  | String a k', String b t' => Ascii.eqb a b && starts_with k' t'
  | String _ _, EmptyString => false
  end.

(** [k] occurs somewhere in [t]. *)
Fixpoint contains (k t : string) : bool :=
  starts_with k t
  || match t with
     | EmptyString => false
     | String _ t' => contains k t'
     end.

(** One of the letters A to Z. *)
Definition is_capital (c : ascii) : bool :=
  let n := N_of_ascii c in ((65 <=? n) && (n <=? 90))%N.

(** Two characters that differ at most by the case of a letter A to Z:
    the small letter is 32 places after the capital. *)
Definition same_letter (a b : ascii) : bool :=
  Ascii.eqb a b
  || (is_capital a && (N_of_ascii b =? N_of_ascii a + 32)%N)
  || (is_capital b && (N_of_ascii a =? N_of_ascii b + 32)%N).

Fixpoint starts_with_ignoring_case (k t : string) : bool :=
  match k, t with
  | EmptyString, _ => true
  | String a k', String b t' => same_letter a b && starts_with_ignoring_case k' t'
  | String _ _, EmptyString => false
  end.

(** [k] occurs in [t] when the case of the letters A to Z is ignored. *)
Fixpoint contains_ignoring_case (k t : string) : bool :=
  starts_with_ignoring_case k t
  || match t with
     | EmptyString => false
     | String _ t' => contains_ignoring_case k t'
     end.

(** The row shown for a vacancy [v] of employer [e]. *)
Definition listed (v : vacancy) (e : employer) : DBManager.vacancy_row :=
  (e_name e, v_name v, v_salary_from v, v_salary_to v, v_salary_currency v,
   v_alternate_url v).

(** The same with absent bounds shown as 0. *)
Definition listed_with_zeros (v : vacancy) (e : employer) : DBManager.salary_row :=
  (e_name e, v_name v,
   match v_salary_from v with Some n => n | None => 0 end,
   match v_salary_to v with Some n => n | None => 0 end,
   v_salary_currency v, v_alternate_url v).

(** [e] is the employer of [v] in [d]. *)
Definition employer_of (d : database) (v : vacancy) (e : employer) : Prop :=
  In e (employers d) /\ e_id e = v_employer_id v.

(** Lower bounds descending, absent ones last. *)
Definition before (v w : vacancy) : Prop :=
  match v_salary_from v, v_salary_from w with
  | Some a, Some b => b <= a
  | Some _, None => True
  | None, Some _ => False
  | None, None => True
  end.

(** The number of vacancies of an employer. *)
Definition vacancy_count (d : database) (e : employer) : Z :=
  Z.of_nat (List.length (filter (fun v => v_employer_id v =? e_id e) (vacancies d))).

End Spec.

(** ** The states the program can reach *)

(** The vacancies for which the salary expression of the two salary
    queries can be computed: the sum of two present bounds fits INT, and
    the rate to divide by is not zero. *)
Definition salary_computable (d : database) (v : vacancy) : bool :=
  match v_salary_from v, v_salary_to v with
  | None, None => true
  | Some f, Some t => in_int4 (f + t) && negb (Qeq_bool (Spec.rate_of d v) 0)
  | _, _ => negb (Qeq_bool (Spec.rate_of d v) 0)
  end.

(** From the empty schema, by calls of the three insert methods that
    return. *)
Inductive reachable (timestamp_in : string -> option Z) : database -> Prop :=
| reachable_empty : reachable timestamp_in empty_db
| reachable_employer d id name url c :
    reachable timestamp_in d ->
    DBManager.add_employer id name url (connect d) = (Ok tt, c) ->
    reachable timestamp_in (conn_db c)
| reachable_currency d code name rate c :
    reachable timestamp_in d ->
    DBManager.add_currency code name rate (connect d) = (Ok tt, c) ->
    reachable timestamp_in (conn_db c)
| reachable_vacancy d id name eid sf st cur descr url pub c :
    reachable timestamp_in d ->
    DBManager.add_vacancy timestamp_in id name eid sf st cur descr url pub
      (connect d) = (Ok tt, c) ->
    reachable timestamp_in (conn_db c).

(** ** Auxiliary definitions for the proofs *)

(** The employer row that the JOIN pairs with a vacancy. *)
Definition employer_row (d : database) (v : vacancy) : option employer :=
  find (fun e => v_employer_id v =? e_id e) (employers d).

(** The currency row that the LEFT JOIN pairs with a vacancy. *)
Definition currency_row (d : database) (v : vacancy) : option currency :=
  match v_salary_currency v with
  | Some code => find (fun c => String.eqb code (c_code c)) (currencies d)
  | None => None
  end.

(** A keyword without the characters that LIKE reads as more than
    themselves. *)
Fixpoint meta_free (k : string) : bool :=
  match k with
  | EmptyString => true
  | String c k' =>
      negb (Ascii.eqb c percent) && negb (Ascii.eqb c underscore)
      && negb (Ascii.eqb c backslash) && meta_free k'
  end.

(** A text of ASCII characters only. *)
Fixpoint is_ascii (s : string) : bool :=
  match s with
  | EmptyString => true
  | String c s' => (N_of_ascii c <? 128)%N && is_ascii s'
  end.

(** The 256 bytes. *)
Definition all_bytes : list ascii := map ascii_of_nat (seq 0 256).

(** The lower bound of a listed row. *)
Definition row_from (r : DBManager.vacancy_row) : option Z :=
  let '(_, _, f, _, _, _) := r in f.

(** Lower bounds descending, absent ones last, on listed rows. *)
Definition rows_in_order (r s : DBManager.vacancy_row) : Prop :=
  match row_from r, row_from s with
  | Some a, Some b => b <= a
  | Some _, None => True
  | None, Some _ => False
  | None, None => True
  end.

(** The arguments of [add_vacancy] other than the id: a payload. *)
Record vacancy_payload : Type := {
  p_name : string;
  p_employer_id : Z;
  p_salary_from : option Z;
  p_salary_to : option Z;
  p_salary_currency : option string;
  p_description : option string;
  p_alternate_url : string;
  p_published_at : string
}.

Definition add_vacancy_payload (timestamp_in : string -> option Z)
  (id : Z) (p : vacancy_payload) : DB unit :=
  DBManager.add_vacancy timestamp_in id (p_name p) (p_employer_id p)
    (p_salary_from p) (p_salary_to p) (p_salary_currency p)
    (p_description p) (p_alternate_url p) (p_published_at p).

(** The row that a payload is stored as, [t] being its timestamp. *)
Definition stored_vacancy (id : Z) (p : vacancy_payload) (t : Z) : vacancy :=
  {| v_id := id; v_name := p_name p; v_employer_id := p_employer_id p;
     v_salary_from := p_salary_from p; v_salary_to := p_salary_to p;
     v_salary_currency := p_salary_currency p;
     v_description := p_description p;
     v_alternate_url := p_alternate_url p; v_published_at := t |}.

Definition fits_int4 (x : option Z) : bool :=
  match x with
  | Some n => in_int4 n
  | None => true
  end.

(** The values of a call of [add_vacancy] fit the types of their columns:
    BIGINT, INT and TIMESTAMP. *)
Definition fits_columns (timestamp_in : string -> option Z)
  (id : Z) (p : vacancy_payload) : bool :=
  in_int8 id && in_int8 (p_employer_id p)
  && fits_int4 (p_salary_from p) && fits_int4 (p_salary_to p)
  && match timestamp_in (p_published_at p) with
     | Some _ => true
     | None => false
     end.

(** The connection after one more statement that changed nothing. *)
Definition sent (c : connection) (s : statement) : connection :=
  {| conn_db := conn_db c; conn_sent := conn_sent c ++ [s] |}.

(** The currency of a vacancy is null or has no row in [currencies]. *)
Definition unresolved_currency (d : database) (v : vacancy) : bool :=
  match v_salary_currency v with
  | Some code => negb (has_currency d code)
  | None => true
  end.

(** A vacancy of the source with another [salary] object. *)
Definition with_salary (v : Main.raw_vacancy) (s : option Main.raw_salary)
  : Main.raw_vacancy :=
  {| Main.rv_id := Main.rv_id v; Main.rv_name := Main.rv_name v;
     Main.rv_employer_id := Main.rv_employer_id v; Main.rv_salary := s;
     Main.rv_responsibility := Main.rv_responsibility v;
     Main.rv_alternate_url := Main.rv_alternate_url v;
     Main.rv_published_at := Main.rv_published_at v |}.

(** A [salary] object without its lower bound, and without its upper
    bound. *)
Definition without_from (s : Main.raw_salary) : Main.raw_salary :=
  {| Main.rs_from := None; Main.rs_to := Main.rs_to s;
     Main.rs_currency := Main.rs_currency s |}.

Definition without_to (s : Main.raw_salary) : Main.raw_salary :=
  {| Main.rs_from := Main.rs_from s; Main.rs_to := None;
     Main.rs_currency := Main.rs_currency s |}.

(** A call of one of the three insert methods, and a run of such calls
    that stops at the first one that raises. *)
Inductive call : Type :=
| AddEmployer (id : Z) (name url : string)
| AddCurrency (code name : string) (rate : option Q)
| AddVacancy (id : Z) (p : vacancy_payload).

Definition run_call (timestamp_in : string -> option Z) (k : call) : DB unit :=
  match k with
  | AddEmployer id name url => DBManager.add_employer id name url
  | AddCurrency code name rate => DBManager.add_currency code name rate
  | AddVacancy id p => add_vacancy_payload timestamp_in id p
  end.

Fixpoint run_calls (timestamp_in : string -> option Z) (ks : list call)
  : DB unit :=
  match ks with
  | [] => db_ret tt
  | k :: ks' => db_bind (run_call timestamp_in k) (fun _ => run_calls timestamp_in ks')
  end.

(** ** Sample states *)

Module Sample.

Local Open Scope string_scope.

(** A TIMESTAMP input for the sample calls: it refuses the empty text. *)
Definition timestamp_in (s : string) : option Z :=
  if String.eqb s "" then None else Some (Z.of_nat (String.length s)).

Definition acme : employer :=
  {| e_id := 1; e_name := "Acme"; e_alternate_url := "https://hh.ru/employer/1" |}.

Definition vacancy_of (id : Z) (name : string) (employer_id : Z)
  (salary_from salary_to : option Z) (salary_currency : option string)
  (alternate_url : string) : vacancy :=
  {| v_id := id; v_name := name; v_employer_id := employer_id;
     v_salary_from := salary_from; v_salary_to := salary_to;
     v_salary_currency := salary_currency; v_description := None;
     v_alternate_url := alternate_url; v_published_at := 10 |}.

(** One employer, nothing else. *)
Definition only_acme : database :=
  {| employers := [acme]; currencies := []; vacancies := [] |}.

(** Bounds (1000, 2000) at rate 1.0 and (500, null) at rate 0.5. *)
Definition two_salaries : database :=
  {| employers := [acme];
     currencies := [{| c_code := "USD"; c_name := "dollar"; c_rate := 1 |};
                    {| c_code := "HLF"; c_name := "half"; c_rate := 1 # 2 |}];
     vacancies := [vacancy_of 1 "Senior Backend Engineer" 1 (Some 1000) (Some 2000)
                     (Some "USD") "https://hh.ru/vacancy/1";
                   vacancy_of 2 "Dev" 1 (Some 500) None
                     (Some "HLF") "https://hh.ru/vacancy/2"] |}.

(** One vacancy whose two bounds are INT values but whose sum is not. *)
Definition large_bounds : database :=
  {| employers := [acme];
     currencies := [];
     vacancies := [vacancy_of 1 "Director" 1 (Some 2000000000) (Some 2000000000)
                     None "https://hh.ru/vacancy/1"] |}.

(** One vacancy paid in a currency whose stored rate is 0. *)
Definition zero_rate : database :=
  {| employers := [acme];
     currencies := [{| c_code := "ZER"; c_name := "zero"; c_rate := 0 |}];
     vacancies := [vacancy_of 1 "Dev" 1 (Some 100) None
                     (Some "ZER") "https://hh.ru/vacancy/1"] |}.

(** The employer and the currency of [zero_rate], before the vacancy. *)
Definition acme_zero : database :=
  {| employers := [acme];
     currencies := [{| c_code := "ZER"; c_name := "zero"; c_rate := 0 |}];
     vacancies := [] |}.

(** A payload for employer 1, without a currency. *)
Definition backend : vacancy_payload :=
  {| p_name := "Backend"; p_employer_id := 1;
     p_salary_from := Some 1000; p_salary_to := Some 2000;
     p_salary_currency := None; p_description := Some "Services";
     p_alternate_url := "https://hh.ru/vacancy/7";
     p_published_at := "2024-01-01" |}.

(** A payload whose lower bound is 2^31, one more than an INT holds. *)
Definition oversized : vacancy_payload :=
  {| p_name := "Frontend"; p_employer_id := 1;
     p_salary_from := Some 2147483648; p_salary_to := None;
     p_salary_currency := None; p_description := None;
     p_alternate_url := "https://hh.ru/vacancy/8";
     p_published_at := "2024-01-02" |}.

(** A payload with the url of vacancy 1 of [two_salaries]. *)
Definition same_url : vacancy_payload :=
  {| p_name := "Tester"; p_employer_id := 1;
     p_salary_from := None; p_salary_to := None;
     p_salary_currency := None; p_description := None;
     p_alternate_url := "https://hh.ru/vacancy/1";
     p_published_at := "2024-01-03" |}.


(** The calls that build the sample states from the empty schema. *)
Definition payload_of (name : string) (employer_id : Z)
  (salary_from salary_to : option Z) (salary_currency : option string)
  (alternate_url : string) : vacancy_payload :=
  {| p_name := name; p_employer_id := employer_id;
     p_salary_from := salary_from; p_salary_to := salary_to;
     p_salary_currency := salary_currency; p_description := None;
     p_alternate_url := alternate_url; p_published_at := "2024-01-01" |}.

Definition two_salaries_calls : list call :=
  [AddEmployer 1 "Acme" "https://hh.ru/employer/1";
   AddCurrency "USD" "dollar" (Some 1%Q);
   AddCurrency "HLF" "half" (Some (1 # 2)%Q);
   AddVacancy 1 (payload_of "Senior Backend Engineer" 1 (Some 1000) (Some 2000)
                   (Some "USD") "https://hh.ru/vacancy/1");
   AddVacancy 2 (payload_of "Dev" 1 (Some 500) None
                   (Some "HLF") "https://hh.ru/vacancy/2")].

Definition zero_rate_calls : list call :=
  [AddEmployer 1 "Acme" "https://hh.ru/employer/1";
   AddCurrency "ZER" "zero" (Some 0%Q);
   AddVacancy 1 (payload_of "Dev" 1 (Some 100) None
                   (Some "ZER") "https://hh.ru/vacancy/1")].

Definition same_names_calls : list call :=
  [AddEmployer 1 "Acme" "https://hh.ru/employer/1";
   AddEmployer 2 "Acme" "https://hh.ru/employer/2";
   AddVacancy 1 (payload_of "Backend" 1 None None None "https://hh.ru/vacancy/1");
   AddVacancy 2 (payload_of "Frontend" 1 None None None "https://hh.ru/vacancy/2");
   AddVacancy 3 (payload_of "Tester" 2 None None None "https://hh.ru/vacancy/3")].

(** Two employers with one name: the first has two vacancies, the second
    has one. *)
Definition same_names : database :=
  {| employers := [acme;
                   {| e_id := 2; e_name := "Acme";
                      e_alternate_url := "https://hh.ru/employer/2" |}];
     currencies := [];
     vacancies := [vacancy_of 1 "Backend" 1 None None None "https://hh.ru/vacancy/1";
                   vacancy_of 2 "Frontend" 1 None None None "https://hh.ru/vacancy/2";
                   vacancy_of 3 "Tester" 2 None None None "https://hh.ru/vacancy/3"] |}.

(** A vacancy of the source whose lower bound is 0. *)
Definition from_zero : Main.raw_vacancy :=
  {| Main.rv_id := 5; Main.rv_name := "Intern"; Main.rv_employer_id := 1;
     Main.rv_salary := Some {| Main.rs_from := Some 0;
                               Main.rs_to := Some 40000;
                               Main.rs_currency := None |};
     Main.rv_responsibility := None;
     Main.rv_alternate_url := "https://hh.ru/vacancy/5";
     Main.rv_published_at := "2024-02-01" |}.

End Sample.

(** ** Definitions for the further properties *)

(** Every table of [d'] is the table of [d], row for row, followed by new
    rows. *)
Definition extends (d d' : database) : Prop :=
  (exists es, employers d' = employers d ++ es)
  /\ (exists cs, currencies d' = currencies d ++ cs)
  /\ (exists vs, vacancies d' = vacancies d ++ vs).

(** A LIKE pattern that is empty or ends in [%], escaped or not. *)
Fixpoint closed_pattern (p : string) : bool :=
  match p with
  | EmptyString => true
  | String c p' =>
      match p' with
      | EmptyString => Ascii.eqb c percent
      | String _ _ => closed_pattern p'
      end
  end.

Definition Zsum (l : list Z) : Z := fold_right Z.add 0 l.

(** The number of vacancies of all the employers that have the name
    [n]. *)
Definition vacancies_under_name (d : database) (n : string) : Z :=
  Zsum (map (Spec.vacancy_count d)
          (filter (fun e => String.eqb n (e_name e)) (employers d))).

(** ** The rest of [main.py]: the schema commands, [load_data], the menu
    and [main] *)

Module App.

Local Open Scope string_scope.

(** *** The schema commands *)

(** The tables of the database: [None] when they do not exist.  The
    program creates and drops the three tables together, each time in one
    transaction; a database that has only some of them is not modelled. *)
Definition catalog : Type := option database.

(** How a step of the program can fail: an error of a statement of
    [DBManager], a table that does not exist or exists already, the end
    of the input. *)
Inductive failure : Type :=
| DbError (e : pg_error)
| UndefinedTable
| DuplicateTable
| EOFError.

Inductive outcome (A : Type) : Type :=
| Done (a : A)
| Failed (f : failure).

Arguments Done {A} a.
Arguments Failed {A} f.

(** The connection of the program: the tables and the statements of
    [DBManager] sent so far. *)
Record session : Type := {
  s_tables : catalog;
  s_sent : list statement
}.

Definition Session (A : Type) : Type := session -> outcome A * session.

(** [DROP TABLE IF EXISTS vacancies CASCADE; DROP TABLE IF EXISTS employers
    CASCADE; DROP TABLE IF EXISTS currencies CASCADE], committed. *)
Definition drop_tables : Session unit :=
  fun s => (Done tt, {| s_tables := None; s_sent := s_sent s |}).

(** The three [CREATE TABLE] in one transaction: the first one raises when
    the tables exist, and nothing is committed. *)
Definition initialize_db : Session unit :=
  fun s =>
    match s_tables s with
    | None => (Done tt, {| s_tables := Some empty_db; s_sent := s_sent s |})
    | Some _ => (Failed DuplicateTable, s)
    end.

(** A method of [DBManager] called by the program: it needs the tables. *)
Definition with_db {A : Type} (m : DB A) : Session A :=
  fun s =>
    match s_tables s with
    | None => (Failed UndefinedTable, s)
    | Some d =>
        let (r, c) := m {| conn_db := d; conn_sent := s_sent s |} in
        (match r with
         | Ok a => Done a
         | Raise e => Failed (DbError e)
         end,
         {| s_tables := Some (conn_db c); s_sent := conn_sent c |})
    end.

(** *** [load_data] *)

(** An employer and a currency of the source, with [int(employer_data["id"])]
    already taken; a rate is [None] when the source has null. *)
Record raw_employer : Type := {
  re_id : Z;
  re_name : string;
  re_alternate_url : string
}.

Record raw_currency : Type := {
  rc_code : string;
  rc_name : string;
  rc_rate : option Q
}.

(** What [HHAPIClient] answers: the employer of an id, the list under
    [items] of the vacancies of an employer id, and the currencies.  The
    requests themselves, and their failures, are not modelled. *)
Record hh_client : Type := {
  get_employer : string -> raw_employer;
  get_vacancies : string -> list Main.raw_vacancy;
  get_currencies : list raw_currency
}.

Section Program.

Variable timestamp_in : string -> option Z.

(** [EMPLOYER_IDS], from the environment. *)
Variable EMPLOYER_IDS : list string.

Variable hh : hh_client.

(** [for employer_id in EMPLOYER_IDS: ... db.add_employer(...)]. *)
Fixpoint load_employers (ids : list string) : DB unit :=
  match ids with
  | [] => db_ret tt
  | employer_id :: rest =>
      let employer_data := get_employer hh employer_id in
      db_bind (DBManager.add_employer (re_id employer_data)
                 (re_name employer_data) (re_alternate_url employer_data))
        (fun _ => load_employers rest)
  end.

(** [for currency in currencies: db.add_currency(...)]. *)
Fixpoint load_currencies (currencies : list raw_currency) : DB unit :=
  match currencies with
  | [] => db_ret tt
  | currency :: rest =>
      db_bind (DBManager.add_currency (rc_code currency) (rc_name currency)
                 (rc_rate currency))
        (fun _ => load_currencies rest)
  end.

(** The inner loop over the vacancies of one employer; it returns the set
    [processed_vacancy_ids]. *)
Fixpoint load_items (items : list Main.raw_vacancy) (processed : list Z)
  : DB (list Z) :=
  match items with
  | [] => db_ret processed
  | vacancy :: rest =>
      if existsb (Z.eqb (Main.rv_id vacancy)) processed
      then load_items rest processed
      else db_bind (Main.add_raw_vacancy timestamp_in vacancy)
             (fun _ => load_items rest (Main.rv_id vacancy :: processed))
  end.

(** The outer loop [for employer_id in EMPLOYER_IDS]. *)
Fixpoint load_vacancies (ids : list string) (processed : list Z)
  : DB (list Z) :=
  match ids with
  | [] => db_ret processed
  | employer_id :: rest =>
      db_bind (load_items (get_vacancies hh employer_id) processed)
        (fun processed' => load_vacancies rest processed')
  end.

Definition load_data : DB unit :=
  db_bind (load_employers EMPLOYER_IDS)
    (fun _ =>
       db_bind (load_currencies (get_currencies hh))
         (fun _ =>
            db_bind (load_vacancies EMPLOYER_IDS [])
              (fun _ => db_ret tt))).

(** *** [interactive_menu] *)

(** [f"{n}"] for an integer, and for what a bound can be. *)
Definition str_int (n : Z) : string := NilZero.string_of_int (Z.to_int n).

Definition str_bound (x : option Z) : string :=
  match x with
  | Some n => str_int n
  | None => "None"
  end.

Definition str_text (x : option string) : string :=
  match x with
  | Some t => t
  | None => "None"
  end.

(** The salary cell of a row of a table of vacancies. *)
Definition salary_text (salary_from salary_to : option Z)
  (currency : option string) : string :=
  if Main.truthy_int salary_from || Main.truthy_int salary_to then
    let salary :=
      if Main.truthy_int salary_from then "от " ++ str_bound salary_from
      else "" in
    let salary :=
      if Main.truthy_int salary_to then salary ++ " до " ++ str_bound salary_to
      else salary in
    if Main.truthy_str currency then salary ++ " " ++ str_text currency
    else salary
  else "Не указана".

(** [table.append([company, vacancy, salary, url])], for the rows of
    [get_all_vacancies] and [get_vacancies_with_keyword], and for those of
    [get_vacancies_with_higher_salary], whose bounds are integers. *)
Definition vacancy_line (r : DBManager.vacancy_row) : list string :=
  let '(company, vacancy, salary_from, salary_to, currency, url) := r in
  [company; vacancy; salary_text salary_from salary_to currency; url].

Definition salary_line (r : DBManager.salary_row) : list string :=
  let '(company, vacancy, salary_from, salary_to, currency, url) := r in
  [company; vacancy; salary_text (Some salary_from) (Some salary_to) currency;
   url].

(** Python's [str.isspace] and [str.strip], on a text given by the bytes
    of its UTF-8 encoding.  [isspace] is true of U+0009 to U+000D, U+001C
    to U+0020, U+0085, U+00A0, U+1680, U+2000 to U+200A, U+2028, U+2029,
    U+202F, U+205F and U+3000: [is_space] is for those of one byte,
    [is_space2] and [is_space3] for those of two and three. *)
Definition byte_is (c : ascii) (n : N) : bool := (N_of_ascii c =? n)%N.

Definition is_space (c : ascii) : bool :=
  let n := N_of_ascii c in
  (((9 <=? n) && (n <=? 13)) || ((28 <=? n) && (n <=? 32)))%N.

Definition is_space2 (c1 c2 : ascii) : bool :=
  byte_is c1 194 && (byte_is c2 133 || byte_is c2 160).

Definition is_space3 (c1 c2 c3 : ascii) : bool :=
  (byte_is c1 225 && byte_is c2 154 && byte_is c3 128)
  || (byte_is c1 226 && byte_is c2 128
      && (((128 <=? N_of_ascii c3) && (N_of_ascii c3 <=? 138))%N
          || byte_is c3 168 || byte_is c3 169 || byte_is c3 175))
  || (byte_is c1 226 && byte_is c2 129 && byte_is c3 159)
  || (byte_is c1 227 && byte_is c2 128 && byte_is c3 128).

Fixpoint lstrip (s : string) : string :=
  match s with
  | EmptyString => EmptyString
  | String c1 s1 =>
      if is_space c1 then lstrip s1
      else
        match s1 with
        | EmptyString => s
        | String c2 s2 =>
            if is_space2 c1 c2 then lstrip s2
            else
              match s2 with
              | EmptyString => s
              | String c3 s3 => if is_space3 c1 c2 c3 then lstrip s3 else s
              end
        end
  end.

(** A text of whitespace only. *)
Definition all_space (s : string) : bool :=
  match lstrip s with
  | EmptyString => true
  | String _ _ => false
  end.

Fixpoint rstrip (s : string) : string :=
  match s with
  | EmptyString => EmptyString
  | String c s' => if all_space s then EmptyString else String c (rstrip s')
  end.

Definition strip (s : string) : string := rstrip (lstrip s).

(** What the menu prints in answer to a choice; the tables are what is
    handed to [tabulate], and the number of [AverageSalary] is what is
    formatted with two decimals. *)
Inductive listing : Type := AllVacancies | AboveAverage | Found.

Inductive screen : Type :=
| CompaniesTable (rows : list (string * Z))
| NoCompanies
| VacanciesTable (which : listing) (table : list (list string))
| NoVacancies
| AverageSalary (avg : Q)
| NoAverage
| NoneAboveAverage
| NotFound (keyword : string)
| Reloading
| Reloaded
| Goodbye
| InvalidChoice.

(** The bodies of the choices 1 to 5. *)
Definition show_companies : DB screen :=
  db_bind DBManager.get_companies_and_vacancies_count
    (fun companies =>
       db_ret match companies with
              | [] => NoCompanies
              | _ => CompaniesTable companies
              end).

Definition show_vacancies : DB screen :=
  db_bind DBManager.get_all_vacancies
    (fun vacancies =>
       db_ret match vacancies with
              | [] => NoVacancies
              | _ => VacanciesTable AllVacancies (map vacancy_line vacancies)
              end).

(** [if avg_salary:] is false for [None] and for a number equal to 0. *)
Definition show_average : DB screen :=
  db_bind DBManager.get_avg_salary
    (fun avg_salary =>
       db_ret match avg_salary with
              | Some a => if Qeq_bool a 0 then NoAverage else AverageSalary a
              | None => NoAverage
              end).

Definition show_higher : DB screen :=
  db_bind DBManager.get_vacancies_with_higher_salary
    (fun vacancies =>
       db_ret match vacancies with
              | [] => NoneAboveAverage
              | _ => VacanciesTable AboveAverage (map salary_line vacancies)
              end).

(** [keyword = input(...).strip()], then the search. *)
Definition show_found (line : string) : DB screen :=
  let keyword := strip line in
  db_bind (DBManager.get_vacancies_with_keyword keyword)
    (fun vacancies =>
       db_ret match vacancies with
              | [] => NotFound keyword
              | _ => VacanciesTable Found (map vacancy_line vacancies)
              end).

(** Choice 6: [drop_tables(db); initialize_db(db); load_data(db,
    hh_client)]. *)
Definition reload : Session unit :=
  fun s =>
    match drop_tables s with
    | (Failed f, s1) => (Failed f, s1)
    | (Done _, s1) =>
        match initialize_db s1 with
        | (Failed f, s2) => (Failed f, s2)
        | (Done _, s2) => with_db load_data s2
        end
    end.

(** The screens printed, how the menu ended ([None]: by choice 7) and the
    connection it leaves. *)
Definition run : Type := list screen * option failure * session.

Definition after (printed : list screen) (r : run) : run :=
  let '(screens, ended, s) := r in ((printed ++ screens)%list, ended, s).

(** One choice that shows something, and then the rest of the menu. *)
Definition shown (m : DB screen) (s : session) (rest : session -> run) : run :=
  match with_db m s with
  | (Done sc, s1) => after [sc] (rest s1)
  | (Failed f, s1) => ([], Some f, s1)
  end.

(** [interactive_menu] on the lines that [input] reads; [input] raises
    at the end of the input. *)
Fixpoint interactive_menu (inputs : list string) (s : session) : run :=
  match inputs with
  | [] => ([], Some EOFError, s)
  | line :: rest =>
      let choice := strip line in
      if String.eqb choice "1" then
        shown show_companies s (interactive_menu rest)
      else if String.eqb choice "2" then
        shown show_vacancies s (interactive_menu rest)
      else if String.eqb choice "3" then
        shown show_average s (interactive_menu rest)
      else if String.eqb choice "4" then
        shown show_higher s (interactive_menu rest)
      else if String.eqb choice "5" then
        match rest with
        | [] => ([], Some EOFError, s)
        | keyword_line :: rest' =>
            shown (show_found keyword_line) s (interactive_menu rest')
        end
      else if String.eqb choice "6" then
        match reload s with
        | (Done _, s1) =>
            after [Reloading; Reloaded] (interactive_menu rest s1)
        | (Failed f, s1) => ([Reloading], Some f, s1)
        end
      else if String.eqb choice "7" then ([Goodbye], None, s)
      else after [InvalidChoice] (interactive_menu rest s)
  end.

(** [main]: the schema is dropped and created, the data loaded, the menu
    run. *)
Definition main (inputs : list string) (s : session) : run :=
  match reload s with
  | (Done _, s1) => interactive_menu inputs s1
  | (Failed f, s1) => ([], Some f, s1)
  end.

End Program.

End App.

(** ** Definitions for the properties of [main.py] *)

(** The vacancies for which the loops of [load_data] call [add_vacancy]:
    those whose id is not in [processed] and did not occur earlier. *)
Fixpoint first_occurrences (items : list Main.raw_vacancy) (processed : list Z)
  : list Main.raw_vacancy :=
  match items with
  | [] => []
  | v :: rest =>
      if existsb (Z.eqb (Main.rv_id v)) processed
      then first_occurrences rest processed
      else v :: first_occurrences rest (Main.rv_id v :: processed)
  end.

(** The set [processed_vacancy_ids] after the loops. *)
Fixpoint processed_after (items : list Main.raw_vacancy) (processed : list Z)
  : list Z :=
  match items with
  | [] => processed
  | v :: rest =>
      if existsb (Z.eqb (Main.rv_id v)) processed
      then processed_after rest processed
      else processed_after rest (Main.rv_id v :: processed)
  end.

(** The payload that [load_data] passes for a vacancy of the source. *)
Definition payload_of_raw (v : Main.raw_vacancy) : vacancy_payload :=
  {| p_name := Main.rv_name v; p_employer_id := Main.rv_employer_id v;
     p_salary_from := Main.salary_from_arg v;
     p_salary_to := Main.salary_to_arg v;
     p_salary_currency := Main.salary_currency_arg v;
     p_description := Main.rv_responsibility v;
     p_alternate_url := Main.rv_alternate_url v;
     p_published_at := Main.rv_published_at v |}.

Definition employer_calls (hh : App.hh_client) (ids : list string) : list call :=
  map (fun id => AddEmployer (App.re_id (App.get_employer hh id))
                   (App.re_name (App.get_employer hh id))
                   (App.re_alternate_url (App.get_employer hh id))) ids.

Definition currency_calls (hh : App.hh_client) : list call :=
  map (fun c => AddCurrency (App.rc_code c) (App.rc_name c) (App.rc_rate c))
    (App.get_currencies hh).

Definition vacancy_calls (items : list Main.raw_vacancy) (processed : list Z)
  : list call :=
  map (fun v => AddVacancy (Main.rv_id v) (payload_of_raw v))
    (first_occurrences items processed).

(** All the vacancies that the source answers, employer after employer. *)
Definition fetched_vacancies (hh : App.hh_client) (ids : list string)
  : list Main.raw_vacancy :=
  flat_map (App.get_vacancies hh) ids.

(** The calls of [load_data], in their order. *)
Definition load_calls (hh : App.hh_client) (ids : list string) : list call :=
  employer_calls hh ids ++ currency_calls hh
  ++ vacancy_calls (fetched_vacancies hh ids) [].

(** A vacancy of the source that fits the schema and whose employer and
    currency are among those that the source answers. *)
Definition vacancy_loadable (ts : string -> option Z) (hh : App.hh_client)
  (ids : list string) (v : Main.raw_vacancy) : bool :=
  fits_columns ts (Main.rv_id v) (payload_of_raw v)
  && existsb (fun id => App.re_id (App.get_employer hh id) =? Main.rv_employer_id v)
       ids
  && match Main.salary_currency_arg v with
     | Some code =>
         existsb (fun c => String.eqb (App.rc_code c) code) (App.get_currencies hh)
     | None => true
     end.

(** A source that [load_data] can load: employer ids that fit BIGINT,
    currencies with a rate, and vacancies that are loadable and whose urls
    differ from one id to another. *)
Definition source_ok (ts : string -> option Z) (hh : App.hh_client)
  (ids : list string) : bool :=
  forallb (fun id => in_int8 (App.re_id (App.get_employer hh id))) ids
  && forallb (fun c => match App.rc_rate c with Some _ => true | None => false end)
       (App.get_currencies hh)
  && forallb (vacancy_loadable ts hh ids)
       (first_occurrences (fetched_vacancies hh ids) [])
  && distinct String.eqb
       (map Main.rv_alternate_url (first_occurrences (fetched_vacancies hh ids) [])).

(** The row [w] is what a call of [add_vacancy] for the vacancy [v] of the
    source stores. *)
Definition stored_as (ts : string -> option Z) (v : Main.raw_vacancy)
  (w : vacancy) : Prop :=
  exists t, ts (Main.rv_published_at v) = Some t
            /\ w = stored_vacancy (Main.rv_id v) (payload_of_raw v) t.

(** Neither bound is 0. *)
Definition no_zero_bound (sf st : option Z) : Prop :=
  sf <> Some 0 /\ st <> Some 0.

(** A line of whitespace only. *)
Definition blank (line : string) : bool := App.all_space line.

(** A source that answers one employer, one currency and one vacancy
    twice. *)
Definition sample_client : App.hh_client :=
  {| App.get_employer := fun _ =>
       {| App.re_id := 1; App.re_name := "Acme";
          App.re_alternate_url := "https://hh.ru/employer/1" |};
     App.get_vacancies := fun _ => [Sample.from_zero; Sample.from_zero];
     App.get_currencies :=
       [{| App.rc_code := "USD"; App.rc_name := "dollar";
           App.rc_rate := Some 1%Q |}] |}.

(** * Proofs *)

(** ** The result monad *)

Lemma map_result_ok {A B : Type} (f : A -> result B) (g : A -> B) (l : list A) :
  (forall a, In a l -> f a = Ok (g a)) ->
  map_result f l = Ok (map g l).
Proof.
  induction l as [|a l IH]; intros H; simpl; [reflexivity|].
  rewrite (H a (or_introl eq_refl)); simpl.
  rewrite IH by (intros b Hb; apply H; right; exact Hb).
  reflexivity.
Qed.

Lemma map_result_raise {A B : Type} (f : A -> result B) (l : list A) (a : A) :
  In a l -> (exists e, f a = Raise e) -> exists e, map_result f l = Raise e.
Proof.
  induction l as [|b l IH]; intros Hin Hbad; [contradiction|].
  simpl. destruct Hin as [->|Hin].
  - destruct Hbad as [e ->]. exists e. reflexivity.
  - destruct (f b) as [x|e]; simpl; [|eauto].
    destruct (IH Hin Hbad) as [e ->]. exists e. reflexivity.
Qed.

Lemma filter_result_ok {A : Type} (f : A -> result bool) (g : A -> bool)
  (l : list A) :
  (forall a, In a l -> f a = Ok (g a)) ->
  filter_result f l = Ok (filter g l).
Proof.
  induction l as [|a l IH]; intros H; simpl; [reflexivity|].
  rewrite (H a (or_introl eq_refl)); simpl.
  rewrite IH by (intros b Hb; apply H; right; exact Hb).
  simpl. destruct (g a); reflexivity.
Qed.

(** ** Keys and joins *)

Section UniqueKeys.

Context {A K : Type} (eqb : K -> K -> bool).
Hypothesis eqb_eq : forall x y, eqb x y = true <-> x = y.
Variable key : A -> K.

Lemma existsb_key_false (l : list A) (k : K) :
  existsb (eqb k) (map key l) = false ->
  forall x, In x l -> key x <> k.
Proof.
  intros H x Hx Hk.
  assert (E : existsb (eqb k) (map key l) = true).
  { apply existsb_exists. exists (key x). split.
    - apply in_map. exact Hx.
    - apply eqb_eq. symmetry. exact Hk. }
  congruence.
Qed.

(** Under a unique key, the rows that have a given key are the one that
    [find] returns. *)
Lemma filter_unique_key (p : A -> bool) (k : K) (l : list A) :
  (forall x, p x = true <-> key x = k) ->
  distinct eqb (map key l) = true ->
  filter p l = match find p l with Some x => [x] | None => [] end.
Proof.
  intros Hp. induction l as [|a l IH]; simpl; intros Hd; [reflexivity|].
  apply andb_prop in Hd. destruct Hd as [Hn Hd].
  destruct (p a) eqn:Ea.
  - f_equal. apply Hp in Ea. subst k.
    apply negb_true_iff in Hn.
    assert (Hnone : forall x, In x l -> p x = false).
    { intros x Hx. destruct (p x) eqn:Ex; [|reflexivity].
      apply Hp in Ex. exfalso.
      exact (existsb_key_false l (key a) Hn x Hx Ex). }
    clear - Hnone. induction l as [|b l IH]; simpl; [reflexivity|].
    rewrite (Hnone b (or_introl eq_refl)).
    apply IH. intros x Hx. apply Hnone. right. exact Hx.
  - apply IH. exact Hd.
Qed.

Lemma distinct_snoc (l : list K) (k : K) :
  distinct eqb (l ++ [k]) = distinct eqb l && negb (existsb (fun x => eqb x k) l).
Proof.
  induction l as [|a l IH]; simpl; [reflexivity|].
  rewrite IH, existsb_app. simpl. rewrite orb_false_r.
  destruct (eqb a k) eqn:E; simpl.
  - rewrite orb_true_r. simpl. rewrite andb_false_r. reflexivity.
  - rewrite orb_false_r.
    destruct (existsb (eqb a) l); simpl; [reflexivity|].
    reflexivity.
Qed.

End UniqueKeys.

Lemma string_eqb_iff (x y : string) : String.eqb x y = true <-> x = y.
Proof. apply String.eqb_eq. Qed.

Lemma inner_join_functional {A B : Type} (on : A -> B -> bool) (g : A -> option B)
  (l : list A) (r : list B) :
  (forall a, In a l ->
     filter (on a) r = match g a with Some b => [b] | None => [] end) ->
  inner_join on l r =
  flat_map (fun a => match g a with Some b => [(a, b)] | None => [] end) l.
Proof.
  unfold inner_join. induction l as [|a l IH]; intros H; simpl; [reflexivity|].
  rewrite (H a (or_introl eq_refl)).
  rewrite IH by (intros b Hb; apply H; right; exact Hb).
  destruct (g a); reflexivity.
Qed.

Lemma left_join_functional {A B : Type} (on : A -> B -> bool) (g : A -> option B)
  (l : list A) (r : list B) :
  (forall a, In a l ->
     filter (on a) r = match g a with Some b => [b] | None => [] end) ->
  left_join on l r = map (fun a => (a, g a)) l.
Proof.
  induction l as [|a l IH]; intros H; [reflexivity|].
  change (left_join on (a :: l) r)
    with (match filter (on a) r with
          | [] => [(a, None)]
          | bs => map (fun b => (a, Some b)) bs
          end ++ left_join on l r).
  rewrite (H a (or_introl eq_refl)).
  rewrite IH by (intros b Hb; apply H; right; exact Hb).
  destruct (g a) eqn:E; simpl; rewrite E; reflexivity.
Qed.

(** ** ORDER BY *)

Section OrderBy.

Context {A K : Type} (le : K -> K -> bool) (key : A -> K).

Lemma insert_by_perm (a : A) (l : list A) :
  Permutation (insert_by le key a l) (a :: l).
Proof.
  induction l as [|b l IH]; simpl; [apply Permutation_refl|].
  destruct (le (key a) (key b)); [apply Permutation_refl|].
  eapply perm_trans; [apply perm_skip; exact IH|apply perm_swap].
Qed.

Lemma order_by_perm (l : list A) : Permutation (order_by le key l) l.
Proof.
  induction l as [|a l IH]; simpl; [constructor|].
  eapply perm_trans; [apply insert_by_perm|].
  apply perm_skip. exact IH.
Qed.

Variable R : A -> A -> Prop.
Hypothesis R_le : forall a b, le (key a) (key b) = true -> R a b.
Hypothesis R_total : forall a b, le (key a) (key b) = false -> R b a.
Hypothesis R_trans : forall a b c, R a b -> R b c -> R a c.

Lemma insert_by_sorted (a : A) (l : list A) :
  StronglySorted R l -> StronglySorted R (insert_by le key a l).
Proof.
  induction l as [|b l IH]; intros Hs; simpl.
  - constructor; constructor.
  - inversion Hs as [|b' l' Hs' Hall]; subst.
    destruct (le (key a) (key b)) eqn:E.
    + constructor; [exact Hs|].
      constructor; [apply R_le; exact E|].
      eapply Forall_impl; [|exact Hall].
      intros c Hc. eapply R_trans; [apply R_le; exact E|exact Hc].
    + constructor; [apply IH; exact Hs'|].
      eapply Permutation_Forall.
      * apply Permutation_sym. apply insert_by_perm.
      * constructor; [apply R_total; exact E|exact Hall].
Qed.

Lemma order_by_sorted (l : list A) : StronglySorted R (order_by le key l).
Proof.
  induction l as [|a l IH]; simpl; [constructor|].
  apply insert_by_sorted. exact IH.
Qed.

End OrderBy.

(** ** The constraints of the schema *)

Lemma valid_db_parts (d : database) :
  valid_db d = true ->
  distinct Z.eqb (map e_id (employers d)) = true
  /\ distinct String.eqb (map c_code (currencies d)) = true
  /\ distinct Z.eqb (map v_id (vacancies d)) = true
  /\ distinct String.eqb (map v_alternate_url (vacancies d)) = true
  /\ forallb (vacancy_ok d) (vacancies d) = true.
Proof.
  unfold valid_db. intros H.
  repeat (apply andb_prop in H; destruct H as [H ?]).
  repeat split; assumption.
Qed.

Lemma existsb_find {A : Type} (p : A -> bool) (l : list A) :
  existsb p l = true -> exists x, find p l = Some x.
Proof.
  induction l as [|a l IH]; simpl; [discriminate|].
  destruct (p a); [eauto|exact IH].
Qed.

Lemma find_ext {A : Type} (p q : A -> bool) (l : list A) :
  (forall x, p x = q x) -> find p l = find q l.
Proof.
  intros H. induction l as [|a l IH]; simpl; [reflexivity|].
  rewrite H, IH. reflexivity.
Qed.

Lemma existsb_ext_eq {A : Type} (p q : A -> bool) (l : list A) :
  (forall x, p x = q x) -> existsb p l = existsb q l.
Proof.
  intros H. induction l as [|a l IH]; simpl; [reflexivity|].
  rewrite H, IH. reflexivity.
Qed.

Lemma filter_none {A : Type} (l : list A) : filter (fun _ => false) l = [].
Proof. induction l; simpl; auto. Qed.

Lemma employer_row_some (d : database) (v : vacancy) :
  valid_db d = true -> In v (vacancies d) ->
  exists e, employer_row d v = Some e.
Proof.
  intros Hv Hin. apply valid_db_parts in Hv.
  destruct Hv as (_ & _ & _ & _ & Hok).
  rewrite forallb_forall in Hok. specialize (Hok v Hin).
  unfold vacancy_ok in Hok.
  repeat (apply andb_prop in Hok; destruct Hok as [Hok ?]).
  unfold employer_row. apply existsb_find.
  unfold has_employer in *.
  erewrite existsb_ext_eq; [eassumption|].
  intros e. apply Z.eqb_sym.
Qed.

Lemma employer_row_spec (d : database) (v : vacancy) (e : employer) :
  employer_row d v = Some e -> Spec.employer_of d v e.
Proof.
  unfold employer_row. intros H. apply find_some in H.
  destruct H as [Hin He]. split; [exact Hin|].
  apply Z.eqb_eq in He. symmetry. exact He.
Qed.

(** With the primary key of [employers], the JOIN pairs a vacancy with the
    one employer that has its [employer_id]. *)
Lemma vacancies_with_employers_rows (d : database) :
  valid_db d = true ->
  DBManager.vacancies_with_employers d =
  flat_map (fun v => match employer_row d v with
                     | Some e => [(v, e)]
                     | None => []
                     end) (vacancies d).
Proof.
  intros Hv. unfold DBManager.vacancies_with_employers.
  apply inner_join_functional. intros v _.
  unfold employer_row.
  apply (filter_unique_key Z.eqb Z.eqb_eq e_id _ (v_employer_id v)).
  - intros e. rewrite Z.eqb_eq. split; congruence.
  - apply valid_db_parts in Hv. tauto.
Qed.

Lemma joined_employers (d : database) :
  valid_db d = true ->
  map fst (DBManager.vacancies_with_employers d) = vacancies d
  /\ Forall (fun r => Spec.employer_of d (fst r) (snd r))
       (DBManager.vacancies_with_employers d).
Proof.
  intros Hv. rewrite (vacancies_with_employers_rows d Hv).
  assert (H : forall v, In v (vacancies d) -> exists e, employer_row d v = Some e)
    by (intros v Hin; apply employer_row_some; assumption).
  induction (vacancies d) as [|v l IH]; simpl; [split; constructor|].
  destruct (H v (or_introl eq_refl)) as [e He]. rewrite He. simpl.
  destruct IH as [IH1 IH2]; [intros w Hw; apply H; right; exact Hw|].
  split; [f_equal; exact IH1|].
  constructor; [simpl; apply employer_row_spec; exact He|exact IH2].
Qed.

Lemma currency_filter (d : database) (v : vacancy) :
  valid_db d = true ->
  filter (fun c => eq_nullable_string (v_salary_currency v) (c_code c))
    (currencies d) =
  match currency_row d v with Some c => [c] | None => [] end.
Proof.
  intros Hv. unfold currency_row, eq_nullable_string.
  destruct (v_salary_currency v) as [code|]; [|apply filter_none].
  apply (filter_unique_key String.eqb string_eqb_iff c_code _ code).
  - intros c. rewrite String.eqb_eq. split; congruence.
  - apply valid_db_parts in Hv. tauto.
Qed.

(** With the primary key of [currencies], the LEFT JOIN gives one row per
    vacancy. *)
Lemma vacancies_with_currencies_rows (d : database) :
  valid_db d = true ->
  DBManager.vacancies_with_currencies d =
  map (fun v => (v, currency_row d v)) (vacancies d).
Proof.
  intros Hv. unfold DBManager.vacancies_with_currencies.
  apply left_join_functional. intros v _. apply currency_filter. exact Hv.
Qed.

Lemma rate_or_1_currency_row (d : database) (v : vacancy) :
  DBManager.rate_or_1 (currency_row d v) = Spec.rate_of d v.
Proof.
  unfold DBManager.rate_or_1, currency_row, Spec.rate_of, find_currency.
  destruct (v_salary_currency v) as [code|]; [|reflexivity].
  rewrite (find_ext (fun c => String.eqb code (c_code c))
             (fun c => String.eqb (c_code c) code))
    by (intros c; apply String.eqb_sym).
  destruct (find _ _); reflexivity.
Qed.

(** ** The three inserts *)

Lemma existsb_map {A B : Type} (p : B -> bool) (f : A -> B) (l : list A) :
  existsb p (map f l) = existsb (fun x => p (f x)) l.
Proof. induction l as [|a l IH]; simpl; [|rewrite IH]; reflexivity. Qed.

Lemma find_snoc_new {A : Type} (p : A -> bool) (l : list A) (a : A) :
  existsb p l = false -> p a = true -> find p (l ++ [a]) = Some a.
Proof.
  induction l as [|b l IH]; simpl; intros Hl Ha.
  - rewrite Ha. reflexivity.
  - apply orb_false_iff in Hl. destruct Hl as [Hb Hl].
    rewrite Hb. apply IH; assumption.
Qed.

(** What the INSERT into [vacancies] does once the values fit their
    columns. *)
Lemma insert_vacancy_fits (ts : string -> option Z) (id : Z)
  (p : vacancy_payload) (d : database) :
  fits_columns ts id p = true ->
  exists t, ts (p_published_at p) = Some t
  /\ DBManager.insert_vacancy ts id (p_name p) (p_employer_id p)
       (p_salary_from p) (p_salary_to p) (p_salary_currency p)
       (p_description p) (p_alternate_url p) (p_published_at p) d =
     if has_vacancy d id then Ok d
     else if has_vacancy_url d (p_alternate_url p) then Raise UniqueViolation
     else if negb (has_employer d (p_employer_id p)) then Raise ForeignKeyViolation
     else if match p_salary_currency p with
             | Some code => negb (has_currency d code)
             | None => false
             end then Raise ForeignKeyViolation
     else Ok {| employers := employers d;
                currencies := currencies d;
                vacancies := vacancies d ++ [stored_vacancy id p t] |}.
Proof.
  unfold fits_columns, DBManager.insert_vacancy, DBManager.to_timestamp,
    to_int8, to_int4_opt, to_int4, fits_int4, stored_vacancy.
  intros H.
  apply andb_prop in H. destruct H as [H Hts].
  apply andb_prop in H. destruct H as [H Hto].
  apply andb_prop in H. destruct H as [H Hfrom].
  apply andb_prop in H. destruct H as [Hid Heid].
  destruct (ts (p_published_at p)) as [t|]; [|discriminate].
  exists t. split; [reflexivity|].
  rewrite Hid, Heid. simpl.
  destruct (p_salary_from p) as [f|], (p_salary_to p) as [u|]; simpl;
    rewrite ?Hfrom; simpl; rewrite ?Hto; reflexivity.
Qed.

(** And when they do not: it raises, whatever is stored. *)
Lemma insert_vacancy_misfit (ts : string -> option Z) (id : Z)
  (p : vacancy_payload) (d : database) :
  fits_columns ts id p = false ->
  exists e,
    DBManager.insert_vacancy ts id (p_name p) (p_employer_id p)
      (p_salary_from p) (p_salary_to p) (p_salary_currency p)
      (p_description p) (p_alternate_url p) (p_published_at p) d = Raise e.
Proof.
  unfold fits_columns, DBManager.insert_vacancy, DBManager.to_timestamp,
    to_int8, to_int4_opt, to_int4, fits_int4.
  intros H.
  destruct (ts (p_published_at p)); simpl; [|eexists; reflexivity].
  destruct (in_int8 id); simpl; [|eexists; reflexivity].
  destruct (in_int8 (p_employer_id p)); simpl; [|eexists; reflexivity].
  destruct (p_salary_from p) as [f|]; simpl in *;
    [destruct (in_int4 f); simpl in *; [|eexists; reflexivity]|];
    (destruct (p_salary_to p) as [u|]; simpl in *;
     [destruct (in_int4 u); simpl in *; [|eexists; reflexivity]|]);
    discriminate.
Qed.

Lemma add_vacancy_payload_run (ts : string -> option Z) (id : Z)
  (p : vacancy_payload) (c : connection) :
  add_vacancy_payload ts id p c =
  match DBManager.insert_vacancy ts id (p_name p) (p_employer_id p)
          (p_salary_from p) (p_salary_to p) (p_salary_currency p)
          (p_description p) (p_alternate_url p) (p_published_at p) (conn_db c)
  with
  | Ok d' => (Ok tt, {| conn_db := d'; conn_sent := conn_sent c ++ [InsertVacancy] |})
  | Raise e => (Raise e, sent c InsertVacancy)
  end.
Proof. reflexivity. Qed.

(** A call of [add_vacancy] that raises leaves the stored data as it
    was. *)
Lemma add_vacancy_payload_raise (ts : string -> option Z) (id : Z)
  (p : vacancy_payload) (c : connection) (e : pg_error) :
  fst (add_vacancy_payload ts id p c) = Raise e ->
  add_vacancy_payload ts id p c = (Raise e, sent c InsertVacancy).
Proof.
  rewrite add_vacancy_payload_run.
  destruct (DBManager.insert_vacancy _ _ _ _ _ _ _ _ _ _ _); simpl;
    intros H; [discriminate|congruence].
Qed.

Lemma existsb_snoc_self {A : Type} (p : A -> bool) (l : list A) (a : A) :
  p a = true -> existsb p (l ++ [a]) = true.
Proof.
  intros H. rewrite existsb_app. simpl. rewrite H.
  rewrite orb_true_r. reflexivity.
Qed.

Lemma add_employer_twice (c c1 : connection) (id : Z)
  (nameA urlA nameB urlB : string) :
  has_employer (conn_db c) id = false ->
  DBManager.add_employer id nameA urlA c = (Ok tt, c1) ->
  find_employer (conn_db c1) id =
    Some {| e_id := id; e_name := nameA; e_alternate_url := urlA |}
  /\ DBManager.add_employer id nameB urlB c1 = (Ok tt, sent c1 InsertEmployer).
Proof.
  unfold DBManager.add_employer, execute_insert, DBManager.insert_employer,
    to_int8, sent.
  intros Hnew. destruct (in_int8 id) eqn:Hid; simpl; [|discriminate].
  rewrite Hnew. intros H. injection H as <-. simpl. split.
  - unfold find_employer. simpl. apply find_snoc_new.
    + exact Hnew.
    + simpl. apply Z.eqb_refl.
  - unfold has_employer. simpl.
    rewrite existsb_snoc_self by (simpl; apply Z.eqb_refl).
    reflexivity.
Qed.

Lemma add_currency_twice (c c1 : connection) (code nameA nameB : string)
  (rateA rateB : option Q) :
  has_currency (conn_db c) code = false ->
  DBManager.add_currency code nameA rateA c = (Ok tt, c1) ->
  (exists r, rateA = Some r
     /\ find_currency (conn_db c1) code =
        Some {| c_code := code; c_name := nameA; c_rate := r |})
  /\ DBManager.add_currency code nameB rateB c1 =
     (match rateB with
      | Some _ => Ok tt
      | None => Raise NotNullViolation
      end, sent c1 InsertCurrency).
Proof.
  unfold DBManager.add_currency, execute_insert, DBManager.insert_currency, sent.
  intros Hnew. destruct rateA as [r|]; [|discriminate].
  rewrite Hnew. intros H. injection H as <-. simpl. split.
  - exists r. split; [reflexivity|].
    unfold find_currency. simpl. apply find_snoc_new.
    + exact Hnew.
    + simpl. apply String.eqb_refl.
  - destruct rateB as [q|]; [|reflexivity].
    unfold has_currency. simpl.
    rewrite existsb_snoc_self by (simpl; apply String.eqb_refl).
    reflexivity.
Qed.

(** A call of [add_vacancy] that returns on a new id stored its payload,
    and the payload passed every check of the schema. *)
Lemma add_vacancy_payload_new (ts : string -> option Z) (c c1 : connection)
  (id : Z) (p : vacancy_payload) :
  has_vacancy (conn_db c) id = false ->
  add_vacancy_payload ts id p c = (Ok tt, c1) ->
  exists t, ts (p_published_at p) = Some t
    /\ c1 = {| conn_db :=
                 {| employers := employers (conn_db c);
                    currencies := currencies (conn_db c);
                    vacancies := vacancies (conn_db c) ++ [stored_vacancy id p t] |};
               conn_sent := conn_sent c ++ [InsertVacancy] |}
    /\ fits_columns ts id p = true
    /\ has_vacancy_url (conn_db c) (p_alternate_url p) = false
    /\ has_employer (conn_db c) (p_employer_id p) = true
    /\ unresolved_currency (conn_db c) (stored_vacancy id p t) =
       match p_salary_currency p with Some _ => false | None => true end.
Proof.
  intros Hnew. rewrite add_vacancy_payload_run.
  destruct (fits_columns ts id p) eqn:Hfit.
  - destruct (insert_vacancy_fits ts id p (conn_db c) Hfit) as (t & Ht & ->).
    rewrite Hnew.
    destruct (has_vacancy_url _ _); [discriminate|].
    destruct (has_employer _ _); [|discriminate]. simpl.
    unfold unresolved_currency. simpl.
    destruct (p_salary_currency p) as [code|].
    + destruct (has_currency (conn_db c) code); simpl; [|discriminate].
      intros H. injection H as <-. exists t. repeat split; assumption.
    + intros H. injection H as <-. exists t. repeat split; assumption.
  - destruct (insert_vacancy_misfit ts id p (conn_db c) Hfit) as [e ->].
    discriminate.
Qed.

Lemma add_vacancy_twice (ts : string -> option Z) (c c1 : connection)
  (id : Z) (A B : vacancy_payload) :
  has_vacancy (conn_db c) id = false ->
  add_vacancy_payload ts id A c = (Ok tt, c1) ->
  (exists t, ts (p_published_at A) = Some t
     /\ find_vacancy (conn_db c1) id = Some (stored_vacancy id A t))
  /\ exists r, add_vacancy_payload ts id B c1 = (r, sent c1 InsertVacancy)
       /\ (fits_columns ts id B = true -> r = Ok tt)
       /\ (fits_columns ts id B = false -> exists e, r = Raise e).
Proof.
  intros Hnew HA.
  destruct (add_vacancy_payload_new ts c c1 id A Hnew HA) as (t & Ht & -> & _).
  set (d1 := {| employers := employers (conn_db c);
                currencies := currencies (conn_db c);
                vacancies := vacancies (conn_db c) ++ [stored_vacancy id A t] |}).
  assert (Hhas : has_vacancy d1 id = true).
  { unfold has_vacancy. simpl. apply existsb_snoc_self. simpl. apply Z.eqb_refl. }
  split.
  - exists t. split; [exact Ht|].
    unfold find_vacancy. simpl. apply find_snoc_new.
    + exact Hnew.
    + simpl. apply Z.eqb_refl.
  - rewrite add_vacancy_payload_run. simpl conn_db.
    destruct (fits_columns ts id B) eqn:Hfit.
    + destruct (insert_vacancy_fits ts id B d1 Hfit) as (u & _ & ->).
      rewrite Hhas. exists (Ok tt). repeat split; discriminate.
    + destruct (insert_vacancy_misfit ts id B d1 Hfit) as [e ->].
      exists (Raise e). repeat split; [discriminate|].
      intros _. exists e. reflexivity.
Qed.

(** ** The schema holds in every state the program reaches *)

Lemma valid_db_intro (d : database) :
  distinct Z.eqb (map e_id (employers d)) = true ->
  forallb (fun e => in_int8 (e_id e)) (employers d) = true ->
  distinct String.eqb (map c_code (currencies d)) = true ->
  distinct Z.eqb (map v_id (vacancies d)) = true ->
  distinct String.eqb (map v_alternate_url (vacancies d)) = true ->
  forallb (vacancy_ok d) (vacancies d) = true ->
  valid_db d = true.
Proof.
  intros H1 H2 H3 H4 H5 H6. unfold valid_db.
  rewrite H1, H2, H3, H4, H5, H6. reflexivity.
Qed.

Lemma valid_db_employers_in_range (d : database) :
  valid_db d = true -> forallb (fun e => in_int8 (e_id e)) (employers d) = true.
Proof.
  unfold valid_db. intros H.
  repeat (apply andb_prop in H; destruct H as [H ?]). assumption.
Qed.

Lemma vacancy_ok_mono (d d' : database) (v : vacancy) :
  (forall id, has_employer d id = true -> has_employer d' id = true) ->
  (forall code, has_currency d code = true -> has_currency d' code = true) ->
  vacancy_ok d v = true -> vacancy_ok d' v = true.
Proof.
  unfold vacancy_ok. intros He Hc H.
  apply andb_prop in H. destruct H as [H H6].
  apply andb_prop in H. destruct H as [H H5].
  apply andb_prop in H. destruct H as [H H4].
  apply andb_prop in H. destruct H as [H H3].
  rewrite H, H4, H5, (He _ H3). simpl.
  destruct (v_salary_currency v) as [code|]; [|reflexivity].
  apply Hc. exact H6.
Qed.

Lemma forallb_impl {A : Type} (p q : A -> bool) (l : list A) :
  (forall x, p x = true -> q x = true) ->
  forallb p l = true -> forallb q l = true.
Proof.
  intros H. rewrite !forallb_forall. intros Hp x Hx. apply H, Hp, Hx.
Qed.

Lemma insert_employer_valid (id : Z) (name url : string) (d d' : database) :
  valid_db d = true ->
  DBManager.insert_employer id name url d = Ok d' ->
  valid_db d' = true.
Proof.
  intros Hv. unfold DBManager.insert_employer, to_int8.
  destruct (in_int8 id) eqn:Hid; simpl; [|discriminate].
  destruct (has_employer d id) eqn:Hnew; intros H; injection H as <-;
    [exact Hv|].
  pose proof (valid_db_employers_in_range d Hv) as Hrange.
  apply valid_db_parts in Hv. destruct Hv as (H1 & H3 & H4 & H5 & H6).
  apply valid_db_intro; simpl; try assumption.
  - rewrite map_app. simpl.
    rewrite (distinct_snoc Z.eqb), H1, existsb_map.
    unfold has_employer in Hnew. rewrite Hnew. reflexivity.
  - rewrite forallb_app, Hrange. simpl. rewrite Hid. reflexivity.
  - eapply forallb_impl; [|exact H6].
    intros v. apply vacancy_ok_mono.
    + intros i Hi. unfold has_employer in *. simpl.
      rewrite existsb_app, Hi. reflexivity.
    + intros code Hc. exact Hc.
Qed.

Lemma insert_currency_valid (code name : string) (rate : option Q)
  (d d' : database) :
  valid_db d = true ->
  DBManager.insert_currency code name rate d = Ok d' ->
  valid_db d' = true.
Proof.
  intros Hv. unfold DBManager.insert_currency.
  destruct rate as [r|]; [|discriminate].
  destruct (has_currency d code) eqn:Hnew; intros H; injection H as <-;
    [exact Hv|].
  pose proof (valid_db_employers_in_range d Hv) as Hrange.
  apply valid_db_parts in Hv. destruct Hv as (H1 & H3 & H4 & H5 & H6).
  apply valid_db_intro; simpl; try assumption.
  - rewrite map_app. simpl.
    rewrite (distinct_snoc String.eqb), H3, existsb_map.
    unfold has_currency in Hnew. rewrite Hnew. reflexivity.
  - eapply forallb_impl; [|exact H6].
    intros v. apply vacancy_ok_mono.
    + intros i Hi. exact Hi.
    + intros k Hk. unfold has_currency in *. simpl.
      rewrite existsb_app, Hk. reflexivity.
Qed.

Lemma add_vacancy_payload_valid (ts : string -> option Z) (c c1 : connection)
  (id : Z) (p : vacancy_payload) :
  valid_db (conn_db c) = true ->
  add_vacancy_payload ts id p c = (Ok tt, c1) ->
  valid_db (conn_db c1) = true.
Proof.
  intros Hv Hadd. destruct (has_vacancy (conn_db c) id) eqn:Hnew.
  - rewrite add_vacancy_payload_run in Hadd.
    destruct (fits_columns ts id p) eqn:Hfit.
    + destruct (insert_vacancy_fits ts id p (conn_db c) Hfit) as (t & _ & E).
      rewrite E, Hnew in Hadd. injection Hadd as <-. exact Hv.
    + destruct (insert_vacancy_misfit ts id p (conn_db c) Hfit) as [e E].
      rewrite E in Hadd. discriminate.
  - destruct (add_vacancy_payload_new ts c c1 id p Hnew Hadd)
      as (t & _ & -> & Hfit & Hurl & Hemp & Hcur).
    pose proof (valid_db_employers_in_range _ Hv) as Hrange.
    apply valid_db_parts in Hv. destruct Hv as (H1 & H3 & H4 & H5 & H6).
    apply valid_db_intro; simpl; try assumption.
    + rewrite map_app. simpl.
      rewrite (distinct_snoc Z.eqb), H4, existsb_map.
      unfold has_vacancy in Hnew. rewrite Hnew. reflexivity.
    + rewrite map_app. simpl.
      rewrite (distinct_snoc String.eqb), H5, existsb_map.
      unfold has_vacancy_url in Hurl. rewrite Hurl. reflexivity.
    + rewrite forallb_app. apply andb_true_intro. split.
      * eapply forallb_impl; [|exact H6].
        intros v Hok. exact Hok.
      * simpl. rewrite andb_true_r.
        unfold fits_columns in Hfit.
        apply andb_prop in Hfit. destruct Hfit as [Hfit _].
        apply andb_prop in Hfit. destruct Hfit as [Hfit Hto].
        apply andb_prop in Hfit. destruct Hfit as [Hfit Hfrom].
        apply andb_prop in Hfit. destruct Hfit as [Hid Heid].
        unfold vacancy_ok, stored_vacancy. simpl.
        change (has_employer _ (p_employer_id p))
          with (has_employer (conn_db c) (p_employer_id p)).
        rewrite Hid, Heid, Hemp. simpl.
        unfold fits_int4 in *. rewrite Hfrom, Hto. simpl.
        unfold unresolved_currency in Hcur. simpl in Hcur.
        destruct (p_salary_currency p) as [code|]; [|reflexivity].
        apply negb_false_iff in Hcur. exact Hcur.
Qed.

(** X1: every state that calls of [add_employer], [add_currency] and
    [add_vacancy] reach from the empty schema satisfies the constraints of
    the schema: the primary keys and vacancy urls are unique, every vacancy
    has its employer, and its currency when it has a code, and the integers
    fit their columns. *)
Theorem reachable_valid (ts : string -> option Z) (d : database) :
  reachable ts d -> valid_db d = true.
Proof.
  induction 1 as [|d id name url c Hr IH Hadd|d code name rate c Hr IH Hadd
                  |d id name eid sf st cur descr url pub c Hr IH Hadd].
  - reflexivity.
  - unfold DBManager.add_employer, execute_insert in Hadd. simpl in Hadd.
    destruct (DBManager.insert_employer id name url d) as [d'|e] eqn:E;
      [|discriminate].
    injection Hadd as <-. simpl. eapply insert_employer_valid; eassumption.
  - unfold DBManager.add_currency, execute_insert in Hadd. simpl in Hadd.
    destruct (DBManager.insert_currency code name rate d) as [d'|e] eqn:E;
      [|discriminate].
    injection Hadd as <-. simpl. eapply insert_currency_valid; eassumption.
  - apply (add_vacancy_payload_valid ts (connect d) c id
             {| p_name := name; p_employer_id := eid; p_salary_from := sf;
                p_salary_to := st; p_salary_currency := cur;
                p_description := descr; p_alternate_url := url;
                p_published_at := pub |}); assumption.
Qed.

Lemma execute_insert_connect (s : statement)
  (ins : database -> result database) (c c' : connection) (r : result unit) :
  execute_insert s ins c = (r, c') ->
  execute_insert s ins (connect (conn_db c)) =
  (r, {| conn_db := conn_db c'; conn_sent := [s] |}).
Proof.
  unfold execute_insert, connect. simpl.
  destruct (ins (conn_db c)); intros H; injection H as <- <-; reflexivity.
Qed.

Lemma run_call_reachable (ts : string -> option Z) (k : call)
  (c c' : connection) :
  reachable ts (conn_db c) -> run_call ts k c = (Ok tt, c') ->
  reachable ts (conn_db c').
Proof.
  intros Hr Hk. destruct k as [id name url|code name rate|id p]; simpl in Hk.
  - apply execute_insert_connect in Hk.
    exact (reachable_employer ts _ id name url _ Hr Hk).
  - apply execute_insert_connect in Hk.
    exact (reachable_currency ts _ code name rate _ Hr Hk).
  - apply execute_insert_connect in Hk.
    exact (reachable_vacancy ts _ id (p_name p) (p_employer_id p)
             (p_salary_from p) (p_salary_to p) (p_salary_currency p)
             (p_description p) (p_alternate_url p) (p_published_at p) _ Hr Hk).
Qed.

(** A run of insert calls that returns leads from a reachable state to a
    reachable state. *)
Lemma run_calls_reachable (ts : string -> option Z) (ks : list call) :
  forall c c', reachable ts (conn_db c) -> run_calls ts ks c = (Ok tt, c') ->
               reachable ts (conn_db c').
Proof.
  induction ks as [|k ks IH]; intros c c' Hr Hrun; simpl in Hrun.
  - unfold db_ret in Hrun. injection Hrun as <-. exact Hr.
  - unfold db_bind in Hrun.
    destruct (run_call ts k c) as [[[]|e] c1] eqn:Hk; [|discriminate].
    apply (IH c1 c'); [|exact Hrun].
    exact (run_call_reachable ts k c c1 Hr Hk).
Qed.

Lemma reachable_only_acme : reachable Sample.timestamp_in Sample.only_acme.
Proof.
  refine (reachable_employer _ empty_db 1 "Acme" "https://hh.ru/employer/1"
            {| conn_db := Sample.only_acme; conn_sent := [InsertEmployer] |}
            (reachable_empty _) eq_refl).
Qed.

Lemma reachable_two_salaries : reachable Sample.timestamp_in Sample.two_salaries.
Proof.
  exact (run_calls_reachable Sample.timestamp_in Sample.two_salaries_calls
           (connect empty_db)
           (snd (run_calls Sample.timestamp_in Sample.two_salaries_calls
                   (connect empty_db)))
           (reachable_empty _) eq_refl).
Qed.

Lemma reachable_zero_rate : reachable Sample.timestamp_in Sample.zero_rate.
Proof.
  exact (run_calls_reachable Sample.timestamp_in Sample.zero_rate_calls
           (connect empty_db)
           (snd (run_calls Sample.timestamp_in Sample.zero_rate_calls
                   (connect empty_db)))
           (reachable_empty _) eq_refl).
Qed.

Lemma reachable_same_names : reachable Sample.timestamp_in Sample.same_names.
Proof.
  exact (run_calls_reachable Sample.timestamp_in Sample.same_names_calls
           (connect empty_db)
           (snd (run_calls Sample.timestamp_in Sample.same_names_calls
                   (connect empty_db)))
           (reachable_empty _) eq_refl).
Qed.

(** ** Inserting twice, and a url that is taken *)

(** C3, as amended: for each of [add_employer], [add_currency] and
    [add_vacancy], when a payload A is inserted under an identifier (or
    code) that no stored row has, and the call returns, the stored record is
    A, and a second call with any payload B under the same identifier leaves
    the stored data as it is, so the record stays A.  The second call is a
    silent no-op when the values of B fit the types of their columns (for
    a currency: a rate that is not null); when they do not, it raises, and
    still changes nothing. *)
Theorem insert_twice_keeps_first :
  (forall (c c1 : connection) (id : Z) (nameA urlA nameB urlB : string),
     has_employer (conn_db c) id = false ->
     DBManager.add_employer id nameA urlA c = (Ok tt, c1) ->
     find_employer (conn_db c1) id =
       Some {| e_id := id; e_name := nameA; e_alternate_url := urlA |}
     /\ DBManager.add_employer id nameB urlB c1 = (Ok tt, sent c1 InsertEmployer))
  /\ (forall (c c1 : connection) (code nameA nameB : string)
        (rateA rateB : option Q),
        has_currency (conn_db c) code = false ->
        DBManager.add_currency code nameA rateA c = (Ok tt, c1) ->
        (exists r, rateA = Some r
           /\ find_currency (conn_db c1) code =
              Some {| c_code := code; c_name := nameA; c_rate := r |})
        /\ DBManager.add_currency code nameB rateB c1 =
           (match rateB with
            | Some _ => Ok tt
            | None => Raise NotNullViolation
            end, sent c1 InsertCurrency))
  /\ (forall (ts : string -> option Z) (c c1 : connection) (id : Z)
        (A B : vacancy_payload),
        has_vacancy (conn_db c) id = false ->
        add_vacancy_payload ts id A c = (Ok tt, c1) ->
        (exists t, ts (p_published_at A) = Some t
           /\ find_vacancy (conn_db c1) id = Some (stored_vacancy id A t))
        /\ exists r, add_vacancy_payload ts id B c1 = (r, sent c1 InsertVacancy)
             /\ (fits_columns ts id B = true -> r = Ok tt)
             /\ (fits_columns ts id B = false -> exists e, r = Raise e)).
Proof.
  split; [|split].
  - intros. apply add_employer_twice with (c := c); assumption.
  - intros. apply add_currency_twice with (c := c); assumption.
  - intros. apply add_vacancy_twice with (c := c); assumption.
Qed.

Lemma insert_twice_keeps_first_witness :
  (has_employer (conn_db (connect empty_db)) 1 = false
   /\ DBManager.add_employer 1 "Other" "https://hh.ru/employer/2"
        (snd (DBManager.add_employer 1 "Acme" "https://hh.ru/employer/1"
                (connect empty_db))) =
      (Ok tt,
       sent (snd (DBManager.add_employer 1 "Acme" "https://hh.ru/employer/1"
                    (connect empty_db))) InsertEmployer))
  /\ (has_currency (conn_db (connect empty_db)) "USD" = false
      /\ DBManager.add_currency "USD" "other" (Some (2 # 1)%Q)
           (snd (DBManager.add_currency "USD" "dollar" (Some 1%Q)
                   (connect empty_db))) =
         (Ok tt,
          sent (snd (DBManager.add_currency "USD" "dollar" (Some 1%Q)
                       (connect empty_db))) InsertCurrency))
  /\ (has_vacancy (conn_db (connect Sample.only_acme)) 7 = false
      /\ fits_columns Sample.timestamp_in 7 Sample.same_url = true
      /\ add_vacancy_payload Sample.timestamp_in 7 Sample.same_url
           (snd (add_vacancy_payload Sample.timestamp_in 7 Sample.backend
                   (connect Sample.only_acme))) =
         (Ok tt,
          sent (snd (add_vacancy_payload Sample.timestamp_in 7 Sample.backend
                       (connect Sample.only_acme))) InsertVacancy)).
Proof.
  split; [|split].
  - split; [reflexivity|].
    apply (proj1 insert_twice_keeps_first (connect empty_db) _ 1
             "Acme" "https://hh.ru/employer/1" "Other" "https://hh.ru/employer/2"
             eq_refl eq_refl)%string.
  - split; [reflexivity|].
    apply (proj1 (proj2 insert_twice_keeps_first) (connect empty_db) _ "USD"
             "dollar" "other" (Some 1%Q) (Some (2 # 1)%Q) eq_refl eq_refl)%string.
  - split; [reflexivity|]. split; [reflexivity|].
    destruct (proj2 (proj2 insert_twice_keeps_first) Sample.timestamp_in
                (connect Sample.only_acme) _ 7 Sample.backend Sample.same_url
                eq_refl eq_refl) as [_ (r & Hrun & Hfit & _)].
    rewrite (Hfit eq_refl) in Hrun. exact Hrun.
Defined.

(** C3 fails as stated: after vacancy 7 is inserted, a second call with
    the same id and a lower bound of 2^31 is not a silent no-op, it raises
    (the stored record is still the first one). *)
Lemma second_insert_raises :
  reachable Sample.timestamp_in Sample.only_acme
  /\ has_vacancy Sample.only_acme 7 = false
  /\ fst (add_vacancy_payload Sample.timestamp_in 7 Sample.backend
            (connect Sample.only_acme)) = Ok tt
  /\ add_vacancy_payload Sample.timestamp_in 7 Sample.oversized
       (snd (add_vacancy_payload Sample.timestamp_in 7 Sample.backend
               (connect Sample.only_acme))) =
     (Raise NumericValueOutOfRange,
      sent (snd (add_vacancy_payload Sample.timestamp_in 7 Sample.backend
                   (connect Sample.only_acme))) InsertVacancy).
Proof. split; [exact reachable_only_acme|]. repeat split; reflexivity. Qed.

(** C4, as amended: on every state that has a vacancy with url u, a call
    of [add_vacancy] with url u and an id that no stored vacancy has
    raises, the error reaches the caller, and the stored data is unchanged;
    the error is the violation of the UNIQUE constraint whenever the values
    of the call fit the types of their columns. *)
Theorem add_vacancy_duplicate_url (ts : string -> option Z) (c : connection)
  (id : Z) (p : vacancy_payload) :
  has_vacancy_url (conn_db c) (p_alternate_url p) = true ->
  has_vacancy (conn_db c) id = false ->
  exists e, add_vacancy_payload ts id p c = (Raise e, sent c InsertVacancy)
    /\ (fits_columns ts id p = true -> e = UniqueViolation).
Proof.
  intros Hurl Hnew. rewrite add_vacancy_payload_run.
  destruct (fits_columns ts id p) eqn:Hfit.
  - destruct (insert_vacancy_fits ts id p (conn_db c) Hfit) as (t & _ & ->).
    rewrite Hnew, Hurl. exists UniqueViolation. split; reflexivity.
  - destruct (insert_vacancy_misfit ts id p (conn_db c) Hfit) as [e ->].
    exists e. split; [reflexivity|discriminate].
Qed.

Lemma add_vacancy_duplicate_url_witness :
  has_vacancy_url (conn_db (connect Sample.two_salaries))
    (p_alternate_url Sample.same_url) = true
  /\ has_vacancy (conn_db (connect Sample.two_salaries)) 3 = false
  /\ exists e,
       add_vacancy_payload Sample.timestamp_in 3 Sample.same_url
         (connect Sample.two_salaries) =
       (Raise e, sent (connect Sample.two_salaries) InsertVacancy).
Proof.
  split; [reflexivity|]. split; [reflexivity|].
  destruct (add_vacancy_duplicate_url Sample.timestamp_in
              (connect Sample.two_salaries) 3 Sample.same_url eq_refl eq_refl)
    as (e & He & _).
  exists e. exact He.
Defined.

(** C4 fails as stated: vacancy 1 has the url, the call uses the different
    id 2, which another vacancy has, and it returns without an error and
    without a change. *)
Lemma add_vacancy_duplicate_url_other_id :
  reachable Sample.timestamp_in Sample.two_salaries
  /\ find_vacancy Sample.two_salaries 1 =
    Some (Sample.vacancy_of 1 "Senior Backend Engineer" 1 (Some 1000)
            (Some 2000) (Some "USD"%string) "https://hh.ru/vacancy/1")
  /\ p_alternate_url Sample.same_url = "https://hh.ru/vacancy/1"%string
  /\ add_vacancy_payload Sample.timestamp_in 2 Sample.same_url
       (connect Sample.two_salaries) =
     (Ok tt, sent (connect Sample.two_salaries) InsertVacancy).
Proof. split; [exact reachable_two_salaries|]. repeat split; reflexivity. Qed.

(** ** The rate of a currency *)

(** C9, as amended: the schema enforces only that a stored rate is not
    null.  [add_currency] with a null rate raises and stores nothing; with
    any number as rate, zero and negative numbers included, and a code
    that is not stored, it returns and the row is stored with that
    rate. *)
Theorem add_currency_rate :
  (forall (c : connection) (code name : string),
     DBManager.add_currency code name None c =
     (Raise NotNullViolation, sent c InsertCurrency))
  /\ (forall (c : connection) (code name : string) (r : Q),
        has_currency (conn_db c) code = false ->
        exists c1, DBManager.add_currency code name (Some r) c = (Ok tt, c1)
          /\ find_currency (conn_db c1) code =
             Some {| c_code := code; c_name := name; c_rate := r |}).
Proof.
  split.
  - intros c code name. reflexivity.
  - intros c code name r Hnew.
    unfold DBManager.add_currency, execute_insert, DBManager.insert_currency.
    rewrite Hnew. eexists. split; [reflexivity|].
    unfold find_currency. simpl. apply find_snoc_new.
    + exact Hnew.
    + simpl. apply String.eqb_refl.
Qed.

Lemma add_currency_rate_witness :
  has_currency (conn_db (connect Sample.only_acme)) "NEG" = false
  /\ exists c1,
       DBManager.add_currency "NEG" "negative" (Some (- (3 # 2))%Q)
         (connect Sample.only_acme) = (Ok tt, c1)
       /\ find_currency (conn_db c1) "NEG" =
          Some {| c_code := "NEG"; c_name := "negative"; c_rate := - (3 # 2) |}.
Proof.
  split; [reflexivity|].
  apply (proj2 add_currency_rate (connect Sample.only_acme) "NEG" "negative"
           (- (3 # 2))%Q eq_refl)%string.
Defined.

(** C9 fails as stated: [add_currency] with rate 0 returns, and the state
    it leaves, which the program can reach, has a currency whose rate is
    not greater than 0. *)
Lemma add_currency_zero_rate_accepted :
  DBManager.add_currency "ZER" "zero" (Some 0%Q) (connect Sample.only_acme) =
    (Ok tt, {| conn_db := Sample.acme_zero; conn_sent := [InsertCurrency] |})
  /\ reachable Sample.timestamp_in Sample.acme_zero
  /\ exists c, In c (currencies Sample.acme_zero) /\ ~ (0 < c_rate c)%Q.
Proof.
  split; [reflexivity|]. split.
  - refine (reachable_currency _ Sample.only_acme "ZER" "zero" (Some 0%Q)
              {| conn_db := Sample.acme_zero; conn_sent := [InsertCurrency] |}
              reachable_only_acme eq_refl).
  - eexists. split; [left; reflexivity|]. simpl. apply Qlt_irrefl.
Qed.

(** ** [get_avg_salary] *)

Lemma has_salary_normalized (d : database) (v : vacancy) :
  DBManager.has_salary v = false -> Spec.normalized d v = None.
Proof.
  unfold DBManager.has_salary, Spec.normalized, Spec.representative.
  destruct (v_salary_from v), (v_salary_to v); intros H;
    try discriminate; reflexivity.
Qed.

Lemma non_nulls_filter {A B : Type} (f : A -> option B) (p : A -> bool)
  (l : list A) :
  (forall x, p x = false -> f x = None) ->
  non_nulls (map f (filter p l)) = non_nulls (map f l).
Proof.
  intros H. induction l as [|a l IH]; simpl; [reflexivity|].
  destruct (p a) eqn:E; simpl.
  - rewrite IH. reflexivity.
  - rewrite (H a E). exact IH.
Qed.

Lemma filter_map_fst {A B : Type} (p : A -> bool) (g : A -> B) (l : list A) :
  filter (fun r => p (fst r)) (map (fun a => (a, g a)) l) =
  map (fun a => (a, g a)) (filter p l).
Proof.
  induction l as [|a l IH]; simpl; [reflexivity|].
  rewrite IH. destruct (p a); reflexivity.
Qed.

Lemma numeric_div_ok (a b : Q) :
  Qeq_bool b 0 = false -> numeric_div a b = Ok (a / b)%Q.
Proof. unfold numeric_div. intros ->. reflexivity. Qed.

(** On a vacancy whose salary expression can be computed, the argument of
    AVG is the normalized salary of the specification (in the model, where
    a quotient is not rounded). *)
Lemma avg_argument_ok (d : database) (v : vacancy) :
  salary_computable d v = true ->
  DBManager.avg_argument (v, currency_row d v) = Ok (Spec.normalized d v).
Proof.
  unfold salary_computable, DBManager.avg_argument, DBManager.salary_case,
    Spec.normalized, Spec.representative, int4_add, to_int4.
  simpl fst; simpl snd. rewrite rate_or_1_currency_row.
  destruct (v_salary_from v) as [f|], (v_salary_to v) as [t|]; intros H;
    try reflexivity.
  - apply andb_prop in H. destruct H as [Hr Hz]. rewrite Hr.
    apply negb_true_iff in Hz. simpl.
    rewrite (numeric_div_ok _ _ Hz). reflexivity.
  - apply negb_true_iff in H. simpl.
    rewrite (numeric_div_ok _ _ H). reflexivity.
  - apply negb_true_iff in H. simpl.
    rewrite (numeric_div_ok _ _ H). reflexivity.
Qed.

(** On any other vacancy it raises. *)
Lemma avg_argument_raise (d : database) (v : vacancy) :
  salary_computable d v = false ->
  exists e, DBManager.avg_argument (v, currency_row d v) = Raise e.
Proof.
  unfold salary_computable, DBManager.avg_argument, DBManager.salary_case,
    int4_add, to_int4, numeric_div.
  simpl fst; simpl snd. rewrite rate_or_1_currency_row.
  destruct (v_salary_from v) as [f|], (v_salary_to v) as [t|]; intros H;
    try discriminate.
  - destruct (in_int4 (f + t)); simpl in *; [|eexists; reflexivity].
    apply negb_false_iff in H. rewrite H. simpl. eexists; reflexivity.
  - apply negb_false_iff in H. simpl. rewrite H. eexists; reflexivity.
  - apply negb_false_iff in H. simpl. rewrite H. eexists; reflexivity.
Qed.

Lemma not_computable_has_salary (d : database) (v : vacancy) :
  salary_computable d v = false -> DBManager.has_salary v = true.
Proof.
  unfold salary_computable, DBManager.has_salary.
  destruct (v_salary_from v), (v_salary_to v); intros H;
    try discriminate; reflexivity.
Qed.

Lemma select_avg_salary_ok (d : database) :
  valid_db d = true ->
  forallb (salary_computable d) (vacancies d) = true ->
  DBManager.select_avg_salary d = Ok [Spec.average_salary d].
Proof.
  intros Hv Hc. unfold DBManager.select_avg_salary.
  rewrite (vacancies_with_currencies_rows d Hv), filter_map_fst.
  rewrite (map_result_ok _ (fun r => Spec.normalized d (fst r))).
  - simpl. unfold sql_avg, Spec.average_salary. rewrite map_map. simpl.
    rewrite (non_nulls_filter (Spec.normalized d) DBManager.has_salary)
      by apply has_salary_normalized.
    reflexivity.
  - intros r Hr. apply in_map_iff in Hr. destruct Hr as (v & <- & Hin).
    apply filter_In in Hin. destruct Hin as [Hin _].
    rewrite forallb_forall in Hc. apply avg_argument_ok. apply Hc. exact Hin.
Qed.

Lemma select_avg_salary_raise (d : database) :
  valid_db d = true ->
  forallb (salary_computable d) (vacancies d) = false ->
  exists e, DBManager.select_avg_salary d = Raise e.
Proof.
  intros Hv Hc. unfold DBManager.select_avg_salary.
  rewrite (vacancies_with_currencies_rows d Hv), filter_map_fst.
  assert (Hbad : exists v, In v (vacancies d) /\ salary_computable d v = false).
  { clear Hv. induction (vacancies d) as [|v l IH]; simpl in Hc; [discriminate|].
    destruct (salary_computable d v) eqn:E.
    - destruct (IH Hc) as (w & Hw & Ew). exists w. split; [right|]; assumption.
    - exists v. split; [left; reflexivity|exact E]. }
  destruct Hbad as (v & Hin & Ev).
  destruct (map_result_raise DBManager.avg_argument
              (map (fun v => (v, currency_row d v))
                 (filter DBManager.has_salary (vacancies d)))
              (v, currency_row d v)) as [e He].
  - apply (in_map (fun w => (w, currency_row d w))).
    apply filter_In. split; [exact Hin|].
    eapply not_computable_has_salary. exact Ev.
  - apply avg_argument_raise. exact Ev.
  - rewrite He. exists e. reflexivity.
Qed.

Lemma get_avg_salary_run (d : database) :
  DBManager.get_avg_salary (connect d) =
  (match DBManager.select_avg_salary d with
   | Ok rows => Ok match hd_error rows with
                   | Some result => result
                   | None => None
                   end
   | Raise e => Raise e
   end,
   {| conn_db := d; conn_sent := [SelectAvgSalary] |}).
Proof.
  unfold DBManager.get_avg_salary, db_bind, execute_query, db_ret, connect.
  simpl. destruct (DBManager.select_avg_salary d); reflexivity.
Qed.

Lemma reachable_large_bounds : reachable Sample.timestamp_in Sample.large_bounds.
Proof.
  refine (reachable_vacancy _ Sample.only_acme 1 "Director" 1
            (Some 2000000000) (Some 2000000000) None None
            "https://hh.ru/vacancy/1" "2024-01-01"
            {| conn_db := Sample.large_bounds; conn_sent := [InsertVacancy] |}
            reachable_only_acme eq_refl).
Qed.

(** C1 fails on the code: on the reachable state with one vacancy whose
    bounds are both 2000000000, the mean of the specification is
    2000000000, the average of the two bounds; [get_avg_salary] adds the
    bounds as INT values and raises instead of returning it. *)
Theorem get_avg_salary_large_bounds :
  reachable Sample.timestamp_in Sample.large_bounds
  /\ valid_db Sample.large_bounds = true
  /\ (exists a, Spec.average_salary Sample.large_bounds = Some a
                /\ (a == 2000000000)%Q)
  /\ fst (DBManager.get_avg_salary (connect Sample.large_bounds)) =
     Raise NumericValueOutOfRange.
Proof.
  split; [exact reachable_large_bounds|].
  split; [reflexivity|split; [|reflexivity]].
  eexists. split; [vm_compute; reflexivity|reflexivity].
Qed.

(** The same on a state where the currency of a vacancy has rate 0. *)
Lemma get_avg_salary_zero_rate :
  reachable Sample.timestamp_in Sample.zero_rate
  /\ fst (DBManager.get_avg_salary (connect Sample.zero_rate)) =
     Raise DivisionByZero.
Proof. split; [exact reachable_zero_rate|reflexivity]. Qed.

(** ** The listings: [get_all_vacancies] *)

Lemma before_of_le (x y : vacancy) :
  desc_nulls_last (v_salary_from x) (v_salary_from y) = true -> Spec.before x y.
Proof.
  unfold desc_nulls_last, Spec.before.
  destruct (v_salary_from x), (v_salary_from y); intros H;
    try discriminate; try exact I.
  apply Z.leb_le. exact H.
Qed.

Lemma before_total (x y : vacancy) :
  desc_nulls_last (v_salary_from x) (v_salary_from y) = false -> Spec.before y x.
Proof.
  unfold desc_nulls_last, Spec.before.
  destruct (v_salary_from x), (v_salary_from y); intros H;
    try discriminate; try exact I.
  apply Z.leb_gt in H. lia.
Qed.

Lemma before_trans (x y z : vacancy) :
  Spec.before x y -> Spec.before y z -> Spec.before x z.
Proof.
  unfold Spec.before.
  destruct (v_salary_from x), (v_salary_from y), (v_salary_from z);
    intros H1 H2; try contradiction; try exact I.
  lia.
Qed.

(** [ORDER BY v.salary_from DESC NULLS LAST] on rows that carry a
    vacancy. *)
Lemma order_by_salary_sorted {A : Type} (pv : A -> vacancy) (l : list A) :
  StronglySorted (fun r s => Spec.before (pv r) (pv s))
    (order_by desc_nulls_last (fun r => v_salary_from (pv r)) l).
Proof.
  apply order_by_sorted.
  - intros a b. apply before_of_le.
  - intros a b. apply before_total.
  - intros a b c. apply before_trans.
Qed.

Lemma StronglySorted_map {A B : Type} (R : B -> B -> Prop) (f : A -> B)
  (l : list A) :
  StronglySorted (fun a b => R (f a) (f b)) l -> StronglySorted R (map f l).
Proof.
  induction 1 as [|a l Hs IH Hall]; simpl; constructor; [exact IH|].
  apply Forall_map. exact Hall.
Qed.

Lemma StronglySorted_nth {A : Type} (R : A -> A -> Prop) (l : list A) :
  StronglySorted R l ->
  forall i j a b, (i < j)%nat ->
    nth_error l i = Some a -> nth_error l j = Some b -> R a b.
Proof.
  induction 1 as [|x l Hs IH Hall]; intros i j a b Hij Ha Hb.
  - destruct i; discriminate.
  - destruct j as [|j]; [lia|]. simpl in Hb.
    destruct i as [|i]; simpl in Ha.
    + injection Ha as <-. rewrite Forall_forall in Hall.
      apply Hall. eapply nth_error_In. exact Hb.
    + apply (IH i j); [lia|assumption|assumption].
Qed.

Lemma to_vacancy_row_listed (r : vacancy * employer) :
  DBManager.to_vacancy_row r = Spec.listed (fst r) (snd r).
Proof. destruct r. reflexivity. Qed.

(** What the three listings share: the rows kept by the WHERE clause, in
    the order of ORDER BY, shown through the projection. *)
Lemma listing_of_rows (d : database) (keep : vacancy -> bool) :
  valid_db d = true ->
  let ves := order_by desc_nulls_last (fun r => v_salary_from (fst r))
               (filter (fun r => keep (fst r))
                  (DBManager.vacancies_with_employers d)) in
  Permutation (map fst ves) (filter keep (vacancies d))
  /\ Forall (fun r => Spec.employer_of d (fst r) (snd r)) ves
  /\ StronglySorted (fun r s => Spec.before (fst r) (fst s)) ves.
Proof.
  intros Hv ves. destruct (joined_employers d Hv) as [Hfst Hall].
  assert (Hp : Permutation ves
                 (filter (fun r => keep (fst r))
                    (DBManager.vacancies_with_employers d)))
    by apply order_by_perm.
  repeat split.
  - rewrite <- Hfst. rewrite filter_map_swap.
    apply Permutation_map. exact Hp.
  - eapply Permutation_Forall; [apply Permutation_sym; exact Hp|].
    rewrite Forall_forall in *. intros r Hr. apply Hall.
    apply filter_In in Hr. tauto.
  - apply order_by_salary_sorted.
Qed.

Lemma filter_all {A : Type} (l : list A) : filter (fun _ => true) l = l.
Proof. induction l as [|a l IH]; simpl; [|rewrite IH]; reflexivity. Qed.

(** C8: on every state that satisfies the schema, [get_all_vacancies]
    returns every vacancy, each once, joined with the name of its employer,
    ordered by lower salary bound descending, and no row with a null lower
    bound stands before a row with a non-null one. *)
Theorem get_all_vacancies_lists_all (d : database) :
  valid_db d = true ->
  exists ves : list (vacancy * employer),
    fst (DBManager.get_all_vacancies (connect d)) =
      Ok (map (fun r => Spec.listed (fst r) (snd r)) ves)
    /\ Permutation (map fst ves) (vacancies d)
    /\ Forall (fun r => Spec.employer_of d (fst r) (snd r)) ves
    /\ StronglySorted rows_in_order
         (map (fun r => Spec.listed (fst r) (snd r)) ves)
    /\ forall i j r s, (i < j)%nat ->
         nth_error (map (fun r => Spec.listed (fst r) (snd r)) ves) i = Some r ->
         nth_error (map (fun r => Spec.listed (fst r) (snd r)) ves) j = Some s ->
         row_from r = None -> row_from s = None.
Proof.
  intros Hv.
  destruct (listing_of_rows d (fun _ => true) Hv) as (Hp & Hall & Hs).
  rewrite !filter_all in *.
  set (ves := order_by desc_nulls_last (fun r => v_salary_from (fst r))
                (DBManager.vacancies_with_employers d)) in *.
  assert (Hrows : StronglySorted rows_in_order
                    (map (fun r => Spec.listed (fst r) (snd r)) ves)).
  { apply StronglySorted_map. exact Hs. }
  exists ves. repeat split; try assumption.
  - unfold DBManager.get_all_vacancies, execute_query,
      DBManager.select_all_vacancies. simpl. f_equal.
    apply map_ext. apply to_vacancy_row_listed.
  - intros i j r s Hij Hr Hs' Hnone.
    pose proof (StronglySorted_nth _ _ Hrows i j r s Hij Hr Hs') as Hb.
    unfold rows_in_order in Hb. rewrite Hnone in Hb.
    destruct (row_from s); [contradiction|reflexivity].
Qed.

Lemma get_all_vacancies_lists_all_witness :
  valid_db Sample.two_salaries = true
  /\ exists ves : list (vacancy * employer),
       fst (DBManager.get_all_vacancies (connect Sample.two_salaries)) =
         Ok (map (fun r => Spec.listed (fst r) (snd r)) ves)
       /\ Permutation (map fst ves) (vacancies Sample.two_salaries).
Proof.
  split; [reflexivity|].
  destruct (get_all_vacancies_lists_all Sample.two_salaries eq_refl)
    as (ves & H1 & H2 & _).
  exists ves. split; assumption.
Defined.

(** ** LIKE and [get_vacancies_with_keyword] *)

Lemma like_match_percent (p t : string) :
  like_match (String percent p) t =
  (b <- like_match p t ;;
   if b then Ok true
   else match t with
        | EmptyString => Ok false
        | String _ t' => like_match (String percent p) t'
        end)%result.
Proof. destruct t; reflexivity. Qed.

Lemma like_match_literal (c : ascii) (p t : string) :
  Ascii.eqb c percent = false -> Ascii.eqb c underscore = false ->
  Ascii.eqb c backslash = false ->
  like_match (String c p) t =
  match t with
  | EmptyString => Ok false
  | String x t' => if Ascii.eqb c x then like_match p t' else Ok false
  end.
Proof.
  intros H1 H2 H3. cbn [like_match]. rewrite H1, H2.
  destruct t as [|x t']; [reflexivity|]. rewrite H3. reflexivity.
Qed.

Lemma like_match_any (t : string) :
  like_match (String percent EmptyString) t = Ok true.
Proof.
  induction t as [|x t IH]; [reflexivity|].
  rewrite like_match_percent.
  change (like_match EmptyString (String x t)) with (@Ok bool false).
  exact IH.
Qed.

(** A keyword without LIKE's special characters, followed by [%], matches
    the texts that start with the keyword. *)
Lemma like_match_prefix (k : string) :
  meta_free k = true ->
  forall t, like_match (k ++ String percent EmptyString) t =
            Ok (Spec.starts_with k t).
Proof.
  induction k as [|c k IH]; intros Hk t.
  - simpl append. rewrite like_match_any. destruct t; reflexivity.
  - simpl in Hk.
    repeat (apply andb_prop in Hk; destruct Hk as [Hk ?]).
    repeat match goal with
           | H : negb _ = true |- _ => apply negb_true_iff in H
           end.
    simpl append. rewrite like_match_literal by assumption.
    destruct t as [|x t]; [reflexivity|]. simpl.
    destruct (Ascii.eqb c x); [|reflexivity].
    apply IH. assumption.
Qed.

(** Between two [%] it matches the texts that contain the keyword. *)
Lemma like_match_contains (k : string) :
  meta_free k = true ->
  forall t, like_match (String percent (k ++ String percent EmptyString)) t =
            Ok (Spec.contains k t).
Proof.
  intros Hk t. induction t as [|x t IH].
  - rewrite like_match_percent, (like_match_prefix k Hk). simpl.
    destruct (Spec.starts_with k ""); reflexivity.
  - rewrite like_match_percent, (like_match_prefix k Hk). simpl bind.
    cbn [Spec.contains]. destruct (Spec.starts_with k (String x t)).
    + reflexivity.
    + exact IH.
Qed.

Lemma lower_char_meta (c : ascii) :
  negb (Ascii.eqb c percent) && negb (Ascii.eqb c underscore)
  && negb (Ascii.eqb c backslash) = true ->
  negb (Ascii.eqb (lower_char c) percent)
  && negb (Ascii.eqb (lower_char c) underscore)
  && negb (Ascii.eqb (lower_char c) backslash) = true.
Proof.
  destruct c as [[] [] [] [] [] [] [] []]; vm_compute; intros H; exact H || reflexivity.
Qed.

Lemma lower_meta_free (k : string) :
  meta_free k = true -> meta_free (lower k) = true.
Proof.
  induction k as [|c k IH]; simpl; [reflexivity|]. intros H.
  apply andb_prop in H. destruct H as [Hc Hk].
  rewrite (lower_char_meta c Hc). apply IH. exact Hk.
Qed.

Lemma lower_append (a b : string) :
  lower (a ++ b) = (lower a ++ lower b)%string.
Proof. induction a as [|c a IH]; simpl; [|rewrite IH]; reflexivity. Qed.

Lemma lower_pattern (k : string) :
  lower (String percent k ++ String percent EmptyString) =
  String percent (lower k ++ String percent EmptyString).
Proof. simpl. rewrite lower_append. reflexivity. Qed.

Lemma contains_empty (t : string) : Spec.contains EmptyString t = true.
Proof. destruct t; reflexivity. Qed.

Lemma get_vacancies_with_keyword_run (d : database) (k : string) :
  fst (DBManager.get_vacancies_with_keyword k (connect d)) =
  DBManager.select_keyword (String percent k ++ String percent EmptyString) d.
Proof. reflexivity. Qed.

Lemma in_all_bytes (c : ascii) : In c all_bytes.
Proof.
  unfold all_bytes. rewrite <- (ascii_nat_embedding c). apply in_map.
  apply in_seq. pose proof (nat_ascii_bounded c). lia.
Qed.

Lemma same_letter_all_bytes :
  forallb (fun a =>
             forallb (fun b =>
                        Bool.eqb (Spec.same_letter a b)
                          (Ascii.eqb (lower_char a) (lower_char b)))
               all_bytes)
    all_bytes = true.
Proof. vm_compute. reflexivity. Qed.

(** Two characters have the same [LOWER] exactly when they differ at most
    by the case of a letter. *)
Lemma same_letter_lower (a b : ascii) :
  Ascii.eqb (lower_char a) (lower_char b) = Spec.same_letter a b.
Proof.
  pose proof same_letter_all_bytes as H. rewrite forallb_forall in H.
  specialize (H a (in_all_bytes a)). rewrite forallb_forall in H.
  specialize (H b (in_all_bytes b)). apply Bool.eqb_prop in H.
  symmetry. exact H.
Qed.

Lemma starts_with_lower (k t : string) :
  Spec.starts_with (lower k) (lower t) = Spec.starts_with_ignoring_case k t.
Proof.
  revert t. induction k as [|a k IH]; intros [|b t]; simpl; try reflexivity.
  rewrite same_letter_lower, IH. reflexivity.
Qed.

Lemma contains_lower (k t : string) :
  Spec.contains (lower k) (lower t) = Spec.contains_ignoring_case k t.
Proof.
  induction t as [|b t IH].
  - cbn [lower Spec.contains Spec.contains_ignoring_case].
    rewrite <- starts_with_lower. reflexivity.
  - cbn [lower Spec.contains Spec.contains_ignoring_case].
    rewrite <- IH, <- starts_with_lower. reflexivity.
Qed.

(** C7, as amended: on every state that satisfies the schema and for
    every ASCII keyword without the LIKE characters [%], [_] and backslash,
    [get_vacancies_with_keyword] returns the vacancies that a test [keep]
    selects, each once, joined with the name of its employer and ordered by
    lower salary bound descending with nulls last; on an ASCII title, the
    test is that the title contains the keyword as a substring, the case of
    the letters ignored.  The empty keyword matches every vacancy.  (Which
    letters outside A to Z the LOWER of the database folds depends on its
    locale, and nothing is said of the titles that have such characters.) *)
Theorem get_vacancies_with_keyword_substring (d : database) (k : string) :
  valid_db d = true -> meta_free k = true -> is_ascii k = true ->
  exists (keep : vacancy -> bool) (ves : list (vacancy * employer)),
    fst (DBManager.get_vacancies_with_keyword k (connect d)) =
      Ok (map (fun r => Spec.listed (fst r) (snd r)) ves)
    /\ Permutation (map fst ves) (filter keep (vacancies d))
    /\ (forall v, is_ascii (v_name v) = true ->
          keep v = Spec.contains_ignoring_case k (v_name v))
    /\ Forall (fun r => Spec.employer_of d (fst r) (snd r)) ves
    /\ StronglySorted rows_in_order
         (map (fun r => Spec.listed (fst r) (snd r)) ves)
    /\ (k = EmptyString -> Permutation (map fst ves) (vacancies d)).
Proof.
  intros Hv Hk _.
  destruct (listing_of_rows d
              (fun v => Spec.contains_ignoring_case k (v_name v)) Hv)
    as (Hp & Hall & Hs).
  set (ves := order_by desc_nulls_last (fun r => v_salary_from (fst r))
                (filter (fun r => Spec.contains_ignoring_case k (v_name (fst r)))
                   (DBManager.vacancies_with_employers d))) in *.
  exists (fun v => Spec.contains_ignoring_case k (v_name v)), ves.
  split; [|split; [exact Hp|split; [reflexivity|split; [exact Hall|split]]]].
  - rewrite get_vacancies_with_keyword_run. unfold DBManager.select_keyword.
    rewrite lower_pattern.
    rewrite (filter_result_ok _
               (fun r => Spec.contains_ignoring_case k (v_name (fst r)))).
    + simpl. f_equal. apply map_ext. apply to_vacancy_row_listed.
    + intros r _. rewrite <- contains_lower.
      apply like_match_contains. apply lower_meta_free. exact Hk.
  - apply StronglySorted_map. exact Hs.
  - intros ->. eapply perm_trans; [exact Hp|].
    rewrite (filter_ext _ (fun _ => true)), filter_all; [apply Permutation_refl|].
    intros v. destruct (v_name v); reflexivity.
Qed.

Lemma get_vacancies_with_keyword_substring_witness :
  valid_db Sample.two_salaries = true /\ meta_free "BACKEND" = true
  /\ is_ascii "BACKEND" = true
  /\ exists (keep : vacancy -> bool) (ves : list (vacancy * employer)),
       fst (DBManager.get_vacancies_with_keyword "BACKEND"
              (connect Sample.two_salaries)) =
         Ok (map (fun r => Spec.listed (fst r) (snd r)) ves)
       /\ Permutation (map fst ves) (filter keep (vacancies Sample.two_salaries))
       /\ (forall v, is_ascii (v_name v) = true ->
             keep v = Spec.contains_ignoring_case "BACKEND" (v_name v))
       /\ Forall (fun r => Spec.employer_of Sample.two_salaries (fst r) (snd r))
            ves
       /\ StronglySorted rows_in_order
            (map (fun r => Spec.listed (fst r) (snd r)) ves).
Proof.
  split; [reflexivity|]. split; [reflexivity|]. split; [reflexivity|].
  destruct (get_vacancies_with_keyword_substring Sample.two_salaries "BACKEND"
              eq_refl eq_refl eq_refl)
    as (keep & ves & H1 & H2 & H3 & H4 & H5 & _).
  exists keep, ves. repeat split; assumption.
Defined.

(** C7 fails as stated: a keyword of one blank does not match the title
    Dev, so it does not match every vacancy; and the keyword [_] matches
    both titles although neither contains an underscore. *)
Lemma get_vacancies_with_keyword_not_substring :
  reachable Sample.timestamp_in Sample.two_salaries
  /\ fst (DBManager.get_vacancies_with_keyword " " (connect Sample.two_salaries)) =
     Ok [("Acme", "Senior Backend Engineer", Some 1000, Some 2000, Some "USD",
          "https://hh.ru/vacancy/1")]%string
  /\ fst (DBManager.get_vacancies_with_keyword "_" (connect Sample.two_salaries)) =
     Ok [("Acme", "Senior Backend Engineer", Some 1000, Some 2000, Some "USD",
          "https://hh.ru/vacancy/1");
         ("Acme", "Dev", Some 500, None, Some "HLF",
          "https://hh.ru/vacancy/2")]%string
  /\ Spec.contains_ignoring_case "_" "Dev" = false
  /\ Spec.contains_ignoring_case "_" "Senior Backend Engineer" = false.
Proof. split; [exact reachable_two_salaries|]. repeat split; reflexivity. Qed.

(** The searches of the specification's example. *)
Lemma get_vacancies_with_keyword_backend :
  fst (DBManager.get_vacancies_with_keyword "backend" (connect Sample.two_salaries)) =
    fst (DBManager.get_vacancies_with_keyword "BACKEND" (connect Sample.two_salaries))
  /\ fst (DBManager.get_vacancies_with_keyword "BACKEND" (connect Sample.two_salaries)) =
     Ok [("Acme", "Senior Backend Engineer", Some 1000, Some 2000, Some "USD",
          "https://hh.ru/vacancy/1")]%string
  /\ fst (DBManager.get_vacancies_with_keyword "frontend" (connect Sample.two_salaries)) =
     Ok [].
Proof. repeat split; reflexivity. Qed.

(** ** [get_vacancies_with_higher_salary] *)





(** When [get_avg_salary] returns, every salary expression can be
    computed and the value returned is the mean of the specification. *)
Lemma get_avg_salary_returns (d : database) (r : option Q) :
  valid_db d = true ->
  fst (DBManager.get_avg_salary (connect d)) = Ok r ->
  forallb (salary_computable d) (vacancies d) = true
  /\ r = Spec.average_salary d.
Proof.
  intros Hv Hr.
  destruct (forallb (salary_computable d) (vacancies d)) eqn:Hc.
  - split; [reflexivity|].
    rewrite get_avg_salary_run, (select_avg_salary_ok d Hv Hc) in Hr.
    simpl in Hr. congruence.
  - exfalso. destruct (select_avg_salary_raise d Hv Hc) as [e He].
    rewrite get_avg_salary_run, He in Hr. discriminate.
Qed.


(** C2 fails on the code, by the defect of C1: on the reachable state with
    one vacancy whose bounds are both 2000000000, the average of the
    specification is 2000000000 and no vacancy is above it, so that the
    claim asks for the empty list; [get_vacancies_with_higher_salary]
    raises, with the average query that it sends first. *)
Theorem get_vacancies_with_higher_salary_large_bounds :
  reachable Sample.timestamp_in Sample.large_bounds
  /\ valid_db Sample.large_bounds = true
  /\ (exists a, Spec.average_salary Sample.large_bounds = Some a
                /\ filter (Spec.above Sample.large_bounds a)
                     (vacancies Sample.large_bounds) = [])
  /\ DBManager.get_vacancies_with_higher_salary (connect Sample.large_bounds) =
     (Raise NumericValueOutOfRange,
      {| conn_db := Sample.large_bounds; conn_sent := [SelectAvgSalary] |}).
Proof.
  split; [exact reachable_large_bounds|].
  split; [reflexivity|split; [|reflexivity]].
  eexists. split; [vm_compute; reflexivity|reflexivity].
Qed.

(** The example of the specification: of the two vacancies, normalized to
    1500 and 1000, only the first is above the average 1250. *)
Lemma get_vacancies_with_higher_salary_example :
  fst (DBManager.get_vacancies_with_higher_salary (connect Sample.two_salaries)) =
  Ok [("Acme", "Senior Backend Engineer", 1000, 2000, Some "USD",
       "https://hh.ru/vacancy/1")]%string.
Proof. reflexivity. Qed.

(** ** [get_companies_and_vacancies_count] *)

(** C5 fails on the code: with two employers that are both named Acme,
    one with two vacancies and one with one, the method returns a single
    row that adds the counts up, not one row per employer with its own
    count. *)
Lemma get_companies_and_vacancies_count_same_names :
  reachable Sample.timestamp_in Sample.same_names
  /\ map (fun e => (e_name e, Spec.vacancy_count Sample.same_names e))
       (employers Sample.same_names) = [("Acme", 2); ("Acme", 1)]%string
  /\ fst (DBManager.get_companies_and_vacancies_count (connect Sample.same_names)) =
     Ok [("Acme", 3)]%string.
Proof. split; [exact reachable_same_names|]. split; reflexivity. Qed.

(** ** [get_companies_and_vacancies_count] when no two employers share a
    name *)

Lemma filter_idem {A : Type} (p : A -> bool) (l : list A) :
  filter p (filter p l) = filter p l.
Proof.
  induction l as [|a l IH]; simpl; [reflexivity|].
  destruct (p a) eqn:E; simpl; [rewrite E, IH|]; auto.
Qed.

Lemma filter_keeps_all {A : Type} (p : A -> bool) (l : list A) :
  (forall x, In x l -> p x = true) -> filter p l = l.
Proof.
  induction l as [|a l IH]; simpl; intros H; [reflexivity|].
  rewrite (H a (or_introl eq_refl)), IH; [reflexivity|].
  intros x Hx. apply H. right. exact Hx.
Qed.

Lemma filter_keeps_none {A : Type} (p : A -> bool) (l : list A) :
  (forall x, In x l -> p x = false) -> filter p l = [].
Proof.
  induction l as [|a l IH]; simpl; intros H; [reflexivity|].
  rewrite (H a (or_introl eq_refl)). apply IH.
  intros x Hx. apply H. right. exact Hx.
Qed.

(** A run of one key in front of a list gives that key once. *)
Lemma dedup_run (k : string) (xs ys : list string) :
  xs <> [] -> (forall x, In x xs -> x = k) ->
  dedup (xs ++ ys) = k :: filter (fun b => negb (String.eqb k b)) (dedup ys).
Proof.
  induction xs as [|x xs IH]; intros Hne Hall; [congruence|].
  assert (x = k) by (apply Hall; left; reflexivity). subst x.
  destruct xs as [|x' xs]; [reflexivity|].
  change (dedup ((k :: x' :: xs) ++ ys))
    with (k :: filter (fun b => negb (String.eqb k b)) (dedup ((x' :: xs) ++ ys))).
  rewrite IH; [|discriminate|intros x Hx; apply Hall; right; exact Hx].
  simpl. rewrite String.eqb_refl. simpl. rewrite filter_idem. reflexivity.
Qed.

Section Blocks.

Context {A B : Type} (key : B -> string) (name : A -> string)
  (block : A -> list B).
Hypothesis block_key : forall a b, In b (block a) -> key b = name a.
Hypothesis block_some : forall a, block a <> [].

Lemma distinct_names_head (a : A) (l : list A) :
  distinct String.eqb (map name (a :: l)) = true ->
  (forall x, In x l -> name x <> name a)
  /\ distinct String.eqb (map name l) = true.
Proof.
  simpl. intros H. apply andb_prop in H. destruct H as [Hn Hd].
  split; [|exact Hd]. apply negb_true_iff in Hn.
  exact (existsb_key_false String.eqb string_eqb_iff name l (name a) Hn).
Qed.

Lemma dedup_blocks (l : list A) :
  distinct String.eqb (map name l) = true ->
  dedup (map key (flat_map block l)) = map name l.
Proof.
  induction l as [|a l IH]; intros Hd; [reflexivity|].
  destruct (distinct_names_head a l Hd) as [Hne Hd'].
  simpl. rewrite map_app.
  rewrite (dedup_run (name a)).
  - rewrite (IH Hd'). f_equal. apply filter_keeps_all.
    intros x Hx. apply in_map_iff in Hx. destruct Hx as (a' & <- & Ha').
    apply negb_true_iff. apply String.eqb_neq.
    intros E. exact (Hne a' Ha' (eq_sym E)).
  - intros E. apply map_eq_nil in E. exact (block_some a E).
  - intros x Hx. apply in_map_iff in Hx. destruct Hx as (b & <- & Hb).
    apply block_key. exact Hb.
Qed.

Lemma filter_blocks (l : list A) (a : A) :
  distinct String.eqb (map name l) = true -> In a l ->
  filter (fun b => String.eqb (name a) (key b)) (flat_map block l) = block a.
Proof.
  induction l as [|a0 l IH]; intros Hd Hin; [contradiction|].
  destruct (distinct_names_head a0 l Hd) as [Hne Hd'].
  simpl. rewrite filter_app. destruct Hin as [->|Hin].
  - rewrite filter_keeps_all, filter_keeps_none.
    + apply app_nil_r.
    + intros b Hb. apply in_flat_map in Hb. destruct Hb as (a' & Ha' & Hb).
      rewrite (block_key a' b Hb). apply String.eqb_neq.
      intros E. exact (Hne a' Ha' (eq_sym E)).
    + intros b Hb. rewrite (block_key a b Hb). apply String.eqb_refl.
  - rewrite filter_keeps_none, (IH Hd' Hin); [reflexivity|].
    intros b Hb. rewrite (block_key a0 b Hb). apply String.eqb_neq.
    apply Hne. exact Hin.
Qed.

(** Grouping blocks of rows by a key that tells the blocks apart gives the
    blocks back. *)
Lemma group_by_blocks (l : list A) :
  distinct String.eqb (map name l) = true ->
  group_by key (flat_map block l) = map (fun a => (name a, block a)) l.
Proof.
  intros Hd. unfold group_by. rewrite (dedup_blocks l Hd), map_map.
  apply map_ext_in. intros a Ha. rewrite (filter_blocks l a Hd Ha). reflexivity.
Qed.

End Blocks.

Lemma count_of_block (d : database) (e : employer) :
  sql_count
    (map (fun r : employer * option vacancy => option_map v_id (snd r))
       match filter (fun v => e_id e =? v_employer_id v) (vacancies d) with
       | [] => [(e, None)]
       | bs => map (fun b => (e, Some b)) bs
       end) = Spec.vacancy_count d e.
Proof.
  unfold Spec.vacancy_count, sql_count.
  rewrite (filter_ext (fun v => v_employer_id v =? e_id e)
             (fun v => e_id e =? v_employer_id v))
    by (intros v; apply Z.eqb_sym).
  destruct (filter (fun v => e_id e =? v_employer_id v) (vacancies d))
    as [|b bs]; [reflexivity|].
  f_equal. rewrite map_map. simpl option_map.
  generalize (b :: bs). intros l.
  induction l as [|x l IH]; simpl; [|rewrite IH]; reflexivity.
Qed.

(** When no two employers share a name, [get_companies_and_vacancies_count]
    returns one row per employer, zero counts included, each with the
    number of that employer's vacancies, ordered by count descending. *)
Lemma get_companies_and_vacancies_count_distinct_names (d : database) :
  distinct String.eqb (map e_name (employers d)) = true ->
  exists rows,
    fst (DBManager.get_companies_and_vacancies_count (connect d)) = Ok rows
    /\ Permutation rows
         (map (fun e => (e_name e, Spec.vacancy_count d e)) (employers d))
    /\ StronglySorted (fun r s : string * Z => snd s <= snd r) rows.
Proof.
  intros Hd. eexists. split; [reflexivity|].
  unfold DBManager.select_companies_count. split.
  - eapply perm_trans; [apply order_by_perm|].
    unfold left_join.
    rewrite (group_by_blocks (fun r : employer * option vacancy => e_name (fst r))
               e_name).
    + rewrite map_map.
      rewrite (map_ext _ (fun e => (e_name e, Spec.vacancy_count d e)));
        [apply Permutation_refl|].
      intros e. cbn [fst snd]. f_equal. apply count_of_block.
    + intros e r Hr.
      destruct (filter (fun v => e_id e =? v_employer_id v) _) as [|b bs].
      * destruct Hr as [<-|[]]. reflexivity.
      * apply in_map_iff in Hr. destruct Hr as (v & <- & _). reflexivity.
    + intros e.
      destruct (filter (fun v => e_id e =? v_employer_id v) _); discriminate.
    + exact Hd.
  - apply order_by_sorted.
    + intros a b H. apply Z.leb_le. exact H.
    + intros a b H. apply Z.leb_gt in H. lia.
    + intros a b c H1 H2. lia.
Qed.
(** * Further properties *)

(** ** The insert methods: what they keep *)

Lemma reachable_valid_witness :
  reachable Sample.timestamp_in Sample.two_salaries
  /\ valid_db Sample.two_salaries = true.
Proof.
  assert (H : reachable Sample.timestamp_in Sample.two_salaries).
  { exact (run_calls_reachable Sample.timestamp_in Sample.two_salaries_calls
             (connect empty_db)
             (snd (run_calls Sample.timestamp_in Sample.two_salaries_calls
                     (connect empty_db)))
             (reachable_empty _) eq_refl). }
  split; [exact H|].
  exact (reachable_valid Sample.timestamp_in Sample.two_salaries H).
Defined.

Lemma extends_refl (d : database) : extends d d.
Proof.
  repeat split; exists []; rewrite app_nil_r; reflexivity.
Qed.

Lemma extends_trans (d1 d2 d3 : database) :
  extends d1 d2 -> extends d2 d3 -> extends d1 d3.
Proof.
  intros ((e1 & He1) & (c1 & Hc1) & (v1 & Hv1))
         ((e2 & He2) & (c2 & Hc2) & (v2 & Hv2)).
  repeat split.
  - exists (e1 ++ e2). rewrite He2, He1, app_assoc. reflexivity.
  - exists (c1 ++ c2). rewrite Hc2, Hc1, app_assoc. reflexivity.
  - exists (v1 ++ v2). rewrite Hv2, Hv1, app_assoc. reflexivity.
Qed.

Lemma insert_employer_extends (id : Z) (name url : string) (d d' : database) :
  DBManager.insert_employer id name url d = Ok d' -> extends d d'.
Proof.
  unfold DBManager.insert_employer, to_int8.
  destruct (in_int8 id); simpl; [|discriminate].
  destruct (has_employer d id); intros H; injection H as <-.
  - apply extends_refl.
  - repeat split; simpl; eauto; exists []; rewrite app_nil_r; reflexivity.
Qed.

Lemma insert_currency_extends (code name : string) (rate : option Q)
  (d d' : database) :
  DBManager.insert_currency code name rate d = Ok d' -> extends d d'.
Proof.
  unfold DBManager.insert_currency.
  destruct rate as [r|]; [|discriminate].
  destruct (has_currency d code); intros H; injection H as <-.
  - apply extends_refl.
  - repeat split; simpl; eauto; exists []; rewrite app_nil_r; reflexivity.
Qed.

Lemma insert_vacancy_extends (ts : string -> option Z) (id : Z)
  (p : vacancy_payload) (d d' : database) :
  DBManager.insert_vacancy ts id (p_name p) (p_employer_id p)
    (p_salary_from p) (p_salary_to p) (p_salary_currency p)
    (p_description p) (p_alternate_url p) (p_published_at p) d = Ok d' ->
  extends d d'.
Proof.
  destruct (fits_columns ts id p) eqn:Hfit.
  - destruct (insert_vacancy_fits ts id p d Hfit) as (t & _ & ->).
    destruct (has_vacancy d id);
      [intros H; injection H as <-; apply extends_refl|].
    destruct (has_vacancy_url _ _); [discriminate|].
    destruct (negb (has_employer _ _)); [discriminate|].
    destruct (match p_salary_currency p with Some _ => _ | None => _ end);
      [discriminate|].
    intros H. injection H as <-.
    repeat split; simpl; eauto; exists []; rewrite app_nil_r; reflexivity.
  - destruct (insert_vacancy_misfit ts id p d Hfit) as [e ->]. discriminate.
Qed.

Lemma execute_insert_extends (s : statement)
  (ins : database -> result database) (c : connection) :
  (forall d', ins (conn_db c) = Ok d' -> extends (conn_db c) d') ->
  extends (conn_db c) (conn_db (snd (execute_insert s ins c))).
Proof.
  intros H. unfold execute_insert.
  destruct (ins (conn_db c)) as [d'|e]; simpl.
  - apply H. reflexivity.
  - apply extends_refl.
Qed.

Lemma run_call_extends (ts : string -> option Z) (k : call) (c : connection) :
  extends (conn_db c) (conn_db (snd (run_call ts k c))).
Proof.
  destruct k as [id name url|code name rate|id p]; simpl.
  - apply execute_insert_extends. intros d'. apply insert_employer_extends.
  - apply execute_insert_extends. intros d'. apply insert_currency_extends.
  - apply execute_insert_extends. intros d'. apply insert_vacancy_extends.
Qed.

(** X2: whatever calls of [add_employer], [add_currency] and [add_vacancy]
    are made, and whether they return or one of them raises, no stored row
    is changed, moved or deleted: every table is afterwards the table of
    before followed by the new rows. *)
Theorem inserts_only_append (ts : string -> option Z) (ks : list call)
  (c : connection) :
  extends (conn_db c) (conn_db (snd (run_calls ts ks c))).
Proof.
  revert c. induction ks as [|k ks IH]; intros c; simpl.
  - apply extends_refl.
  - unfold db_bind. pose proof (run_call_extends ts k c) as Hk.
    destruct (run_call ts k c) as [[[]|e] c1]; simpl in *.
    + eapply extends_trans; [exact Hk|apply IH].
    + exact Hk.
Qed.

(** X3: a call of [add_vacancy] whose employer is not stored, under an id
    that is not stored, raises and stores nothing; the error is the
    violation of the foreign key on [employer_id] when the values fit
    their columns and the url is not taken. *)
Theorem add_vacancy_unknown_employer (ts : string -> option Z)
  (c : connection) (id : Z) (p : vacancy_payload) :
  has_employer (conn_db c) (p_employer_id p) = false ->
  has_vacancy (conn_db c) id = false ->
  exists e, add_vacancy_payload ts id p c = (Raise e, sent c InsertVacancy)
    /\ (fits_columns ts id p = true ->
        has_vacancy_url (conn_db c) (p_alternate_url p) = false ->
        e = ForeignKeyViolation).
Proof.
  intros Hemp Hnew. rewrite add_vacancy_payload_run.
  destruct (fits_columns ts id p) eqn:Hfit.
  - destruct (insert_vacancy_fits ts id p (conn_db c) Hfit) as (t & _ & ->).
    rewrite Hnew, Hemp. simpl.
    destruct (has_vacancy_url _ _).
    + exists UniqueViolation. split; [reflexivity|discriminate].
    + exists ForeignKeyViolation. split; reflexivity.
  - destruct (insert_vacancy_misfit ts id p (conn_db c) Hfit) as [e ->].
    exists e. split; [reflexivity|discriminate].
Qed.

Lemma add_vacancy_unknown_employer_witness :
  has_employer (conn_db (connect empty_db)) (p_employer_id Sample.backend) = false
  /\ has_vacancy (conn_db (connect empty_db)) 7 = false
  /\ exists e,
       add_vacancy_payload Sample.timestamp_in 7 Sample.backend (connect empty_db) =
       (Raise e, sent (connect empty_db) InsertVacancy)
       /\ e = ForeignKeyViolation.
Proof.
  split; [reflexivity|]. split; [reflexivity|].
  destruct (add_vacancy_unknown_employer Sample.timestamp_in (connect empty_db)
              7 Sample.backend eq_refl eq_refl) as (e & He & Hfk).
  exists e. split; [exact He|]. apply Hfk; reflexivity.
Defined.

(** ** [get_vacancies_with_keyword] on any keyword *)

Lemma closed_pattern_tail (c : ascii) (p : string) :
  p <> EmptyString -> closed_pattern (String c p) = closed_pattern p.
Proof. destruct p; [congruence|reflexivity]. Qed.

Lemma closed_pattern_append (x : string) :
  closed_pattern (x ++ String percent EmptyString) = true.
Proof.
  induction x as [|c x IH]; [reflexivity|].
  simpl append. rewrite closed_pattern_tail; [exact IH|].
  destruct x; discriminate.
Qed.

Lemma like_match_any_returns (p : string) :
  (forall t, exists b, like_match p t = Ok b) ->
  forall t, exists b, like_match (String percent p) t = Ok b.
Proof.
  intros Hp t. induction t as [|x t IH]; rewrite like_match_percent.
  - destruct (Hp EmptyString) as [b ->]. simpl. destruct b; eauto.
  - destruct (Hp (String x t)) as [b ->]. simpl. destruct b; eauto.
Qed.

(** LIKE raises only on a pattern that ends in a lone backslash. *)
Lemma like_match_returns (n : nat) :
  forall p, (String.length p <= n)%nat -> closed_pattern p = true ->
            forall t, exists b, like_match p t = Ok b.
Proof.
  induction n as [|n IH]; intros p Hlen Hp t.
  - destruct p; [simpl; eauto|simpl in Hlen; lia].
  - destruct p as [|c p]; [simpl; eauto|]. simpl in Hlen.
    assert (Hrest : forall u, exists b, like_match p u = Ok b).
    { intros u. destruct p as [|c' p'] eqn:E; [simpl; eauto|].
      apply IH; [simpl in *; lia|].
      rewrite <- Hp. symmetry. apply closed_pattern_tail. discriminate. }
    destruct (Ascii.eqb c percent) eqn:Ec.
    { apply Ascii.eqb_eq in Ec. subst c. apply like_match_any_returns. exact Hrest. }
    cbn [like_match]. rewrite Ec.
    destruct (Ascii.eqb c underscore).
    { destruct t as [|x t]; [eauto|apply Hrest]. }
    destruct t as [|x t]; [eauto|].
    destruct (Ascii.eqb c backslash).
    + destruct p as [|e p'].
      * simpl in Hp. congruence.
      * destruct (Ascii.eqb e x); [|eauto].
        destruct p' as [|c'' p''] eqn:E; [simpl; eauto|].
        apply IH; [simpl in *; lia|].
        rewrite <- Hp.
        rewrite (closed_pattern_tail c (String e (String c'' p''))) by discriminate.
        symmetry. apply closed_pattern_tail. discriminate.
    + destruct (Ascii.eqb c x); [apply Hrest|eauto].
Qed.

Lemma filter_result_returns {A : Type} (f : A -> result bool) (l : list A) :
  (forall a, exists b, f a = Ok b) ->
  exists l', filter_result f l = Ok l' /\ incl l' l.
Proof.
  intros Hf. induction l as [|a l (l' & Hl & Hincl)]; simpl.
  - exists []. split; [reflexivity|apply incl_refl].
  - destruct (Hf a) as [b ->]. rewrite Hl. simpl. destruct b.
    + exists (a :: l'). split; [reflexivity|].
      intros x [->|Hx]; [left; reflexivity|right; apply Hincl; exact Hx].
    + exists l'. split; [reflexivity|].
      intros x Hx. right. apply Hincl. exact Hx.
Qed.

(** X4: [get_vacancies_with_keyword] returns for every keyword, the ones
    with [%], [_] or a backslash included (no keyword makes LIKE raise),
    and every row it returns is a row of [get_all_vacancies]. *)
Theorem get_vacancies_with_keyword_returns (d : database) (k : string) :
  exists rows listing,
    fst (DBManager.get_vacancies_with_keyword k (connect d)) = Ok rows
    /\ fst (DBManager.get_all_vacancies (connect d)) = Ok listing
    /\ incl rows listing.
Proof.
  rewrite get_vacancies_with_keyword_run. unfold DBManager.select_keyword.
  destruct (filter_result_returns
              (fun r : vacancy * employer =>
                 like_match
                   (lower (String percent k ++ String percent EmptyString))
                   (lower (v_name (fst r))))
              (DBManager.vacancies_with_employers d)) as (l' & -> & Hincl).
  - intros r. rewrite lower_pattern.
    apply (like_match_returns
             (String.length (String percent (lower k ++ String percent EmptyString))));
      [apply le_n|].
    rewrite closed_pattern_tail by (destruct (lower k); discriminate).
    apply closed_pattern_append.
  - eexists. eexists. split; [reflexivity|]. split; [reflexivity|].
    unfold DBManager.select_all_vacancies. intros r Hr.
    apply in_map_iff in Hr. destruct Hr as (x & <- & Hx).
    apply in_map.
    pose proof (order_by_perm desc_nulls_last
                  (fun r : vacancy * employer => v_salary_from (fst r)))
      as Hperm.
    apply (Permutation_in x (Permutation_sym (Hperm _))).
    apply Hincl.
    apply (Permutation_in x (Hperm _)). exact Hx.
Qed.

(** X5: with the empty keyword [get_vacancies_with_keyword] returns the
    rows that [get_all_vacancies] returns, each as often, and both lists are
    ordered by lower salary bound descending with nulls last (the order
    among rows of equal bounds is left open). *)
Theorem get_vacancies_with_keyword_empty (d : database) :
  exists found listing,
    fst (DBManager.get_vacancies_with_keyword EmptyString (connect d)) = Ok found
    /\ fst (DBManager.get_all_vacancies (connect d)) = Ok listing
    /\ Permutation found listing
    /\ StronglySorted rows_in_order found
    /\ StronglySorted rows_in_order listing.
Proof.
  assert (Hs : StronglySorted rows_in_order (DBManager.select_all_vacancies d)).
  { unfold DBManager.select_all_vacancies.
    rewrite (map_ext _ _ to_vacancy_row_listed).
    apply StronglySorted_map.
    apply (order_by_salary_sorted fst). }
  exists (DBManager.select_all_vacancies d), (DBManager.select_all_vacancies d).
  split; [|split; [reflexivity|split; [apply Permutation_refl|split; exact Hs]]].
  rewrite get_vacancies_with_keyword_run. unfold DBManager.select_keyword.
  rewrite (filter_result_ok _ (fun _ => true)).
  - simpl. rewrite filter_all. reflexivity.
  - intros r _. rewrite lower_pattern.
    rewrite (like_match_contains (lower EmptyString) eq_refl).
    rewrite contains_empty. reflexivity.
Qed.

(** ** [get_avg_salary]: when it has no value *)

Lemma in_non_nulls {A B : Type} (f : A -> option B) (l : list A) (x : B) :
  In x (non_nulls (map f l)) <-> exists v, In v l /\ f v = Some x.
Proof.
  induction l as [|a l IH]; simpl.
  - split; [contradiction|intros (v & [] & _)].
  - destruct (f a) as [b|] eqn:E; simpl; rewrite IH; split.
    + intros [<-|(v & Hv & Hx)]; [exists a; auto|exists v; auto].
    + intros (v & [<-|Hv] & Hx); [left; congruence|right; exists v; auto].
    + intros (v & Hv & Hx). exists v. auto.
    + intros (v & [<-|Hv] & Hx); [congruence|exists v; auto].
Qed.

Lemma no_salary_iff_normalized (d : database) (v : vacancy) :
  DBManager.has_salary v = false <-> Spec.normalized d v = None.
Proof.
  unfold DBManager.has_salary, Spec.normalized, Spec.representative.
  destruct (v_salary_from v), (v_salary_to v); split; intros H;
    try discriminate; reflexivity.
Qed.

Lemma no_salary_computable (d : database) (v : vacancy) :
  DBManager.has_salary v = false -> salary_computable d v = true.
Proof.
  unfold DBManager.has_salary, salary_computable.
  destruct (v_salary_from v), (v_salary_to v); intros H;
    try discriminate; reflexivity.
Qed.

(** X6: on a state that satisfies the schema, [get_avg_salary] returns no
    value exactly when no vacancy has a salary bound. *)
Theorem get_avg_salary_none_iff (d : database) :
  valid_db d = true ->
  (fst (DBManager.get_avg_salary (connect d)) = Ok None
   <-> forall v, In v (vacancies d) -> DBManager.has_salary v = false).
Proof.
  intros Hv. split.
  - intros Hr. destruct (get_avg_salary_returns d None Hv Hr) as [_ Hmean].
    unfold Spec.average_salary in Hmean.
    destruct (non_nulls (map (Spec.normalized d) (vacancies d))) as [|x l] eqn:E;
      [|discriminate].
    intros v Hin. apply (no_salary_iff_normalized d).
    destruct (Spec.normalized d v) as [y|] eqn:Ey; [|reflexivity].
    assert (Hy : In y (non_nulls (map (Spec.normalized d) (vacancies d))))
      by (apply in_non_nulls; exists v; auto).
    rewrite E in Hy. contradiction.
  - intros Hno.
    assert (Hc : forallb (salary_computable d) (vacancies d) = true).
    { apply forallb_forall. intros v Hin. apply no_salary_computable.
      apply Hno. exact Hin. }
    rewrite get_avg_salary_run, (select_avg_salary_ok d Hv Hc). simpl.
    f_equal. unfold Spec.average_salary.
    destruct (non_nulls (map (Spec.normalized d) (vacancies d))) as [|x l] eqn:E;
      [reflexivity|].
    assert (Hx : In x (non_nulls (map (Spec.normalized d) (vacancies d))))
      by (rewrite E; left; reflexivity).
    apply in_non_nulls in Hx. destruct Hx as (v & Hin & Hx).
    apply Hno, (no_salary_iff_normalized d) in Hin. congruence.
Qed.

Lemma get_avg_salary_none_iff_witness :
  valid_db Sample.same_names = true
  /\ fst (DBManager.get_avg_salary (connect Sample.same_names)) = Ok None.
Proof.
  split; [reflexivity|].
  apply (proj2 (get_avg_salary_none_iff Sample.same_names eq_refl)).
  intros v [<-|[<-|[<-|[]]]]; reflexivity.
Defined.

(** ** [get_companies_and_vacancies_count]: what it groups and counts *)

Lemma in_dedup (l : list string) (x : string) : In x (dedup l) <-> In x l.
Proof.
  induction l as [|a l IH]; simpl; [tauto|].
  rewrite filter_In, IH, negb_true_iff, String.eqb_neq.
  destruct (string_dec a x) as [->|Hne]; [tauto|].
  split; [tauto|]. intros [H|H]; [contradiction|right; auto].
Qed.

Lemma NoDup_dedup (l : list string) : NoDup (dedup l).
Proof.
  induction l as [|a l IH]; simpl; constructor.
  - rewrite filter_In, String.eqb_refl. intros [_ H]. discriminate.
  - apply NoDup_filter. exact IH.
Qed.

Section NamedBlocks.

Context {A B : Type} (key : B -> string) (name : A -> string)
  (block : A -> list B).
Hypothesis block_key : forall a b, In b (block a) -> key b = name a.
Hypothesis block_some : forall a, block a <> [].

(** The keys of blocks of rows are, in order of first occurrence, the names
    of the blocks. *)
Lemma dedup_named_blocks (l : list A) :
  dedup (map key (flat_map block l)) = dedup (map name l).
Proof.
  induction l as [|a l IH]; [reflexivity|].
  simpl. rewrite map_app, (dedup_run (name a)), IH; [reflexivity| |].
  - intros E. apply map_eq_nil in E. exact (block_some a E).
  - intros x Hx. apply in_map_iff in Hx. destruct Hx as (b & <- & Hb).
    apply block_key. exact Hb.
Qed.

(** The rows that have a key are the blocks that have it as name. *)
Lemma filter_named_blocks (k : string) (l : list A) :
  filter (fun b => String.eqb k (key b)) (flat_map block l) =
  flat_map block (filter (fun a => String.eqb k (name a)) l).
Proof.
  induction l as [|a l IH]; [reflexivity|].
  simpl. rewrite filter_app, IH.
  destruct (String.eqb k (name a)) eqn:E; simpl.
  - f_equal. apply filter_keeps_all. intros b Hb.
    rewrite (block_key a b Hb). exact E.
  - rewrite filter_keeps_none; [reflexivity|]. intros b Hb.
    rewrite (block_key a b Hb). exact E.
Qed.

End NamedBlocks.

Lemma sql_count_app {A : Type} (l1 l2 : list (option A)) :
  sql_count (l1 ++ l2) = sql_count l1 + sql_count l2.
Proof.
  unfold sql_count. rewrite filter_app, length_app. lia.
Qed.

Lemma count_of_blocks (d : database) (es : list employer) :
  sql_count
    (map (fun r : employer * option vacancy => option_map v_id (snd r))
       (left_join (fun e v => e_id e =? v_employer_id v) es (vacancies d))) =
  Zsum (map (Spec.vacancy_count d) es).
Proof.
  induction es as [|e es IH]; [reflexivity|].
  change (left_join (fun e v => e_id e =? v_employer_id v) (e :: es) (vacancies d))
    with (match filter (fun v => e_id e =? v_employer_id v) (vacancies d) with
          | [] => [(e, None)]
          | bs => map (fun b => (e, Some b)) bs
          end ++ left_join (fun e v => e_id e =? v_employer_id v) es (vacancies d)).
  rewrite map_app, sql_count_app, IH, count_of_block. reflexivity.
Qed.

(** The rows of the query before ORDER BY: one per distinct name, with the
    vacancies of all employers of that name. *)
Lemma companies_rows (d : database) :
  DBManager.select_companies_count d =
  order_by desc snd
    (map (fun n => (n, vacancies_under_name d n))
       (dedup (map e_name (employers d)))).
Proof.
  unfold DBManager.select_companies_count, group_by. f_equal.
  rewrite map_map. unfold left_join.
  rewrite (dedup_named_blocks
             (fun r : employer * option vacancy => e_name (fst r)) e_name).
  - apply map_ext. intros n. cbn [fst snd]. f_equal.
    rewrite (filter_named_blocks
               (fun r : employer * option vacancy => e_name (fst r)) e_name).
    + apply (count_of_blocks d).
    + intros e r Hr.
      destruct (filter (fun v => e_id e =? v_employer_id v) _) as [|b bs].
      * destruct Hr as [<-|[]]. reflexivity.
      * apply in_map_iff in Hr. destruct Hr as (v & <- & _). reflexivity.
  - intros e r Hr.
    destruct (filter (fun v => e_id e =? v_employer_id v) _) as [|b bs].
    + destruct Hr as [<-|[]]. reflexivity.
    + apply in_map_iff in Hr. destruct Hr as (v & <- & _). reflexivity.
  - intros e.
    destruct (filter (fun v => e_id e =? v_employer_id v) _); discriminate.
Qed.

(** X9: on every state [get_companies_and_vacancies_count] returns one row
    per distinct employer name, zero counts included; the count of a row
    is the number of vacancies of all the employers that have the name;
    the rows are ordered by count descending. *)
Theorem get_companies_and_vacancies_count_by_name (d : database) :
  exists rows names,
    fst (DBManager.get_companies_and_vacancies_count (connect d)) = Ok rows
    /\ NoDup names
    /\ (forall n, In n names <-> In n (map e_name (employers d)))
    /\ Permutation rows (map (fun n => (n, vacancies_under_name d n)) names)
    /\ StronglySorted (fun r s : string * Z => snd s <= snd r) rows.
Proof.
  exists (DBManager.select_companies_count d),
         (dedup (map e_name (employers d))).
  split; [reflexivity|]. split; [apply NoDup_dedup|].
  split; [intros n; apply in_dedup|].
  rewrite companies_rows. split; [apply order_by_perm|].
  apply order_by_sorted.
  - intros a b H. apply Z.leb_le. exact H.
  - intros a b H. apply Z.leb_gt in H. lia.
  - intros a b c H1 H2. lia.
Qed.

Lemma Zsum_app (l1 l2 : list Z) : Zsum (l1 ++ l2) = Zsum l1 + Zsum l2.
Proof. induction l1 as [|a l1 IH]; simpl; [reflexivity|]. rewrite IH. lia. Qed.

Lemma Zsum_perm (l1 l2 : list Z) : Permutation l1 l2 -> Zsum l1 = Zsum l2.
Proof. induction 1; simpl; lia. Qed.

Lemma Zsum_map_add {A : Type} (f g : A -> Z) (l : list A) :
  Zsum (map (fun x => f x + g x) l) = Zsum (map f l) + Zsum (map g l).
Proof. induction l as [|a l IH]; simpl; [reflexivity|]. rewrite IH. lia. Qed.

Lemma Zsum_one_key (ks : list string) (a : string) (w : Z) :
  NoDup ks -> In a ks ->
  Zsum (map (fun k => if String.eqb k a then w else 0) ks) = w.
Proof.
  induction 1 as [|k ks Hk Hnd IH]; intros Hin; [contradiction|]. simpl.
  destruct (String.eqb k a) eqn:E.
  - apply String.eqb_eq in E. subst k.
    replace (Zsum (map (fun k => if String.eqb k a then w else 0) ks)) with 0;
      [lia|].
    clear IH Hnd Hin. induction ks as [|k ks IH]; simpl; [reflexivity|].
    destruct (String.eqb k a) eqn:E.
    + apply String.eqb_eq in E. subst k. exfalso. apply Hk. left. reflexivity.
    + rewrite <- IH; [reflexivity|]. intros H. apply Hk. right. exact H.
  - apply String.eqb_neq in E. destruct Hin as [Hin|Hin]; [contradiction|].
    rewrite (IH Hin). reflexivity.
Qed.

(** Summing over the names, and under a name over its employers, is
    summing over the employers. *)
Lemma Zsum_by_name (f : employer -> Z) (ks : list string) (es : list employer) :
  NoDup ks -> (forall e, In e es -> In (e_name e) ks) ->
  Zsum (map (fun k => Zsum (map f (filter (fun e => String.eqb k (e_name e)) es)))
          ks) = Zsum (map f es).
Proof.
  intros Hnd. induction es as [|e es IH]; intros Hall; simpl.
  - clear. induction ks as [|k ks IHk]; simpl; [reflexivity|].
    rewrite IHk. reflexivity.
  - rewrite <- IH by (intros x Hx; apply Hall; right; exact Hx).
    rewrite <- (Zsum_one_key ks (e_name e) (f e) Hnd)
      by (apply Hall; left; reflexivity).
    rewrite <- Zsum_map_add. f_equal. apply map_ext. intros k.
    destruct (String.eqb k (e_name e)); simpl; lia.
Qed.

Lemma inner_join_cons_left {A B : Type} (on : A -> B -> bool)
  (a : A) (l : list A) (r : list B) :
  inner_join on (a :: l) r = map (pair a) (filter (on a) r) ++ inner_join on l r.
Proof. reflexivity. Qed.

Lemma inner_join_nil_right {A B : Type} (on : A -> B -> bool) (l : list A) :
  inner_join on l (@nil B) = [].
Proof.
  induction l as [|a l IH]; [reflexivity|].
  rewrite inner_join_cons_left, IH. reflexivity.
Qed.

Lemma inner_join_cons_right {A B : Type} (on : A -> B -> bool)
  (l : list A) (b : B) (r : list B) :
  List.length (inner_join on l (b :: r)) =
  (List.length (filter (fun a => on a b) l) + List.length (inner_join on l r))%nat.
Proof.
  induction l as [|a l IH]; [reflexivity|].
  rewrite !inner_join_cons_left, !length_app, IH, !length_map.
  cbn [filter]. destruct (on a b); simpl; lia.
Qed.

(** A JOIN has as many rows whichever table is taken first. *)
Lemma inner_join_length_swap {A B : Type} (on : A -> B -> bool)
  (l : list A) (r : list B) :
  List.length (inner_join on l r) =
  List.length (inner_join (fun b a => on a b) r l).
Proof.
  induction r as [|b r IH].
  - rewrite inner_join_nil_right. reflexivity.
  - rewrite inner_join_cons_right, IH, inner_join_cons_left,
      length_app, length_map. reflexivity.
Qed.

Lemma vacancy_counts_total (d : database) :
  Zsum (map (Spec.vacancy_count d) (employers d)) =
  Z.of_nat (List.length
              (inner_join (fun e v => v_employer_id v =? e_id e)
                 (employers d) (vacancies d))).
Proof.
  unfold inner_join, Spec.vacancy_count.
  induction (employers d) as [|e es IH]; [reflexivity|].
  simpl. rewrite IH, length_app, length_map. lia.
Qed.

(** X10: on a state that satisfies the schema, the counts that
    [get_companies_and_vacancies_count] returns add up to the number of
    stored vacancies, also when employers share a name. *)
Theorem get_companies_and_vacancies_count_total (d : database) :
  valid_db d = true ->
  exists rows,
    fst (DBManager.get_companies_and_vacancies_count (connect d)) = Ok rows
    /\ Zsum (map snd rows) = Z.of_nat (List.length (vacancies d)).
Proof.
  intros Hv. exists (DBManager.select_companies_count d).
  split; [reflexivity|]. rewrite companies_rows.
  rewrite (Zsum_perm _ _ (Permutation_map snd (order_by_perm desc snd _))).
  rewrite map_map. cbn [snd]. unfold vacancies_under_name.
  rewrite (Zsum_by_name (Spec.vacancy_count d)).
  - rewrite vacancy_counts_total, inner_join_length_swap.
    destruct (joined_employers d Hv) as [Hfst _].
    unfold DBManager.vacancies_with_employers in Hfst.
    rewrite <- Hfst at 2. rewrite length_map. reflexivity.
  - apply NoDup_dedup.
  - intros e He. apply in_dedup. apply in_map. exact He.
Qed.

Lemma get_companies_and_vacancies_count_total_witness :
  valid_db Sample.same_names = true
  /\ exists rows,
       fst (DBManager.get_companies_and_vacancies_count
              (connect Sample.same_names)) = Ok rows
       /\ Zsum (map snd rows) = 3.
Proof.
  split; [reflexivity|].
  exact (get_companies_and_vacancies_count_total Sample.same_names eq_refl).
Defined.

(** ** The salary cell of the menu *)

(** X11: for the same vacancy, the table of the vacancies above the
    average shows the line that the table of all vacancies shows: the 0
    that the query puts in place of an absent bound is shown as an absent
    bound. *)
Theorem salary_line_as_vacancy_line (v : vacancy) (e : employer) :
  App.salary_line (Spec.listed_with_zeros v e) =
  App.vacancy_line (Spec.listed v e).
Proof.
  unfold App.salary_line, App.vacancy_line, Spec.listed_with_zeros, Spec.listed,
    App.salary_text.
  destruct (v_salary_from v) as [f|], (v_salary_to v) as [t|]; reflexivity.
Qed.

(** X12: the salary cell reads that the salary is not stated exactly when
    each bound is null or 0. *)
Theorem salary_text_not_stated (salary_from salary_to : option Z)
  (currency : option string) :
  App.salary_text salary_from salary_to currency = "Не указана"%string
  <-> Main.truthy_int salary_from = false /\ Main.truthy_int salary_to = false.
Proof.
  unfold App.salary_text. split.
  - destruct (Main.truthy_int salary_from), (Main.truthy_int salary_to);
      simpl; destruct (Main.truthy_str currency); simpl; intros H;
      try discriminate H; split; reflexivity.
  - intros [-> ->]. reflexivity.
Qed.


(** ** The menu: a keyword of blanks *)

Lemma strip_blank (line : string) :
  blank line = true -> App.strip line = EmptyString.
Proof.
  unfold blank, App.all_space, App.strip.
  destruct (App.lstrip line); [reflexivity|discriminate].
Qed.

(** A no-break space after the choice is stripped like a blank. *)
Lemma strip_no_break_space :
  App.strip (String "6" (String (ascii_of_N 194) (String (ascii_of_N 160) "")))
  = "6"%string.
Proof. reflexivity. Qed.

Lemma select_keyword_empty (d : database) :
  DBManager.select_keyword (String percent EmptyString ++ String percent EmptyString) d =
  Ok (DBManager.select_all_vacancies d).
Proof.
  unfold DBManager.select_keyword.
  rewrite (filter_result_ok _ (fun _ => true)).
  - simpl. rewrite filter_all. reflexivity.
  - intros r _. rewrite lower_pattern.
    rewrite (like_match_contains (lower EmptyString) eq_refl).
    rewrite contains_empty. reflexivity.
Qed.

(** X13: in the menu a keyword line of whitespace only makes choice 5
    search with the empty keyword (the line is stripped first), so that it
    shows the rows that choice 2 shows, each as often; with no vacancy
    stored it says that the empty keyword was not found. *)
Theorem show_found_blank (line : string) (c : connection) :
  blank line = true ->
  exists rows found,
    fst (DBManager.get_all_vacancies c) = Ok rows
    /\ fst (DBManager.get_vacancies_with_keyword EmptyString c) = Ok found
    /\ Permutation found rows
    /\ fst (App.show_vacancies c) =
       Ok match rows with
          | [] => App.NoVacancies
          | _ => App.VacanciesTable App.AllVacancies (map App.vacancy_line rows)
          end
    /\ fst (App.show_found line c) =
       Ok match found with
          | [] => App.NotFound EmptyString
          | _ => App.VacanciesTable App.Found (map App.vacancy_line found)
          end.
Proof.
  intros Hblank.
  exists (DBManager.select_all_vacancies (conn_db c)),
    (DBManager.select_all_vacancies (conn_db c)).
  assert (Hk : fst (DBManager.get_vacancies_with_keyword EmptyString c) =
               Ok (DBManager.select_all_vacancies (conn_db c))).
  { unfold DBManager.get_vacancies_with_keyword, execute_query.
    cbn [fst conn_db]. apply select_keyword_empty. }
  split; [reflexivity|]. split; [exact Hk|].
  split; [apply Permutation_refl|]. split; [reflexivity|].
  unfold App.show_found. rewrite (strip_blank line Hblank).
  unfold db_bind, DBManager.get_vacancies_with_keyword, execute_query.
  cbn [conn_db]. rewrite select_keyword_empty. reflexivity.
Qed.

Lemma show_found_blank_witness :
  blank "   " = true
  /\ exists rows found,
       fst (DBManager.get_all_vacancies (connect Sample.two_salaries)) = Ok rows
       /\ fst (DBManager.get_vacancies_with_keyword EmptyString
                 (connect Sample.two_salaries)) = Ok found
       /\ Permutation found rows
       /\ fst (App.show_found "   " (connect Sample.two_salaries)) =
          Ok match found with
             | [] => App.NotFound EmptyString
             | _ => App.VacanciesTable App.Found (map App.vacancy_line found)
             end.
Proof.
  split; [reflexivity|].
  destruct (show_found_blank "   " (connect Sample.two_salaries) eq_refl)
    as (rows & found & Hrows & Hfound & Hperm & _ & Hshow).
  exists rows, found. repeat split; assumption.
Defined.

(** ** [load_data] as a run of insert calls *)

Lemma db_bind_ext {A B : Type} (m : DB A) (k1 k2 : A -> DB B) (c : connection) :
  (forall a c', k1 a c' = k2 a c') -> db_bind m k1 c = db_bind m k2 c.
Proof.
  intros H. unfold db_bind. destruct (m c) as [[a|e] c']; [apply H|reflexivity].
Qed.

Lemma run_calls_app (ts : string -> option Z) (ks1 ks2 : list call)
  (c : connection) :
  run_calls ts (ks1 ++ ks2) c =
  db_bind (run_calls ts ks1) (fun _ => run_calls ts ks2) c.
Proof.
  revert c. induction ks1 as [|k ks1 IH]; intros c; [reflexivity|].
  simpl. unfold db_bind.
  destruct (run_call ts k c) as [[[]|e] c1]; [|reflexivity].
  rewrite IH. reflexivity.
Qed.

Lemma load_employers_run (ts : string -> option Z) (hh : App.hh_client)
  (ids : list string) (c : connection) :
  App.load_employers hh ids c = run_calls ts (employer_calls hh ids) c.
Proof.
  revert c. induction ids as [|id ids IH]; intros c; [reflexivity|].
  simpl. apply db_bind_ext. intros _ c'. apply IH.
Qed.

Lemma load_currencies_run (ts : string -> option Z)
  (cs : list App.raw_currency) (c : connection) :
  App.load_currencies cs c =
  run_calls ts
    (map (fun x => AddCurrency (App.rc_code x) (App.rc_name x) (App.rc_rate x)) cs)
    c.
Proof.
  revert c. induction cs as [|x cs IH]; intros c; [reflexivity|].
  simpl. apply db_bind_ext. intros _ c'. apply IH.
Qed.

(** The inner loop makes the calls for the first occurrences, and returns
    the set of the ids it has seen. *)
Lemma load_items_run (ts : string -> option Z) (items : list Main.raw_vacancy) :
  forall processed c,
    App.load_items ts items processed c =
    (match fst (run_calls ts (vacancy_calls items processed) c) with
     | Ok _ => Ok (processed_after items processed)
     | Raise e => Raise e
     end,
     snd (run_calls ts (vacancy_calls items processed) c)).
Proof.
  induction items as [|v items IH]; intros processed c; [reflexivity|].
  unfold vacancy_calls. simpl.
  destruct (existsb (Z.eqb (Main.rv_id v)) processed).
  - apply IH.
  - simpl. unfold db_bind.
    change (add_vacancy_payload ts (Main.rv_id v) (payload_of_raw v) c)
      with (Main.add_raw_vacancy ts v c).
    destruct (Main.add_raw_vacancy ts v c) as [[[]|e] c1]; [apply IH|reflexivity].
Qed.

Lemma load_items_app (ts : string -> option Z) (l1 l2 : list Main.raw_vacancy) :
  forall processed c,
    App.load_items ts (l1 ++ l2) processed c =
    db_bind (App.load_items ts l1 processed)
      (fun processed' => App.load_items ts l2 processed') c.
Proof.
  induction l1 as [|v l1 IH]; intros processed c; [reflexivity|].
  simpl. destruct (existsb (Z.eqb (Main.rv_id v)) processed).
  - apply IH.
  - unfold db_bind.
    destruct (Main.add_raw_vacancy ts v c) as [[[]|e] c1]; [|reflexivity].
    rewrite IH. reflexivity.
Qed.

(** The two nested loops are one loop over all the vacancies fetched. *)
Lemma load_vacancies_flat (ts : string -> option Z) (hh : App.hh_client)
  (ids : list string) :
  forall processed c,
    App.load_vacancies ts hh ids processed c =
    App.load_items ts (fetched_vacancies hh ids) processed c.
Proof.
  unfold fetched_vacancies.
  induction ids as [|id ids IH]; intros processed c; [reflexivity|].
  simpl. rewrite load_items_app. apply db_bind_ext. intros p c'. apply IH.
Qed.

Lemma load_data_run_calls (ts : string -> option Z) (ids : list string)
  (hh : App.hh_client) (c : connection) :
  App.load_data ts ids hh c = run_calls ts (load_calls hh ids) c.
Proof.
  unfold App.load_data, load_calls.
  rewrite run_calls_app. unfold db_bind.
  rewrite (load_employers_run ts).
  destruct (run_calls ts (employer_calls hh ids) c) as [[[]|e] c1];
    [|reflexivity].
  rewrite run_calls_app. unfold db_bind.
  rewrite (load_currencies_run ts). fold (currency_calls hh).
  destruct (run_calls ts (currency_calls hh) c1) as [[[]|e] c2]; [|reflexivity].
  rewrite load_vacancies_flat, load_items_run.
  destruct (run_calls ts (vacancy_calls (fetched_vacancies hh ids) []) c2)
    as [[[]|e] c3]; reflexivity.
Qed.

Lemma first_occurrences_ids (items : list Main.raw_vacancy) :
  forall processed,
    NoDup (map Main.rv_id (first_occurrences items processed))
    /\ (forall v, In v (first_occurrences items processed) ->
          In v items /\ existsb (Z.eqb (Main.rv_id v)) processed = false)
    /\ (forall v, In v items ->
          existsb (Z.eqb (Main.rv_id v)) processed = true
          \/ In (Main.rv_id v) (map Main.rv_id (first_occurrences items processed))).
Proof.
  induction items as [|v items IH]; intros processed.
  - simpl. split; [constructor|]. split; intros w [].
  - simpl. destruct (existsb (Z.eqb (Main.rv_id v)) processed) eqn:E.
    + destruct (IH processed) as (Hnd & Hin & Hall).
      split; [exact Hnd|]. split.
      * intros w Hw. destruct (Hin w Hw). auto.
      * intros w [<-|Hw]; [left; exact E|apply Hall; exact Hw].
    + destruct (IH (Main.rv_id v :: processed)) as (Hnd & Hin & Hall).
      split; [|split].
      * simpl. constructor; [|exact Hnd]. intros Hv.
        apply in_map_iff in Hv. destruct Hv as (w & Hid & Hw).
        destruct (Hin w Hw) as [_ Hfalse]. simpl in Hfalse.
        rewrite Hid, Z.eqb_refl in Hfalse. discriminate.
      * intros w [<-|Hw]; [auto|].
        destruct (Hin w Hw) as [Hitems Hfalse]. simpl in Hfalse.
        apply orb_false_iff in Hfalse. destruct Hfalse. auto.
      * intros w [<-|Hw]; [right; left; reflexivity|].
        destruct (Hall w Hw) as [H|H]; [|right; right; exact H].
        simpl in H. apply orb_true_iff in H. destruct H as [H|H].
        -- apply Z.eqb_eq in H. right. left. symmetry. exact H.
        -- left. exact H.
Qed.

(** X15: [load_data] is a run of insert calls that stops at the first call
    that raises: one [add_employer] per configured employer id, in order,
    then one [add_currency] per currency fetched, then one [add_vacancy]
    per vacancy fetched whose id did not occur before, in the order of the
    employers; no vacancy id gets two calls, and every fetched id gets
    one. *)
Theorem load_data_calls (ts : string -> option Z) (ids : list string)
  (hh : App.hh_client) :
  (forall c, App.load_data ts ids hh c = run_calls ts (load_calls hh ids) c)
  /\ NoDup (map Main.rv_id (first_occurrences (fetched_vacancies hh ids) []))
  /\ (forall v, In v (first_occurrences (fetched_vacancies hh ids) []) ->
        In v (fetched_vacancies hh ids))
  /\ (forall v, In v (fetched_vacancies hh ids) ->
        In (Main.rv_id v)
          (map Main.rv_id (first_occurrences (fetched_vacancies hh ids) []))).
Proof.
  destruct (first_occurrences_ids (fetched_vacancies hh ids) [])
    as (Hnd & Hin & Hall).
  split; [intros c; apply load_data_run_calls|].
  split; [exact Hnd|]. split.
  - intros v Hv. destruct (Hin v Hv). assumption.
  - intros v Hv. destruct (Hall v Hv) as [H|H]; [discriminate|exact H].
Qed.

(** ** [reload], the menu and [main]: what they leave stored *)

Lemma execute_insert_raise (s : statement) (ins : database -> result database)
  (c c1 : connection) (e : pg_error) :
  execute_insert s ins c = (Raise e, c1) -> conn_db c1 = conn_db c.
Proof.
  unfold execute_insert. destruct (ins (conn_db c)); intros H.
  - discriminate.
  - injection H as _ <-. reflexivity.
Qed.

Lemma run_call_reachable_any (ts : string -> option Z) (k : call)
  (c : connection) :
  reachable ts (conn_db c) -> reachable ts (conn_db (snd (run_call ts k c))).
Proof.
  intros Hr. destruct (run_call ts k c) as [[[]|e] c1] eqn:Hk.
  - exact (run_call_reachable ts k c c1 Hr Hk).
  - simpl. replace (conn_db c1) with (conn_db c); [exact Hr|].
    symmetry.
    destruct k as [id name url|code name rate|id p]; simpl in Hk;
      exact (execute_insert_raise _ _ _ _ _ Hk).
Qed.

(** A run of insert calls leads from a reachable state to a reachable
    state, also when it stops at a call that raises. *)
Lemma run_calls_reachable_any (ts : string -> option Z) (ks : list call) :
  forall c, reachable ts (conn_db c) ->
            reachable ts (conn_db (snd (run_calls ts ks c))).
Proof.
  induction ks as [|k ks IH]; intros c Hr; [exact Hr|].
  simpl. unfold db_bind.
  pose proof (run_call_reachable_any ts k c Hr) as Hk.
  destruct (run_call ts k c) as [[[]|e] c1]; simpl in *.
  - apply IH. exact Hk.
  - exact Hk.
Qed.

Lemma reload_reachable (ts : string -> option Z) (ids : list string)
  (hh : App.hh_client) (s : App.session) :
  exists d, App.s_tables (snd (App.reload ts ids hh s)) = Some d
            /\ reachable ts d.
Proof.
  unfold App.reload, App.drop_tables, App.initialize_db, App.with_db.
  cbn [App.s_tables App.s_sent].
  pose proof (run_calls_reachable_any ts (load_calls hh ids)
                {| conn_db := empty_db; conn_sent := App.s_sent s |}
                (reachable_empty ts)) as Hr.
  rewrite <- load_data_run_calls in Hr.
  destruct (App.load_data ts ids hh
              {| conn_db := empty_db; conn_sent := App.s_sent s |})
    as [r c]. simpl in *. eexists. split; [reflexivity|exact Hr].
Qed.

Lemma execute_query_db {A : Type} (s : statement) (q : database -> result A)
  (c : connection) :
  conn_db (snd (execute_query s q c)) = conn_db c.
Proof. reflexivity. Qed.

(** A method that only reads leaves the tables as they are. *)
Lemma with_db_reads {A : Type} (m : DB A) (s : App.session) :
  (forall c, conn_db (snd (m c)) = conn_db c) ->
  App.s_tables (snd (App.with_db m s)) = App.s_tables s.
Proof.
  intros Hm. unfold App.with_db.
  destruct (App.s_tables s) as [d|] eqn:E; [|exact E].
  specialize (Hm {| conn_db := d; conn_sent := App.s_sent s |}).
  destruct (m {| conn_db := d; conn_sent := App.s_sent s |}) as [r c].
  simpl in *. rewrite Hm. reflexivity.
Qed.

Lemma db_bind_ret_reads {A B : Type} (m : DB A) (f : A -> B) :
  (forall c, conn_db (snd (m c)) = conn_db c) ->
  forall c, conn_db (snd (db_bind m (fun a => db_ret (f a)) c)) = conn_db c.
Proof.
  intros Hm c. unfold db_bind, db_ret. specialize (Hm c).
  destruct (m c) as [[a|e] c1]; exact Hm.
Qed.

Lemma get_avg_salary_reads (c : connection) :
  conn_db (snd (DBManager.get_avg_salary c)) = conn_db c.
Proof.
  unfold DBManager.get_avg_salary.
  apply (db_bind_ret_reads _ (fun rows => match hd_error rows with
                                          | Some result => result
                                          | None => None
                                          end)).
  intros c'. apply execute_query_db.
Qed.

Lemma get_vacancies_with_higher_salary_reads (c : connection) :
  conn_db (snd (DBManager.get_vacancies_with_higher_salary c)) = conn_db c.
Proof.
  unfold DBManager.get_vacancies_with_higher_salary, db_bind.
  pose proof (get_avg_salary_reads c) as Havg.
  destruct (DBManager.get_avg_salary c) as [[[a|]|e] c1]; simpl in *;
    exact Havg.
Qed.

Lemma shows_read (line : string) (c : connection) :
  conn_db (snd (App.show_companies c)) = conn_db c
  /\ conn_db (snd (App.show_vacancies c)) = conn_db c
  /\ conn_db (snd (App.show_average c)) = conn_db c
  /\ conn_db (snd (App.show_higher c)) = conn_db c
  /\ conn_db (snd (App.show_found line c)) = conn_db c.
Proof.
  split; [reflexivity|]. split; [reflexivity|]. split; [|split].
  - unfold App.show_average.
    apply (db_bind_ret_reads _ (fun avg_salary =>
             match avg_salary with
             | Some a => if Qeq_bool a 0 then App.NoAverage
                         else App.AverageSalary a
             | None => App.NoAverage
             end)).
    apply get_avg_salary_reads.
  - unfold App.show_higher.
    apply (db_bind_ret_reads _ (fun vacancies =>
             match vacancies with
             | [] => App.NoneAboveAverage
             | _ => App.VacanciesTable App.AboveAverage
                      (map App.salary_line vacancies)
             end)).
    apply get_vacancies_with_higher_salary_reads.
  - unfold App.show_found.
    apply (db_bind_ret_reads _ (fun vacancies =>
             match vacancies with
             | [] => App.NotFound (App.strip line)
             | _ => App.VacanciesTable App.Found
                      (map App.vacancy_line vacancies)
             end)).
    intros c'. apply execute_query_db.
Qed.

Lemma snd_after (printed : list App.screen) (r : App.run) :
  snd (App.after printed r) = snd r.
Proof. destruct r as [[screens ended] s]. reflexivity. Qed.

Lemma shown_keeps (P : App.catalog -> Prop) (m : DB App.screen)
  (s : App.session) (rest : App.session -> App.run) :
  (forall c, conn_db (snd (m c)) = conn_db c) ->
  (forall s1, P (App.s_tables s1) -> P (App.s_tables (snd (rest s1)))) ->
  P (App.s_tables s) ->
  P (App.s_tables (snd (App.shown m s rest))).
Proof.
  intros Hm Hrest HP. unfold App.shown.
  pose proof (with_db_reads m s Hm) as Hs.
  destruct (App.with_db m s) as [[sc|f] s1]; simpl in Hs.
  - rewrite snd_after. apply Hrest. rewrite Hs. exact HP.
  - simpl. rewrite Hs. exact HP.
Qed.

(** What holds of the tables before the menu, and after every reload that
    the input asks for, holds after the menu. *)
Lemma menu_keeps (ts : string -> option Z) (ids : list string)
  (hh : App.hh_client) (P : App.catalog -> Prop) (n : nat) :
  forall inputs, (List.length inputs <= n)%nat ->
    ((exists line, In line inputs /\ App.strip line = "6"%string) ->
     forall s, P (App.s_tables (snd (App.reload ts ids hh s)))) ->
    forall s, P (App.s_tables s) ->
              P (App.s_tables (snd (App.interactive_menu ts ids hh inputs s))).
Proof.
  induction n as [|n IH]; intros inputs Hlen Hreload s HP.
  - destruct inputs; [exact HP|simpl in Hlen; lia].
  - destruct inputs as [|line rest]; [exact HP|]. simpl in Hlen.
    assert (Hrest : forall s1, P (App.s_tables s1) ->
              P (App.s_tables (snd (App.interactive_menu ts ids hh rest s1)))).
    { apply IH; [lia|]. intros (l & Hl & E). apply Hreload.
      exists l. split; [right; exact Hl|exact E]. }
    cbn [App.interactive_menu].
    destruct (String.eqb (App.strip line) "1").
    { apply shown_keeps; [intros c; apply (shows_read EmptyString)|exact Hrest|exact HP]. }
    destruct (String.eqb (App.strip line) "2").
    { apply shown_keeps; [intros c; apply (shows_read EmptyString)|exact Hrest|exact HP]. }
    destruct (String.eqb (App.strip line) "3").
    { apply shown_keeps; [intros c; apply (shows_read EmptyString)|exact Hrest|exact HP]. }
    destruct (String.eqb (App.strip line) "4").
    { apply shown_keeps; [intros c; apply (shows_read EmptyString)|exact Hrest|exact HP]. }
    destruct (String.eqb (App.strip line) "5").
    { destruct rest as [|keyword_line rest']; [exact HP|].
      apply shown_keeps; [intros c; apply (shows_read keyword_line)| |exact HP].
      apply IH; [simpl in Hlen; lia|]. intros (l & Hl & E). apply Hreload.
      exists l. split; [right; right; exact Hl|exact E]. }
    destruct (String.eqb (App.strip line) "6") eqn:E6.
    { apply String.eqb_eq in E6.
      assert (Hr : P (App.s_tables (snd (App.reload ts ids hh s)))).
      { apply Hreload. exists line. split; [left; reflexivity|exact E6]. }
      destruct (App.reload ts ids hh s) as [[[]|f] s1]; simpl in Hr.
      - rewrite snd_after. apply Hrest. exact Hr.
      - exact Hr. }
    destruct (String.eqb (App.strip line) "7"); [exact HP|].
    rewrite snd_after. apply Hrest. exact HP.
Qed.

(** X16: as long as no line of the input is the choice 6, the menu leaves
    the stored data as it found it, whatever else is typed and however the
    menu ends. *)
Theorem interactive_menu_reads (ts : string -> option Z) (ids : list string)
  (hh : App.hh_client) (inputs : list string) (s : App.session) :
  (forall line, In line inputs -> App.strip line <> "6"%string) ->
  App.s_tables (snd (App.interactive_menu ts ids hh inputs s)) = App.s_tables s.
Proof.
  intros Hno.
  apply (menu_keeps ts ids hh (fun t => t = App.s_tables s)
           (List.length inputs) inputs (le_n _)); [|reflexivity].
  intros (line & Hin & E). exfalso. exact (Hno line Hin E).
Qed.

Lemma interactive_menu_reads_witness :
  (forall line, In line ["2"; " 5"; "k"; "x"; "7"]%string ->
                App.strip line <> "6"%string)
  /\ App.s_tables
       (snd (App.interactive_menu Sample.timestamp_in ["1"%string] sample_client
               ["2"; " 5"; "k"; "x"; "7"]%string
               {| App.s_tables := Some Sample.two_salaries; App.s_sent := [] |})) =
     Some Sample.two_salaries.
Proof.
  assert (H : forall line, In line ["2"; " 5"; "k"; "x"; "7"]%string ->
                           App.strip line <> "6"%string).
  { intros line [<-|[<-|[<-|[<-|[<-|[]]]]]]; discriminate. }
  split; [exact H|].
  exact (interactive_menu_reads Sample.timestamp_in ["1"%string] sample_client
           ["2"; " 5"; "k"; "x"; "7"]%string
           {| App.s_tables := Some Sample.two_salaries; App.s_sent := [] |} H).
Defined.

(** X17: whatever the database held and whatever is typed, [main] leaves
    the tables in place, in a state that insert calls reach from the empty
    schema, whether the load returned or raised and however the menu
    ended; so does every reload of the menu. *)
Theorem main_leaves_reachable (ts : string -> option Z) (ids : list string)
  (hh : App.hh_client) :
  (forall s, exists d,
      App.s_tables (snd (App.reload ts ids hh s)) = Some d /\ reachable ts d)
  /\ (forall inputs s, exists d,
        App.s_tables (snd (App.main ts ids hh inputs s)) = Some d
        /\ reachable ts d).
Proof.
  split; [apply reload_reachable|].
  intros inputs s. unfold App.main.
  pose proof (reload_reachable ts ids hh s) as Hr.
  destruct (App.reload ts ids hh s) as [[[]|f] s1]; [|exact Hr].
  apply (menu_keeps ts ids hh
           (fun t => exists d, t = Some d /\ reachable ts d)
           (List.length inputs) inputs (le_n _)); [|exact Hr].
  intros _ s'. apply reload_reachable.
Qed.

(** ** [load_data] on a source that fits the schema *)

Lemma add_employer_loads (c : connection) (id : Z) (name url : string) :
  in_int8 id = true ->
  exists c1, DBManager.add_employer id name url c = (Ok tt, c1)
    /\ currencies (conn_db c1) = currencies (conn_db c)
    /\ vacancies (conn_db c1) = vacancies (conn_db c)
    /\ has_employer (conn_db c1) id = true
    /\ (forall x, has_employer (conn_db c) x = true ->
                  has_employer (conn_db c1) x = true).
Proof.
  intros Hid. unfold DBManager.add_employer, execute_insert,
    DBManager.insert_employer, to_int8. rewrite Hid. simpl.
  destruct (has_employer (conn_db c) id) eqn:E; eexists;
    (split; [reflexivity|]); simpl; repeat split; auto.
  - unfold has_employer. simpl. apply existsb_snoc_self. simpl. apply Z.eqb_refl.
  - intros x Hx. unfold has_employer in *. simpl.
    rewrite existsb_app, Hx. reflexivity.
Qed.

Lemma load_employers_loads (ts : string -> option Z) (hh : App.hh_client)
  (ids : list string) :
  forallb (fun id => in_int8 (App.re_id (App.get_employer hh id))) ids = true ->
  forall c, exists c1,
    run_calls ts (employer_calls hh ids) c = (Ok tt, c1)
    /\ currencies (conn_db c1) = currencies (conn_db c)
    /\ vacancies (conn_db c1) = vacancies (conn_db c)
    /\ (forall id, In id ids ->
          has_employer (conn_db c1) (App.re_id (App.get_employer hh id)) = true)
    /\ (forall x, has_employer (conn_db c) x = true ->
                  has_employer (conn_db c1) x = true).
Proof.
  induction ids as [|id ids IH]; intros Hok c.
  - exists c. split; [reflexivity|]. split; [reflexivity|].
    split; [reflexivity|]. split; [intros id []|auto].
  - simpl in Hok. apply andb_prop in Hok. destruct Hok as [Hid Hok].
    destruct (add_employer_loads c (App.re_id (App.get_employer hh id))
                (App.re_name (App.get_employer hh id))
                (App.re_alternate_url (App.get_employer hh id)) Hid)
      as (c1 & Hadd & Hc & Hv & Hhas & Hmono).
    destruct (IH Hok c1) as (c2 & Hrun & Hc2 & Hv2 & Hall & Hmono2).
    exists c2. split; [|split; [congruence|split; [congruence|split]]].
    + simpl. unfold db_bind. simpl run_call. rewrite Hadd. exact Hrun.
    + intros x [<-|Hx]; [|apply Hall; exact Hx].
      apply Hmono2. exact Hhas.
    + intros x Hx. apply Hmono2, Hmono, Hx.
Qed.

Lemma add_currency_loads (c : connection) (code name : string) (r : Q) :
  exists c1, DBManager.add_currency code name (Some r) c = (Ok tt, c1)
    /\ employers (conn_db c1) = employers (conn_db c)
    /\ vacancies (conn_db c1) = vacancies (conn_db c)
    /\ has_currency (conn_db c1) code = true
    /\ (forall x, has_currency (conn_db c) x = true ->
                  has_currency (conn_db c1) x = true).
Proof.
  unfold DBManager.add_currency, execute_insert, DBManager.insert_currency.
  destruct (has_currency (conn_db c) code) eqn:E; eexists;
    (split; [reflexivity|]); simpl;
    (split; [reflexivity|]); (split; [reflexivity|]); split; auto.
  - unfold has_currency. simpl. apply existsb_snoc_self. simpl.
    apply String.eqb_refl.
  - intros x Hx. unfold has_currency in *. simpl.
    rewrite existsb_app, Hx. reflexivity.
Qed.

Lemma load_currencies_loads (ts : string -> option Z)
  (cs : list App.raw_currency) :
  forallb (fun c => match App.rc_rate c with Some _ => true | None => false end)
    cs = true ->
  forall c, exists c1,
    run_calls ts
      (map (fun k => AddCurrency (App.rc_code k) (App.rc_name k) (App.rc_rate k))
         cs) c = (Ok tt, c1)
    /\ employers (conn_db c1) = employers (conn_db c)
    /\ vacancies (conn_db c1) = vacancies (conn_db c)
    /\ (forall k, In k cs -> has_currency (conn_db c1) (App.rc_code k) = true)
    /\ (forall x, has_currency (conn_db c) x = true ->
                  has_currency (conn_db c1) x = true).
Proof.
  induction cs as [|k cs IH]; intros Hok c.
  - exists c. split; [reflexivity|]. split; [reflexivity|].
    split; [reflexivity|]. split; [intros k []|auto].
  - simpl in Hok. apply andb_prop in Hok. destruct Hok as [Hk Hok].
    destruct (App.rc_rate k) as [r|] eqn:Er; [|discriminate].
    destruct (add_currency_loads c (App.rc_code k) (App.rc_name k) r)
      as (c1 & Hadd & He & Hv & Hhas & Hmono).
    destruct (IH Hok c1) as (c2 & Hrun & He2 & Hv2 & Hall & Hmono2).
    exists c2. split; [|split; [congruence|split; [congruence|split]]].
    + simpl. unfold db_bind. simpl run_call. rewrite Er, Hadd. exact Hrun.
    + intros x [<-|Hx]; [|apply Hall; exact Hx].
      apply Hmono2. exact Hhas.
    + intros x Hx. apply Hmono2, Hmono, Hx.
Qed.

Lemma distinct_head_differs (url : string) (vs : list Main.raw_vacancy) :
  existsb (String.eqb url) (map Main.rv_alternate_url vs) = false ->
  forall w, In w vs -> String.eqb (Main.rv_alternate_url w) url = false.
Proof.
  intros H w Hw.
  destruct (String.eqb (Main.rv_alternate_url w) url) eqn:E; [|reflexivity].
  apply String.eqb_eq in E.
  assert (existsb (String.eqb url) (map Main.rv_alternate_url vs) = true) as Ht.
  { apply existsb_exists. exists (Main.rv_alternate_url w). split.
    - apply in_map. exact Hw.
    - rewrite E. apply String.eqb_refl. }
  congruence.
Qed.

(** The vacancies of a list with distinct ids and urls, none of them stored
    yet, each with its employer and currency stored, are all inserted. *)
Lemma load_vacancies_loads (ts : string -> option Z)
  (vs : list Main.raw_vacancy) :
  forall c,
    NoDup (map Main.rv_id vs) ->
    distinct String.eqb (map Main.rv_alternate_url vs) = true ->
    (forall v, In v vs ->
       fits_columns ts (Main.rv_id v) (payload_of_raw v) = true
       /\ has_employer (conn_db c) (Main.rv_employer_id v) = true
       /\ match Main.salary_currency_arg v with
          | Some code => has_currency (conn_db c) code = true
          | None => True
          end
       /\ has_vacancy (conn_db c) (Main.rv_id v) = false
       /\ has_vacancy_url (conn_db c) (Main.rv_alternate_url v) = false) ->
    exists c1,
      run_calls ts
        (map (fun v => AddVacancy (Main.rv_id v) (payload_of_raw v)) vs) c
      = (Ok tt, c1)
      /\ employers (conn_db c1) = employers (conn_db c)
      /\ currencies (conn_db c1) = currencies (conn_db c)
      /\ map v_id (vacancies (conn_db c1)) =
         map v_id (vacancies (conn_db c)) ++ map Main.rv_id vs
      /\ map v_alternate_url (vacancies (conn_db c1)) =
         map v_alternate_url (vacancies (conn_db c))
         ++ map Main.rv_alternate_url vs
      /\ exists rows, vacancies (conn_db c1) = vacancies (conn_db c) ++ rows
                      /\ Forall2 (stored_as ts) vs rows.
Proof.
  induction vs as [|v vs IH]; intros c Hnd Hurl Hall.
  - exists c. simpl. rewrite !app_nil_r.
    split; [reflexivity|]. split; [reflexivity|]. split; [reflexivity|].
    split; [reflexivity|]. split; [reflexivity|].
    exists []. rewrite app_nil_r. split; [reflexivity|constructor].
  - simpl in Hnd, Hurl. inversion Hnd as [|? ? Hnotin Hnd']; subst.
    apply andb_prop in Hurl. destruct Hurl as [Hhead Hurl].
    apply negb_true_iff in Hhead.
    destruct (Hall v (or_introl eq_refl)) as (Hfit & Hemp & Hcur & Hnew & Hnurl).
    destruct (insert_vacancy_fits ts (Main.rv_id v) (payload_of_raw v)
                (conn_db c) Hfit) as (t & Ht & Hins).
    rewrite Hnew in Hins.
    assert (has_vacancy_url (conn_db c) (p_alternate_url (payload_of_raw v))
            = false) as Hnurl' by exact Hnurl.
    assert (has_employer (conn_db c) (p_employer_id (payload_of_raw v)) = true)
      as Hemp' by exact Hemp.
    assert (match p_salary_currency (payload_of_raw v) with
            | Some code => negb (has_currency (conn_db c) code)
            | None => false
            end = false) as Hc0.
    { change (p_salary_currency (payload_of_raw v))
        with (Main.salary_currency_arg v).
      destruct (Main.salary_currency_arg v); [rewrite Hcur|]; reflexivity. }
    rewrite Hnurl', Hemp', Hc0 in Hins. simpl negb in Hins. cbv iota in Hins.
    set (c1 := {| conn_db :=
                    {| employers := employers (conn_db c);
                       currencies := currencies (conn_db c);
                       vacancies := vacancies (conn_db c)
                         ++ [stored_vacancy (Main.rv_id v) (payload_of_raw v) t] |};
                  conn_sent := conn_sent c ++ [InsertVacancy] |}).
    assert (add_vacancy_payload ts (Main.rv_id v) (payload_of_raw v) c
            = (Ok tt, c1)) as Hadd.
    { rewrite add_vacancy_payload_run, Hins. reflexivity. }
    destruct (IH c1 Hnd' Hurl)
      as (c2 & Hrun & He2 & Hc2 & Hid2 & Hu2 & rows & Hrows & Hstored).
    { intros w Hw.
      destruct (Hall w (or_intror Hw)) as (Hf & He & Hc & Hn & Hnu).
      split; [exact Hf|]. split; [exact He|]. split; [exact Hc|]. split.
      - unfold has_vacancy in *. simpl. rewrite existsb_app, Hn. simpl.
        rewrite orb_false_r. apply Z.eqb_neq. intros Heq. apply Hnotin.
        rewrite Heq. apply in_map. exact Hw.
      - unfold has_vacancy_url in *. simpl. rewrite existsb_app, Hnu. simpl.
        rewrite orb_false_r.
        destruct (String.eqb (Main.rv_alternate_url v) (Main.rv_alternate_url w))
          eqn:E; [|reflexivity].
        apply String.eqb_eq in E.
        pose proof (distinct_head_differs _ _ Hhead w Hw) as Hd.
        rewrite <- E, String.eqb_refl in Hd. discriminate. }
    exists c2. split; [|split; [exact He2|split; [exact Hc2|split; [|split]]]].
    + simpl. unfold db_bind. simpl run_call. rewrite Hadd. exact Hrun.
    + rewrite Hid2. simpl. rewrite map_app, <- app_assoc. reflexivity.
    + rewrite Hu2. simpl. rewrite map_app, <- app_assoc. reflexivity.
    + exists (stored_vacancy (Main.rv_id v) (payload_of_raw v) t :: rows).
      split.
      * rewrite Hrows. simpl. rewrite <- app_assoc. reflexivity.
      * constructor; [|exact Hstored]. exists t. split; [exact Ht|reflexivity].
Qed.

(** X18: on tables without vacancies, [load_data] returns for a source
    that fits the schema (employer ids in BIGINT, currencies with a rate,
    vacancies that fit their columns and name an employer and a currency
    of the source, urls that differ from one vacancy id to another); the
    vacancies stored afterwards are, in order, the first occurrences of the
    ids that the source answers, and every employer and currency of the
    source is stored. *)
Theorem load_data_loads (ts : string -> option Z) (ids : list string)
  (hh : App.hh_client) (c : connection) :
  source_ok ts hh ids = true ->
  vacancies (conn_db c) = [] ->
  exists c1,
    App.load_data ts ids hh c = (Ok tt, c1)
    /\ map v_id (vacancies (conn_db c1)) =
       map Main.rv_id (first_occurrences (fetched_vacancies hh ids) [])
    /\ (forall id, In id ids ->
          has_employer (conn_db c1) (App.re_id (App.get_employer hh id)) = true)
    /\ (forall k, In k (App.get_currencies hh) ->
          has_currency (conn_db c1) (App.rc_code k) = true).
Proof.
  intros Hok Hempty. unfold source_ok in Hok.
  apply andb_prop in Hok. destruct Hok as [Hok Hurls].
  apply andb_prop in Hok. destruct Hok as [Hok Hvs].
  apply andb_prop in Hok. destruct Hok as [Hes Hcs].
  destruct (load_employers_loads ts hh ids Hes c)
    as (c1 & Hrun1 & Hc1 & Hv1 & Hall1 & _).
  destruct (load_currencies_loads ts (App.get_currencies hh) Hcs c1)
    as (c2 & Hrun2 & He2 & Hv2 & Hall2 & _).
  destruct (first_occurrences_ids (fetched_vacancies hh ids) [])
    as (Hnd & _ & _).
  destruct (load_vacancies_loads ts
              (first_occurrences (fetched_vacancies hh ids) []) c2 Hnd Hurls)
    as (c3 & Hrun3 & He3 & Hc3 & Hid3 & _).
  { intros v Hv. rewrite forallb_forall in Hvs. specialize (Hvs v Hv).
    unfold vacancy_loadable in Hvs.
    apply andb_prop in Hvs. destruct Hvs as [Hvs Hcur].
    apply andb_prop in Hvs. destruct Hvs as [Hfit Hemp].
    split; [exact Hfit|]. split; [|split; [|split]].
    - apply existsb_exists in Hemp. destruct Hemp as (id & Hid & Heq).
      apply Z.eqb_eq in Heq. rewrite <- Heq.
      unfold has_employer. rewrite He2. apply (Hall1 id Hid).
    - destruct (Main.salary_currency_arg v) as [code|]; [|exact I].
      apply existsb_exists in Hcur. destruct Hcur as (k & Hk & Heq).
      apply String.eqb_eq in Heq. rewrite <- Heq. apply Hall2. exact Hk.
    - unfold has_vacancy. rewrite Hv2, Hv1, Hempty. reflexivity.
    - unfold has_vacancy_url. rewrite Hv2, Hv1, Hempty. reflexivity. }
  exists c3. split; [|split; [|split]].
  - rewrite load_data_run_calls. unfold load_calls.
    rewrite run_calls_app. unfold db_bind at 1. rewrite Hrun1.
    rewrite run_calls_app. unfold db_bind at 1.
    unfold currency_calls. rewrite Hrun2.
    unfold vacancy_calls. exact Hrun3.
  - rewrite Hid3, Hv2, Hv1, Hempty. reflexivity.
  - intros id Hid. unfold has_employer. rewrite He3, He2. apply (Hall1 id Hid).
  - intros k Hk. unfold has_currency. rewrite Hc3. apply (Hall2 k Hk).
Qed.

Lemma load_data_loads_witness :
  exists c1,
    App.load_data Sample.timestamp_in ["1"%string] sample_client
      (connect empty_db) = (Ok tt, c1)
    /\ map v_id (vacancies (conn_db c1)) =
       map Main.rv_id
         (first_occurrences (fetched_vacancies sample_client ["1"%string]) [])
    /\ (forall id, In id ["1"%string] ->
          has_employer (conn_db c1)
            (App.re_id (App.get_employer sample_client id)) = true)
    /\ (forall k, In k (App.get_currencies sample_client) ->
          has_currency (conn_db c1) (App.rc_code k) = true).
Proof.
  apply (load_data_loads Sample.timestamp_in ["1"%string] sample_client
           (connect empty_db)); reflexivity.
Defined.

(** * What is stored: bounds of 0, currencies without a row *)

(** ** [load_data]: a bound of 0 in the source *)

(** A bound that [load_data] passes to [add_vacancy] is never 0. *)
Lemma payload_no_zero (v : Main.raw_vacancy) :
  no_zero_bound (Main.salary_from_arg v) (Main.salary_to_arg v).
Proof.
  unfold no_zero_bound, Main.salary_from_arg, Main.salary_to_arg.
  destruct (Main.rv_salary v) as [s|]; simpl; [|split; discriminate].
  split.
  - destruct (Main.rs_from s) as [n|]; simpl; [|discriminate].
    destruct (n =? 0) eqn:E; simpl; [discriminate|].
    intros H. injection H as ->. discriminate.
  - destruct (Main.rs_to s) as [n|]; simpl; [|discriminate].
    destruct (n =? 0) eqn:E; simpl; [discriminate|].
    intros H. injection H as ->. discriminate.
Qed.

(** What a call of an insert method leaves in [vacancies], whether it
    returns or raises: what was there, and after a call of [add_vacancy]
    possibly the row of the call. *)
Lemma run_call_vacancies (ts : string -> option Z) (k : call) (c : connection) :
  vacancies (conn_db (snd (run_call ts k c))) = vacancies (conn_db c)
  \/ exists id p t,
       k = AddVacancy id p
       /\ vacancies (conn_db (snd (run_call ts k c))) =
          vacancies (conn_db c) ++ [stored_vacancy id p t].
Proof.
  destruct k as [id name url|code name rate|id p]; simpl run_call.
  - left. unfold DBManager.add_employer, execute_insert,
      DBManager.insert_employer, to_int8.
    destruct (in_int8 id); simpl; [|reflexivity].
    destruct (has_employer (conn_db c) id); reflexivity.
  - left. unfold DBManager.add_currency, execute_insert,
      DBManager.insert_currency.
    destruct rate as [r|]; [|reflexivity].
    destruct (has_currency (conn_db c) code); reflexivity.
  - rewrite add_vacancy_payload_run.
    destruct (fits_columns ts id p) eqn:Hfit.
    + destruct (insert_vacancy_fits ts id p (conn_db c) Hfit) as (t & _ & ->).
      destruct (has_vacancy (conn_db c) id); [left; reflexivity|].
      destruct (has_vacancy_url (conn_db c) (p_alternate_url p));
        [left; reflexivity|].
      destruct (negb (has_employer (conn_db c) (p_employer_id p)));
        [left; reflexivity|].
      destruct (match p_salary_currency p with
                | Some code => negb (has_currency (conn_db c) code)
                | None => false
                end); [left; reflexivity|].
      right. exists id, p, t. split; reflexivity.
    + destruct (insert_vacancy_misfit ts id p (conn_db c) Hfit) as [e ->].
      left. reflexivity.
Qed.

Lemma run_calls_no_zero (ts : string -> option Z) (ks : list call) :
  (forall id p, In (AddVacancy id p) ks ->
     no_zero_bound (p_salary_from p) (p_salary_to p)) ->
  forall c,
    (forall w, In w (vacancies (conn_db c)) ->
       no_zero_bound (v_salary_from w) (v_salary_to w)) ->
    forall w, In w (vacancies (conn_db (snd (run_calls ts ks c)))) ->
      no_zero_bound (v_salary_from w) (v_salary_to w).
Proof.
  induction ks as [|k ks IH]; intros Hks c Hc; [exact Hc|].
  assert (Hstep : forall w,
             In w (vacancies (conn_db (snd (run_call ts k c)))) ->
             no_zero_bound (v_salary_from w) (v_salary_to w)).
  { intros w Hw.
    destruct (run_call_vacancies ts k c) as [E|(id & p & t & -> & E)];
      rewrite E in Hw; [apply Hc; exact Hw|].
    apply in_app_or in Hw. destruct Hw as [Hw|[<-|[]]]; [apply Hc; exact Hw|].
    apply (Hks id p). left. reflexivity. }
  simpl. unfold db_bind.
  destruct (run_call ts k c) as [[[]|e] c1]; [|exact Hstep].
  apply IH; [|exact Hstep].
  intros id p Hin. apply (Hks id p). right. exact Hin.
Qed.

Lemma stored_find (ts : string -> option Z) (vs : list Main.raw_vacancy)
  (rows : list vacancy) :
  Forall2 (stored_as ts) vs rows ->
  NoDup (map Main.rv_id vs) ->
  forall v, In v vs ->
    exists w, find (fun w => v_id w =? Main.rv_id v) rows = Some w
              /\ stored_as ts v w.
Proof.
  induction 1 as [|v0 w0 vs rows H0 _ IH]; intros Hnd v Hin; [destruct Hin|].
  simpl in Hnd. inversion Hnd as [|? ? Hnotin Hnd']; subst.
  assert (Hid : v_id w0 = Main.rv_id v0).
  { destruct H0 as (t & _ & ->). reflexivity. }
  destruct Hin as [<-|Hin].
  - exists w0. split; [|exact H0]. simpl. rewrite Hid, Z.eqb_refl. reflexivity.
  - destruct (IH Hnd' v Hin) as (w & Hfind & Hw).
    exists w. split; [|exact Hw]. simpl. rewrite Hid.
    destruct (Main.rv_id v0 =? Main.rv_id v) eqn:E; [|exact Hfind].
    apply Z.eqb_eq in E. exfalso. apply Hnotin. rewrite E.
    apply in_map. exact Hin.
Qed.

(** On tables without vacancies a source that fits the schema is loaded,
    and the rows of [vacancies] are then the rows of the calls made for the
    first occurrences of the vacancy ids. *)
Lemma load_data_stores (ts : string -> option Z) (ids : list string)
  (hh : App.hh_client) (c : connection) :
  source_ok ts hh ids = true ->
  vacancies (conn_db c) = [] ->
  exists c1,
    App.load_data ts ids hh c = (Ok tt, c1)
    /\ Forall2 (stored_as ts) (first_occurrences (fetched_vacancies hh ids) [])
         (vacancies (conn_db c1)).
Proof.
  intros Hok Hempty. unfold source_ok in Hok.
  apply andb_prop in Hok. destruct Hok as [Hok Hurls].
  apply andb_prop in Hok. destruct Hok as [Hok Hvs].
  apply andb_prop in Hok. destruct Hok as [Hes Hcs].
  destruct (load_employers_loads ts hh ids Hes c)
    as (c1 & Hrun1 & Hc1 & Hv1 & Hall1 & _).
  destruct (load_currencies_loads ts (App.get_currencies hh) Hcs c1)
    as (c2 & Hrun2 & He2 & Hv2 & Hall2 & _).
  destruct (first_occurrences_ids (fetched_vacancies hh ids) [])
    as (Hnd & _ & _).
  destruct (load_vacancies_loads ts
              (first_occurrences (fetched_vacancies hh ids) []) c2 Hnd Hurls)
    as (c3 & Hrun3 & _ & _ & _ & _ & rows & Hrows & Hstored).
  { intros v Hv. rewrite forallb_forall in Hvs. specialize (Hvs v Hv).
    unfold vacancy_loadable in Hvs.
    apply andb_prop in Hvs. destruct Hvs as [Hvs Hcur].
    apply andb_prop in Hvs. destruct Hvs as [Hfit Hemp].
    split; [exact Hfit|]. split; [|split; [|split]].
    - apply existsb_exists in Hemp. destruct Hemp as (id & Hid & Heq).
      apply Z.eqb_eq in Heq. rewrite <- Heq.
      unfold has_employer. rewrite He2. apply (Hall1 id Hid).
    - destruct (Main.salary_currency_arg v) as [code|]; [|exact I].
      apply existsb_exists in Hcur. destruct Hcur as (k & Hk & Heq).
      apply String.eqb_eq in Heq. rewrite <- Heq. apply Hall2. exact Hk.
    - unfold has_vacancy. rewrite Hv2, Hv1, Hempty. reflexivity.
    - unfold has_vacancy_url. rewrite Hv2, Hv1, Hempty. reflexivity. }
  exists c3. split.
  - rewrite load_data_run_calls. unfold load_calls.
    rewrite run_calls_app. unfold db_bind at 1. rewrite Hrun1.
    rewrite run_calls_app. unfold db_bind at 1.
    unfold currency_calls. rewrite Hrun2.
    unfold vacancy_calls. exact Hrun3.
  - rewrite Hrows, Hv2, Hv1, Hempty. exact Hstored.
Qed.

(** C10: [load_data] never stores a salary bound of 0, whether it returns
    or raises; and when it loads a source that fits the schema into tables
    without vacancies, a vacancy of the source (the first of its id) is
    stored as a row that has null where the source has a bound of 0: the
    very row that is stored for the same vacancy without that bound. *)
Theorem zero_bound_stored_as_null (ts : string -> option Z)
  (ids : list string) (hh : App.hh_client) (c : connection) :
  vacancies (conn_db c) = [] ->
  (forall w, In w (vacancies (conn_db (snd (App.load_data ts ids hh c)))) ->
     no_zero_bound (v_salary_from w) (v_salary_to w))
  /\ (source_ok ts hh ids = true ->
      exists c1,
        App.load_data ts ids hh c = (Ok tt, c1)
        /\ forall v s,
             In v (first_occurrences (fetched_vacancies hh ids) []) ->
             Main.rv_salary v = Some s ->
             exists w,
               find_vacancy (conn_db c1) (Main.rv_id v) = Some w
               /\ stored_as ts v w
               /\ (Main.rs_from s = Some 0 ->
                   v_salary_from w = None
                   /\ stored_as ts (with_salary v (Some (without_from s))) w)
               /\ (Main.rs_to s = Some 0 ->
                   v_salary_to w = None
                   /\ stored_as ts (with_salary v (Some (without_to s))) w)).
Proof.
  intros Hempty. split.
  - rewrite load_data_run_calls. apply run_calls_no_zero.
    + intros id p Hin. unfold load_calls in Hin.
      apply in_app_or in Hin. destruct Hin as [Hin|Hin].
      { unfold employer_calls in Hin. apply in_map_iff in Hin.
        destruct Hin as (x & Hx & _). discriminate Hx. }
      apply in_app_or in Hin. destruct Hin as [Hin|Hin].
      { unfold currency_calls in Hin. apply in_map_iff in Hin.
        destruct Hin as (x & Hx & _). discriminate Hx. }
      unfold vacancy_calls in Hin. apply in_map_iff in Hin.
      destruct Hin as (v & Hv & _). injection Hv as _ <-.
      apply payload_no_zero.
    + rewrite Hempty. intros w [].
  - intros Hok.
    destruct (load_data_stores ts ids hh c Hok Hempty) as (c1 & Hload & Hrows).
    exists c1. split; [exact Hload|]. intros v s Hin Hs.
    destruct (first_occurrences_ids (fetched_vacancies hh ids) [])
      as (Hnd & _ & _).
    destruct (stored_find ts _ _ Hrows Hnd v Hin) as (w & Hfind & Hw).
    exists w. split; [exact Hfind|]. split; [exact Hw|].
    destruct Hw as (t & Ht & ->). split; intros Hz.
    + split.
      * simpl. unfold Main.salary_from_arg. rewrite Hs, Hz. reflexivity.
      * exists t. split; [exact Ht|].
        unfold stored_vacancy, payload_of_raw, Main.salary_from_arg,
          Main.salary_to_arg, Main.salary_currency_arg, with_salary,
          without_from.
        simpl. rewrite Hs, Hz. reflexivity.
    + split.
      * simpl. unfold Main.salary_to_arg. rewrite Hs, Hz. reflexivity.
      * exists t. split; [exact Ht|].
        unfold stored_vacancy, payload_of_raw, Main.salary_from_arg,
          Main.salary_to_arg, Main.salary_currency_arg, with_salary,
          without_to.
        simpl. rewrite Hs, Hz. reflexivity.
Qed.

Lemma zero_bound_stored_as_null_witness :
  vacancies (conn_db (connect empty_db)) = []
  /\ source_ok Sample.timestamp_in sample_client ["1"%string] = true
  /\ In Sample.from_zero
       (first_occurrences (fetched_vacancies sample_client ["1"%string]) [])
  /\ exists c1 w,
       App.load_data Sample.timestamp_in ["1"%string] sample_client
         (connect empty_db) = (Ok tt, c1)
       /\ find_vacancy (conn_db c1) 5 = Some w
       /\ v_salary_from w = None
       /\ v_salary_to w = Some 40000.
Proof.
  split; [reflexivity|]. split; [reflexivity|].
  split; [left; reflexivity|].
  destruct (proj2 (zero_bound_stored_as_null Sample.timestamp_in ["1"%string]
                     sample_client (connect empty_db) eq_refl) eq_refl)
    as (c1 & Hload & Hrows).
  destruct (Hrows Sample.from_zero _ (or_introl eq_refl) eq_refl)
    as (w & Hfind & (t & _ & Hw) & Hfrom & _).
  exists c1, w. split; [exact Hload|]. split; [exact Hfind|].
  split; [exact (proj1 (Hfrom eq_refl))|].
  rewrite Hw. reflexivity.
Defined.

(** ** A currency without a row, and the null currency *)








